(** * Image upload pipeline: edge relay and storage backend

    A shallow embedding of the upload validation and relay pipeline:
    - the storage backend ([be/src/index.ts]): ingress filter, PNG signature
      check, per-file validation loop, response construction, error
      middleware;
    - the edge middleware ([withMultiplePathForm.ts], stream and buffer
      variants) and the two relay handlers that drive it.

    Conventions of the embedding.
    - Stateful code runs in a state-and-exception monad [M]; a [try]/[catch]
      keeps the state reached at the point of the [throw], as in JavaScript.
      An [await] on a promise that never settles ends the computation with
      [Pending], which no [catch] sees.
    - The file system is a finite map from paths to inodes.  [readFileSync]
      and [unlinkSync] fail on a missing path or a missing permission.
    - [console.warn] and [console.error] are recorded, an error argument
      being rendered by its message; [console.log] progress traces have no
      effect on any state and are left out.
    - Third-party libraries (multer, formidable, fetch, uuid, path) are
      modelled by their documented behaviour or taken as parameters; this is
      said at each such definition. *)

From Stdlib Require Import ZArith NArith List String Ascii Lia.
From Stdlib Require Import Decimal DecimalString DecimalPos DecimalN.
From Stdlib Require Import Strings.Byte.
From stdpp Require Import base option strings gmap list.
Import ListNotations.
Open Scope string_scope.

(** ** JavaScript values and primitives *)

Module Js.

(** [Number.prototype.toString] on a non-negative integer. *)
Definition numToString (n : N) : string :=
  NilZero.string_of_uint (N.to_uint n).

(** [Array.prototype.join]. *)
Fixpoint join (sep : string) (l : list string) : string :=
  match l with
  | [] => ""
  | [x] => x
  | x :: rest => x ++ sep ++ join sep rest
  end.

(** Truthiness of a value of type [string | null | undefined]:
    [None] stands for null/undefined, and the empty string is falsy. *)
Definition truthy (o : option string) : bool :=
  match o with
  | Some s => negb (String.eqb s "")
  | None => false
  end.

(** [a || b] where [b] is a string. *)
Definition or_else (o : option string) (d : string) : string :=
  match o with
  | Some s => if String.eqb s "" then d else s
  | None => d
  end.

(** [String.prototype.startsWith]. *)
Definition startsWith (s pre : string) : bool := String.prefix pre s.

(** Interpolation of an [undefined]-able string in a template literal. *)
Definition interp (o : option string) : string :=
  match o with
  | Some s => s
  | None => "undefined"
  end.

End Js.

(** ** Exceptions and the state-and-exception monad *)

(** Thrown values.  Everything thrown in this code base is an [Error];
    multer's errors are the subclass [MulterError], which carries a code. *)
Inductive exn : Type :=
| Error (message : string)
| MulterError (code : string) (message : string).

Definition exn_message (e : exn) : string :=
  match e with
  | Error m => m
  | MulterError _ m => m
  end.

(** How a computation ends: it returns, it throws, or it waits on a promise
    that never settles.  In the last case nothing after the [await] runs: no
    later statement, no [catch], no [finally]. *)
Inductive outcome (A : Type) : Type :=
| Ret (a : A)
| Throw (e : exn)
| Pending.
Arguments Ret {A} a.
Arguments Throw {A} e.
Arguments Pending {A}.

Definition M (S A : Type) : Type := S -> S * outcome A.

Definition ret {S A} (a : A) : M S A := fun s => (s, Ret a).

Definition bind {S A B} (m : M S A) (k : A -> M S B) : M S B :=
  fun s =>
    match m s with
    | (s', Ret a) => k a s'
    | (s', Throw e) => (s', Throw e)
    | (s', Pending) => (s', Pending)
    end.

Definition throw {S A} (e : exn) : M S A := fun s => (s, Throw e).

(** [try { body } catch (e) { handler e }]: the handler runs in the state
    the body had reached when it threw. *)
Definition try_catch {S A} (body : M S A) (handler : exn -> M S A) : M S A :=
  fun s =>
    match body s with
    | (s', Ret a) => (s', Ret a)
    | (s', Throw e) => handler e s'
    | (s', Pending) => (s', Pending)
    end.

Definition get {S} : M S S := fun s => (s, Ret s).
Definition modify {S} (f : S -> S) : M S unit := fun s => (f s, Ret tt).

Declare Scope js_scope.
Delimit Scope js_scope with js.
Notation "'let*' x := c1 'in' c2" := (bind c1 (fun x => c2))
  (at level 10, x name, c1 at level 100, c2 at level 200) : js_scope.
Notation "c1 ;;; c2" := (bind c1 (fun _ => c2))
  (at level 100, c2 at level 200, right associativity) : js_scope.
Open Scope js_scope.

(** [for (const x of xs) body x]: stops at the first exception. *)
Fixpoint for_of {S A} (xs : list A) (body : A -> M S unit) : M S unit :=
  match xs with
  | [] => ret tt
  | x :: rest => body x ;;; for_of rest body
  end.

(** [xs.map(f)] for an effectful [f]. *)
Fixpoint map_m {S A B} (f : A -> M S B) (xs : list A) : M S (list B) :=
  match xs with
  | [] => ret []
  | x :: rest => let* y := f x in let* ys := map_m f rest in ret (y :: ys)
  end.

(** ** The world: file system, console, response channel, entropy *)

Record inode : Type := mkInode {
  content : list byte;
  readable : bool;
  removable : bool
}.

Inductive level : Type := Warn | Err.

(** The JSON bodies exchanged by both processes ([interface UploadResponse]). *)
Record StoredFile : Type := mkStoredFile {
  sf_id : string;
  sf_originalName : string;
  sf_filename : string;
  sf_path : string;
  sf_size : N;
  sf_mimetype : string;
  sf_url : string
}.

Record UploadResponse : Type := mkUploadResponse {
  success : bool;
  message : string;
  files : option (list StoredFile);
  error : option string
}.

Record HttpResponse : Type := mkHttpResponse {
  status : N;
  body : UploadResponse
}.

Record World : Type := mkWorld {
  fs : gmap string inode;
  console : list (level * string);
  sent : list HttpResponse;      (* responses written with res.status().json() *)
  uuid_source : nat -> string;   (* the values uuidv4() will return *)
  uuid_drawn : nat;
  clock : N                      (* Date.now() *)
}.

(** A process state: the shared world plus the local variables of the
    running handler. *)
Record State (L : Type) : Type := mkState {
  world : World;
  locals : L
}.
Arguments mkState {L} world locals.
Arguments world {L} s.
Arguments locals {L} s.

Definition set_fs (f : gmap string inode) (w : World) : World :=
  mkWorld f (console w) (sent w) (uuid_source w) (uuid_drawn w) (clock w).

Definition add_console (e : level * string) (w : World) : World :=
  mkWorld (fs w) (console w ++ [e]) (sent w) (uuid_source w) (uuid_drawn w) (clock w).

Definition add_sent (r : HttpResponse) (w : World) : World :=
  mkWorld (fs w) (console w) (sent w ++ [r]) (uuid_source w) (uuid_drawn w) (clock w).

Definition draw_uuid (w : World) : World :=
  mkWorld (fs w) (console w) (sent w) (uuid_source w) (S (uuid_drawn w)) (clock w).

Definition on_world {L} (f : World -> World) (s : State L) : State L :=
  mkState (f (world s)) (locals s).

Definition on_locals {L} (f : L -> L) (s : State L) : State L :=
  mkState (world s) (f (locals s)).

(** *** Node's [fs] module *)

Module NodeFs.

Definition read (f : gmap string inode) (p : string) : exn + list byte :=
  match f !! p with
  | None => inl (Error ("ENOENT: no such file or directory, open '" ++ p ++ "'"))
  | Some n =>
      if readable n then inr (content n)
      else inl (Error ("EACCES: permission denied, open '" ++ p ++ "'"))
  end.

Definition unlink (f : gmap string inode) (p : string) : exn + gmap string inode :=
  match f !! p with
  | None => inl (Error ("ENOENT: no such file or directory, unlink '" ++ p ++ "'"))
  | Some n =>
      if removable n then inr (delete p f)
      else inl (Error ("EPERM: operation not permitted, unlink '" ++ p ++ "'"))
  end.

Definition readFileSync {L} (p : string) : M (State L) (list byte) :=
  fun s =>
    match read (fs (world s)) p with
    | inr b => (s, Ret b)
    | inl e => (s, Throw e)
    end.

Definition unlinkSync {L} (p : string) : M (State L) unit :=
  fun s =>
    match unlink (fs (world s)) p with
    | inr f' => (on_world (set_fs f') s, Ret tt)
    | inl e => (s, Throw e)
    end.

Definition writeFile {L} (p : string) (b : list byte) : M (State L) unit :=
  modify (on_world (fun w => set_fs (<[p := mkInode b true true]> (fs w)) w)).

End NodeFs.

Definition console_warn {L} (msg : string) : M (State L) unit :=
  modify (on_world (add_console (Warn, msg))).

Definition console_error {L} (msg : string) : M (State L) unit :=
  modify (on_world (add_console (Err, msg))).

(** [res.status(code).json(body)]. *)
Definition res_status_json {L} (code : N) (b : UploadResponse) : M (State L) unit :=
  modify (on_world (add_sent (mkHttpResponse code b))).

(** [uuidv4()]: the next value of the entropy source. *)
Definition uuidv4 {L} : M (State L) string :=
  fun s => (on_world draw_uuid s, Ret (uuid_source (world s) (uuid_drawn (world s)))).

(** [Date.now()]. *)
Definition Date_now {L} : M (State L) N :=
  fun s => (s, Ret (clock (world s))).

(** [error instanceof Error ? error.message : 'Unknown error']: every thrown
    value here is an [Error]. *)
Definition error_detail (e : exn) : string := exn_message e.

(** ** The storage backend ([be/src/index.ts]) *)

Module Backend.

(** [Express.Multer.File], as handed to the route by multer. *)
Record File : Type := mkFile {
  fieldname : string;
  originalname : string;
  mimetype : string;
  filename : string;
  path : string;
  size : N
}.

(** A file part of the incoming multipart body, before multer stores it. *)
Record Part : Type := mkPart {
  part_fieldname : string;
  part_originalname : string;
  part_mimetype : string;
  part_bytes : list byte
}.

Record Request : Type := mkRequest {
  protocol : string;
  host : option string;          (* req.get('host') *)
  parts : list Part
}.

(** Local variables of the upload route. *)
Record Locals : Type := mkLocals {
  validFiles : list File;
  invalidFiles : list string
}.

(** State after a file was pushed on [validFiles]. *)
Definition accepted_in (file : File) (s : State Locals) : State Locals :=
  on_locals (fun l => mkLocals (validFiles l ++ [file]) (invalidFiles l)) s.

(** State after a reason was pushed on [invalidFiles]. *)
Definition rejected_in (reason : string) (s : State Locals) : State Locals :=
  on_locals (fun l => mkLocals (validFiles l) (invalidFiles l ++ [reason])) s.

Definition push_valid (f : File) : M (State Locals) unit := modify (accepted_in f).

Definition push_invalid (r : string) : M (State Locals) unit := modify (rejected_in r).

(** *** Signature check *)

Definition PNG_SIGNATURE : list byte :=
  [x89; x50; x4e; x47; x0d; x0a; x1a; x0a].

(** [Buffer.prototype.equals]: same length and same bytes. *)
Fixpoint Buffer_equals (a b : list byte) : bool :=
  match a, b with
  | [], [] => true
  | x :: a', y :: b' => Byte.eqb x y && Buffer_equals a' b'
  | _, _ => false
  end.

(** [Buffer.prototype.subarray(start, end)]. *)
Definition subarray (start stop : nat) (buffer : list byte) : list byte :=
  take (stop - start) (drop start buffer).

Definition isPngByBytes (buffer : list byte) : bool :=
  if (length buffer <? length PNG_SIGNATURE)%nat then false
  else Buffer_equals (subarray 0 (length PNG_SIGNATURE) buffer) PNG_SIGNATURE.

(** *** Ingress filter *)

Definition fileFilter (file_mimetype : string) : M (State Locals) bool :=
  if Js.startsWith file_mimetype "image/" then ret true
  else throw (Error "Only image files are allowed!").

Definition limits_fileSize : N := 5 * 1024 * 1024.

(** *** The per-file validation loop of [POST /api/upload] *)

Definition validate_file (file : File) : M (State Locals) unit :=
  try_catch
    (let* buffer := NodeFs.readFileSync (path file) in
     if String.eqb (mimetype file) "image/png" then
       if isPngByBytes buffer then push_valid file
       else
         (push_invalid (originalname file ++ " - Invalid PNG signature") ;;;
          NodeFs.unlinkSync (path file))
     else push_valid file)
    (fun fileError =>
       console_error ("Error validating file " ++ originalname file ++ ": "
                      ++ exn_message fileError) ;;;
       push_invalid (originalname file ++ " - Validation error") ;;;
       try_catch
         (NodeFs.unlinkSync (path file))
         (fun cleanupError =>
            console_warn ("Failed to cleanup invalid file: " ++ path file))).

Definition validation_loop (files : list File) : M (State Locals) unit :=
  for_of files validate_file.

(** *** Response construction *)

(** The descriptor built for an accepted file, given its fresh id. *)
Definition stored_as (proto : string) (hst : option string) (id : string)
    (file : File) : StoredFile :=
  mkStoredFile id (originalname file) (filename file) (path file)
    (size file) (mimetype file)
    (proto ++ "://" ++ Js.interp hst ++ "/uploads/" ++ filename file).

Definition describe (proto : string) (hst : option string) (file : File)
  : M (State Locals) StoredFile :=
  let* id := uuidv4 in
  ret (stored_as proto hst id file).

Definition success_message (valid : list File) (invalid : list string) : string :=
  "Successfully uploaded " ++ Js.numToString (N.of_nat (length valid))
  ++ " valid file(s)"
  ++ (if (0 <? length invalid)%nat
      then ". " ++ Js.numToString (N.of_nat (length invalid))
           ++ " file(s) were rejected: " ++ Js.join ", " invalid
      else "").

(** The route handler; [req_files] is [req.files], [None] when undefined. *)
Definition upload_route (proto : string) (hst : option string)
    (req_files : option (list File)) : M (State Locals) unit :=
  try_catch
    (match req_files with
     | None =>
         res_status_json 400 (mkUploadResponse false "No files uploaded" None None)
     | Some files =>
         if (length files =? 0)%nat then
           res_status_json 400 (mkUploadResponse false "No files uploaded" None None)
         else
           modify (on_locals (fun _ => mkLocals [] [])) ;;;
           validation_loop files ;;;
           let* s := get in
           let valid := validFiles (locals s) in
           let invalid := invalidFiles (locals s) in
           if (length valid =? 0)%nat then
             res_status_json 400
               (mkUploadResponse false
                  "No valid files uploaded. All files failed validation."
                  None (Some (Js.join ", " invalid)))
           else
             let* fileData := map_m (describe proto hst) valid in
             res_status_json 200
               (mkUploadResponse true (success_message valid invalid)
                  (Some fileData) None)
     end)
    (fun err =>
       console_error ("Upload error: " ++ exn_message err) ;;;
       res_status_json 500
         (mkUploadResponse false "Internal server error" None
            (Some (error_detail err)))).

(** *** Error handling middleware *)

Definition errorMiddleware (err : exn) : M (State Locals) unit :=
  match err with
  | MulterError code _ =>
      if String.eqb code "LIMIT_FILE_SIZE" then
        res_status_json 400
          (mkUploadResponse false "File too large. Maximum size is 5MB." None None)
      else
        res_status_json 500
          (mkUploadResponse false
             (Js.or_else (Some (exn_message err)) "Internal server error") None None)
  | Error _ =>
      res_status_json 500
        (mkUploadResponse false
           (Js.or_else (Some (exn_message err)) "Internal server error") None None)
  end.

(** *** Storage and the multer stage *)

Section Storage.

(** [path.extname] (Node's [path] module) and the uploads directory
    ([path.join(__dirname, 'uploads')]) are parameters. *)
Variable extname : string -> string.
Variable uploadsDir : string.

(** The [filename] callback of [multer.diskStorage]. *)
Definition uniqueName (uuid : string) (now : N) (original : string) : string :=
  uuid ++ "-" ++ Js.numToString now ++ extname original.

Definition storage_filename (p : Part) : M (State Locals) string :=
  let* uuid := uuidv4 in
  let* now := Date_now in
  ret (uniqueName uuid now (part_originalname p)).

(** Model of multer's [upload.array('images', 10)] (third-party library,
    from its documented behaviour): parts are taken in order; a part of
    another field, or one beyond [maxCount], raises [LIMIT_UNEXPECTED_FILE];
    then the [fileFilter] of the configuration runs; then the part is stored
    under the name given by the [filename] callback, and a part larger than
    [limits.fileSize] raises [LIMIT_FILE_SIZE].  [stored] accumulates
    [req.files]. *)
Fixpoint multer_receive (filesLeft : nat) (ps : list Part) (stored : list File)
  : M (State Locals) (list File + (list File * exn)) :=
  match ps with
  | [] => ret (inl stored)
  | p :: rest =>
      if negb (String.eqb (part_fieldname p) "images") || (filesLeft =? 0)%nat then
        ret (inr (stored, MulterError "LIMIT_UNEXPECTED_FILE" "Unexpected field"))
      else
        try_catch
          (fileFilter (part_mimetype p) ;;;
           let* name := storage_filename p in
           if (limits_fileSize <? N.of_nat (length (part_bytes p)))%N then
             throw (MulterError "LIMIT_FILE_SIZE" "File too large")
           else
             let file := mkFile (part_fieldname p) (part_originalname p)
                           (part_mimetype p) name (uploadsDir ++ "/" ++ name)
                           (N.of_nat (length (part_bytes p))) in
             NodeFs.writeFile (path file) (part_bytes p) ;;;
             multer_receive (filesLeft - 1) rest (stored ++ [file]))
          (fun e => ret (inr (stored, e)))
  end.

(** On an error multer removes what it had stored and passes the error on. *)
Definition upload_array (ps : list Part) : M (State Locals) (list File) :=
  let* r := multer_receive 10 ps [] in
  match r with
  | inl stored => ret stored
  | inr (stored, e) =>
      for_of stored
        (fun f => try_catch (NodeFs.unlinkSync (path f)) (fun _ => ret tt)) ;;;
      throw e
  end.

(** The Express pipeline of [POST /api/upload]: multer, then the route; an
    error of either goes to the error handling middleware. *)
Definition handle_upload (req : Request) : M (State Locals) unit :=
  try_catch
    (let* stored := upload_array (parts req) in
     upload_route (protocol req) (host req) (Some stored))
    errorMiddleware.

End Storage.

End Backend.

(** ** The edge process: multipart capture, relay assembly, cleanup *)

Module Edge.

(** [formidable.File]: the fields the middleware reads. *)
Record File : Type := mkFile {
  filepath : option string;
  originalFilename : option string;
  mimetype : option string
}.

(** The values of formidable's [fields] and [files] objects: an array, or a
    single (possibly undefined) value. *)
Inductive FieldValue : Type :=
| FieldArray (vals : list string)
| FieldSingle (val : option string).

Inductive FilesValue : Type :=
| FileArray (arr : list (option File))
| FileSingle (one : option File).

(** Both objects are kept as their [Object.entries] lists. *)
Abbreviation Fields := (list (string * FieldValue)).
Abbreviation Files := (list (string * FilesValue)).

(** What is appended to the outgoing [FormData]: the name, the content
    source, and the filename and content type as the code passes them to
    [append] (stream variant) or to [new Blob] and [append] (buffer
    variant). *)
Inductive Source : Type :=
| ReadStream (path : string)       (* fs.createReadStream(path), read when sent *)
| BlobOf (bytes : list byte).      (* new Blob([buffer]) *)

Inductive Entry : Type :=
| TextEntry (name value : string)
| FileEntry (name : string) (src : Source) (fname : string) (contentType : string).

(** The request object: the method, what [form.parse(req)] yields (formidable
    is a third-party library; its result is an input of the model and the
    temp files it wrote are in the file system), and the properties the
    middleware attaches. *)
Record Request : Type := mkRequest {
  method : string;
  parse_result : exn + (Fields * Files)
}.

Record Locals : Type := mkLocals {
  formData : list Entry;
  req_body : option (list Entry);
  req_parsedFiles : option (list File);
  req_parsedFields : option Fields
}.

Definition fresh : Locals := mkLocals [] None None None.

Definition formData_append (e : Entry) : M (State Locals) unit :=
  modify (on_locals (fun l =>
    mkLocals (formData l ++ [e]) (req_body l) (req_parsedFiles l) (req_parsedFields l))).

Definition attach (fields : Fields) (files : list File) : M (State Locals) unit :=
  modify (on_locals (fun l =>
    mkLocals (formData l) (Some (formData l)) (Some files) (Some fields))).

Definition form_parse (req : Request) : M (State Locals) (Fields * Files) :=
  match parse_result req with
  | inl e => throw e
  | inr r => ret r
  end.

(** [xs.forEach((x, index) => body x index)], from [index] on. *)
Fixpoint forEach_from {A} (index : nat) (xs : list A)
    (body : A -> nat -> M (State Locals) unit) : M (State Locals) unit :=
  match xs with
  | [] => ret tt
  | x :: rest => body x index ;;; forEach_from (S index) rest body
  end.

Definition forEach {A} (xs : list A) (body : A -> nat -> M (State Locals) unit)
  : M (State Locals) unit :=
  forEach_from 0 xs body.

(** *** Cleanup Guarantor *)

Definition cleanupTempFiles (reason : string) (tempFiles : list File)
  : M (State Locals) unit :=
  for_of tempFiles (fun file =>
    match filepath file with
    | Some p =>
        if Js.truthy (filepath file) then
          try_catch
            (NodeFs.unlinkSync p)
            (fun cleanupError =>
               console_warn ("⚠️ Failed to cleanup temp file on error: " ++ p))
        else ret tt
    | None => ret tt
    end).

(** *** Relay Assembler *)

Definition append_field (kv : string * FieldValue) : M (State Locals) unit :=
  match kv with
  | (key, FieldArray vals) =>
      for_of vals (fun val => formData_append (TextEntry key val))
  | (key, FieldSingle (Some val)) => formData_append (TextEntry key val)
  | (key, FieldSingle None) => ret tt
  end.

(** [Array.isArray(fileArray) ? fileArray : [fileArray]]. *)
Definition fileList (fileArray : FilesValue) : list (option File) :=
  match fileArray with
  | FileArray arr => arr
  | FileSingle one => [one]
  end.

Definition part_filename (file : File) (index : nat) : string :=
  Js.or_else (originalFilename file) ("file-" ++ Js.numToString (N.of_nat index)).

Definition part_contentType (file : File) : string :=
  Js.or_else (mimetype file) "application/octet-stream".

(** Stream variant ([fe/src/lib/api-middleware/withMultiplePathForm.ts]). *)
Definition append_file_stream (fieldName : string) (file : option File) (index : nat)
  : M (State Locals) unit :=
  match file with
  | Some f =>
      match filepath f with
      | Some p =>
          if Js.truthy (filepath f) then
            let fileStream := ReadStream p in
            formData_append
              (FileEntry fieldName fileStream (part_filename f index) (part_contentType f))
          else ret tt
      | None => ret tt
      end
  | None => ret tt
  end.

(** Buffer variant (the second copy of the middleware). *)
Definition append_file_blob (fieldName : string) (file : option File) (index : nat)
  : M (State Locals) unit :=
  match file with
  | Some f =>
      match filepath f with
      | Some p =>
          if Js.truthy (filepath f) then
            let* buffer := NodeFs.readFileSync p in
            let blob := BlobOf buffer in
            formData_append
              (FileEntry fieldName blob (part_filename f index) (part_contentType f))
          else ret tt
      | None => ret tt
      end
  | None => ret tt
  end.

(** [Object.values(files).flat().filter(Boolean)]. *)
Definition all_files (files : Files) : list File :=
  omap id (flat_map (fun kv => fileList (snd kv)) files).

(** The two ways a file is appended. *)
Inductive variant : Type := Stream | Blob.

Definition append_file (v : variant)
  : string -> option File -> nat -> M (State Locals) unit :=
  match v with
  | Stream => append_file_stream
  | Blob => append_file_blob
  end.

(** The assembly block of the middleware: [new FormData()], then the two
    [Object.entries(...)] loops. *)
Definition assemble (v : variant) (fields : Fields) (files : Files)
  : M (State Locals) unit :=
  modify (on_locals (fun l =>
    mkLocals [] (req_body l) (req_parsedFiles l) (req_parsedFields l))) ;;;
  for_of fields append_field ;;;
  for_of files (fun kv => forEach (fileList (snd kv)) (append_file v (fst kv))).

(** The label of the [console.error] in the middleware's [catch]; the two
    copies spell it differently. *)
Definition catch_label (v : variant) : string :=
  match v with
  | Stream => "❌ FormData middleware error: "
  | Blob => "❌ FormData middleware erroxxxxxxxr: "
  end.

(** The middleware, in either variant. *)
Definition createFormDataMiddleware (v : variant)
    (req : Request) (next : M (State Locals) unit) : M (State Locals) unit :=
  try_catch
    (let* parsed := form_parse req in
     let fields := fst parsed in
     let files := snd parsed in
     assemble v fields files ;;;
     attach fields (all_files files) ;;;
     next ;;;
     let* s := get in
     cleanupTempFiles "success" (default [] (req_parsedFiles (locals s))))
    (fun err =>
       console_error (catch_label v ++ exn_message err) ;;;
       res_status_json 500
         (mkUploadResponse false "Failed to process form data" None
            (Some (error_detail err)))).

Definition createFormDataMiddleware_stream := createFormDataMiddleware Stream.

Definition createFormDataMiddleware_blob := createFormDataMiddleware Blob.

(** *** The outbound call and the relay handlers *)

(** A part as it travels to the backend. *)
Inductive Wire : Type :=
| WireText (name value : string)
| WireFile (name fname contentType : string) (bytes : list byte).

(** The body of the outbound request: multipart parts, a plain text, or
    none. *)
Inductive Body : Type :=
| Multipart (parts : list Wire)
| RawText (text : string)
| NoBody.

Inductive FetchResult : Type :=
| NetworkError (msg : string)
| HttpReply (code : N) (json : option UploadResponse).

(** Serialising an entry: a read stream is opened and read at this point. *)
Definition realize (f : gmap string inode) (e : Entry) : exn + Wire :=
  match e with
  | TextEntry name value => inr (WireText name value)
  | FileEntry name (BlobOf b) fname ct => inr (WireFile name fname ct b)
  | FileEntry name (ReadStream p) fname ct =>
      match NodeFs.read f p with
      | inr b => inr (WireFile name fname ct b)
      | inl e => inl e
      end
  end.

Fixpoint realize_all (f : gmap string inode) (es : list Entry) : exn + list Wire :=
  match es with
  | [] => inr []
  | e :: rest =>
      match realize f e with
      | inl x => inl x
      | inr w =>
          match realize_all f rest with
          | inl x => inl x
          | inr ws => inr (w :: ws)
          end
      end
  end.

(** An entry of a global [FormData] as a part.  That class holds strings and
    blobs only (the buffer copy appends nothing else); any other value would
    have been stored as its string conversion. *)
Definition blob_part (e : Entry) : Wire :=
  match e with
  | TextEntry name value => WireText name value
  | FileEntry name (BlobOf b) fname ct => WireFile name fname ct b
  | FileEntry name (ReadStream _) _ _ => WireText name "[object Object]"
  end.

(** What the global [fetch] makes of the [body] option it is given.  It
    serialises a global [FormData] (built by the buffer copy of the
    middleware); an object of the form-data package (built by the stream
    copy) is not one of the body types it knows and is sent as its string
    conversion, its streams never being read. *)
Definition body_init (v : variant) (body : option (list Entry)) : Body :=
  match body with
  | None => NoBody
  | Some payload =>
      match v with
      | Stream => RawText "[object FormData]"
      | Blob => Multipart (map blob_part payload)
      end
  end.

Section Relay.

(** The environment: the [BACKEND_URL] setting and whatever answers at a URL
    ([fetch] is a library call; [remote] is its result for a body). *)
Variable BACKEND_URL : option string.
Variable remote : string -> Body -> FetchResult.

Definition backendUrl : string := Js.or_else BACKEND_URL "http://localhost:8080".

(** How the promise of a request that was sent settles: it rejects on a
    network failure, and resolves with status and body otherwise. *)
Definition settle (reply : FetchResult)
  : M (State Locals) (N * option UploadResponse) :=
  match reply with
  | NetworkError msg => throw (Error msg)
  | HttpReply code json => ret (code, json)
  end.

(** [await fetch(url, { method: 'POST', body, headers })] of node-fetch with
    a form of the form-data package: the form is piped into the request,
    each read stream being opened when its turn comes.  A stream that cannot
    be opened fails after the call was made; the request is then never
    completed and the promise never settles. *)
Definition node_fetch (url : string) (payload : list Entry)
  : M (State Locals) (N * option UploadResponse) :=
  fun s =>
    match realize_all (fs (world s)) payload with
    | inl _ => (s, Pending)
    | inr wire => settle (remote url (Multipart wire)) s
    end.

(** [await fetch(url, { method: 'POST', body })] of the global [fetch]. *)
Definition global_fetch (url : string) (body : Body)
  : M (State Locals) (N * option UploadResponse) :=
  settle (remote url body).

(** [response.ok]. *)
Definition response_ok (code : N) : bool := ((200 <=? code) && (code <=? 299))%N.

(** [await response.json()]. *)
Definition response_json (json : option UploadResponse)
  : M (State Locals) UploadResponse :=
  match json with
  | Some r => ret r
  | None => throw (Error "Unexpected token in JSON")
  end.

(** The callback both handlers pass as [next], up to their own [try] and to
    the [fetch] they call. *)
Definition relay_call (do_fetch : M (State Locals) (N * option UploadResponse))
  : M (State Locals) unit :=
  let* response := do_fetch in
  if negb (response_ok (fst response)) then
    throw (Error ("Backend responded with status: " ++ Js.numToString (fst response)))
  else
    let* result := response_json (snd response) in
    res_status_json 200 result.

Definition internal_error (err : exn) : M (State Locals) unit :=
  console_error ("Upload API error: " ++ exn_message err) ;;;
  res_status_json 500
    (mkUploadResponse false "Internal server error" None (Some (error_detail err))).

Definition method_not_allowed : M (State Locals) unit :=
  res_status_json 405 (mkUploadResponse false "Method not allowed" None None).

Section Handlers.

(** Either copy of the middleware can sit behind the import; the copy decides
    the class of the form in [req.body]. *)
Variable v : variant.

(** [req.body.getHeaders()]: a method of the form-data package's class; the
    global [FormData] has none, and the call is a [TypeError]. *)
Definition getHeaders : M (State Locals) unit :=
  match v with
  | Stream => ret tt
  | Blob => throw (Error "req.body.getHeaders is not a function")
  end.

(** The handler that awaits the middleware and lets [next] throw
    (node-fetch, [req.body.getHeaders()]).  The options of the call, and so
    the headers, are evaluated before [fetch] is entered. *)
Definition handler_awaiting (req : Request) : M (State Locals) unit :=
  if negb (String.eqb (method req) "POST") then method_not_allowed
  else
    try_catch
      (createFormDataMiddleware v req
         (let* s := get in
          match req_body (locals s) with
          | Some payload =>
              getHeaders ;;;
              relay_call (node_fetch (backendUrl ++ "/api/upload") payload)
          | None =>
              throw (Error "Cannot read properties of undefined (reading 'getHeaders')")
          end))
      internal_error.

(** The handler whose callback has its own [try]/[catch] (global [fetch],
    no headers). *)
Definition handler_guarded (req : Request) : M (State Locals) unit :=
  if negb (String.eqb (method req) "POST") then method_not_allowed
  else
    createFormDataMiddleware v req
      (try_catch
         (let* s := get in
          relay_call
            (global_fetch (backendUrl ++ "/api/upload")
               (body_init v (req_body (locals s)))))
         internal_error).

End Handlers.

End Relay.

End Edge.

(** ** The gallery routes of the backend ([GET /api/images],
    [DELETE /api/images/:filename]) *)

Module Gallery.

(** One entry of the listing. *)
Record ImageInfo : Type := mkImageInfo {
  im_id : string;
  im_filename : string;
  im_url : string;
  im_size : N;
  im_uploadDate : N
}.

(** The two JSON bodies of the listing route: [{success: true, images}] and
    [{success: false, message, error}]. *)
Inductive GalleryBody : Type :=
| Images (images : list ImageInfo)
| Failure (message : string) (error : string).

Record GalleryResponse : Type := mkGalleryResponse {
  g_status : N;
  g_body : GalleryBody
}.

(** [String.prototype.toLowerCase] on the letters A-Z; other characters are
    kept.  The six extensions it is compared with are lower-case ASCII. *)
Definition lower_char (c : ascii) : ascii :=
  let n := nat_of_ascii c in
  if ((65 <=? n) && (n <=? 90))%nat then ascii_of_nat (n + 32) else c.

Fixpoint toLowerCase (s : string) : string :=
  match s with
  | EmptyString => EmptyString
  | String c rest => String (lower_char c) (toLowerCase rest)
  end.

Definition image_extensions : list string :=
  [".jpg"; ".jpeg"; ".png"; ".gif"; ".bmp"; ".webp"].

(** [Array.prototype.includes] on strings. *)
Definition includes (l : list string) (x : string) : bool :=
  existsb (fun y => String.eqb y x) l.

Section Routes.

(** [path.join] and [path.extname] (Node's [path] module), the directory
    listing [fs.readdirSync] yields for a file system, and the birth time
    [fs.statSync] reports for a path are parameters: the inode model keeps
    neither directories nor timestamps. *)
Variable path_join : string -> string -> string.
Variable extname : string -> string.
Variable readdir : gmap string inode -> string -> exn + list string.
Variable birthtime : string -> N.
Variable uploadsDir : string.

Definition existsSync {L} (p : string) : M (State L) bool :=
  fun s =>
    (s, Ret (match fs (world s) !! p with Some _ => true | None => false end)).

Definition readdirSync {L} (dir : string) : M (State L) (list string) :=
  fun s =>
    match readdir (fs (world s)) dir with
    | inr names => (s, Ret names)
    | inl e => (s, Throw e)
    end.

(** [fs.statSync(p)]: the size and the birth time, or ENOENT. *)
Definition statSync {L} (p : string) : M (State L) (N * N) :=
  fun s =>
    match fs (world s) !! p with
    | Some n => (s, Ret (N.of_nat (length (content n)), birthtime p))
    | None =>
        (s, Throw (Error ("ENOENT: no such file or directory, stat '" ++ p ++ "'")))
    end.

Definition has_image_extension (file : string) : bool :=
  let ext := toLowerCase (extname file) in
  includes image_extensions ext.

(** The listing route writes its answer into the handler's own state. *)
Definition gallery_json (code : N) (b : GalleryBody)
  : M (State (list GalleryResponse)) unit :=
  modify (on_locals (fun sent_here => (sent_here ++ [mkGalleryResponse code b])%list)).

Definition image_info (proto : string) (hst : option string) (file : string)
  : M (State (list GalleryResponse)) ImageInfo :=
  let filePath := path_join uploadsDir file in
  let* stats := statSync filePath in
  ret (mkImageInfo file file
         (proto ++ "://" ++ Js.interp hst ++ "/uploads/" ++ file)
         (fst stats) (snd stats)).

(** [GET /api/images]. *)
Definition list_images (proto : string) (hst : option string)
  : M (State (list GalleryResponse)) unit :=
  try_catch
    (let* files := readdirSync uploadsDir in
     let* imageFiles :=
       map_m (image_info proto hst) (List.filter has_image_extension files) in
     gallery_json 200 (Images imageFiles))
    (fun err =>
       console_error ("Error fetching images: " ++ exn_message err) ;;;
       gallery_json 500 (Failure "Error fetching images" (error_detail err))).

(** [DELETE /api/images/:filename]; [filename] is [req.params.filename]. *)
Definition delete_image {L} (filename : string) : M (State L) unit :=
  try_catch
    (let filePath := path_join uploadsDir filename in
     let* found := existsSync filePath in
     if negb found then
       res_status_json 404 (mkUploadResponse false "File not found" None None)
     else
       NodeFs.unlinkSync filePath ;;;
       res_status_json 200
         (mkUploadResponse true "File deleted successfully" None None))
    (fun err =>
       console_error ("Delete error: " ++ exn_message err) ;;;
       res_status_json 500
         (mkUploadResponse false "Error deleting file" None
            (Some (error_detail err)))).

(** The entry the listing shows for a name that is on disk. *)
Definition info_of (proto : string) (hst : option string)
    (f : gmap string inode) (file : string) : option ImageInfo :=
  match f !! path_join uploadsDir file with
  | Some n =>
      Some (mkImageInfo file file
              (proto ++ "://" ++ Js.interp hst ++ "/uploads/" ++ file)
              (N.of_nat (length (content n)))
              (birthtime (path_join uploadsDir file)))
  | None => None
  end.

End Routes.

End Gallery.

(** ** Vocabulary of the statements *)

Module Verdict.
Import Backend.

(** Whether a file passes validation against a file system: its content can
    be read and, when it is declared "image/png", carries the signature. *)
Definition passes (f : gmap string inode) (file : File) : bool :=
  match NodeFs.read f (path file) with
  | inr buffer =>
      if String.eqb (mimetype file) "image/png" then isPngByBytes buffer else true
  | inl _ => false
  end.

(** The rejection reasons a file contributes ([[]] when it passes). *)
Definition reasons (f : gmap string inode) (file : File) : list string :=
  match NodeFs.read f (path file) with
  | inr buffer =>
      if String.eqb (mimetype file) "image/png" && negb (isPngByBytes buffer) then
        match NodeFs.unlink f (path file) with
        | inr _ => [originalname file ++ " - Invalid PNG signature"]
        | inl _ => [originalname file ++ " - Invalid PNG signature";
                    originalname file ++ " - Validation error"]
        end
      else []
  | inl _ => [originalname file ++ " - Validation error"]
  end.

(** The descriptors of a list of accepted files, ids drawn from [n] on. *)
Fixpoint descriptors (proto : string) (hst : option string)
    (ids : nat -> string) (n : nat) (accepted : list File) : list StoredFile :=
  match accepted with
  | [] => []
  | file :: rest =>
      stored_as proto hst (ids n) file :: descriptors proto hst ids (S n) rest
  end.

(** The admission caps of the multer stage, in the order a part meets them:
    field 'images' with at most 10 files, declared type "image/...", at most
    [limits.fileSize] bytes. *)
Inductive violation : Type :=
| UnexpectedFile     (* other field, or an 11th file *)
| NotAnImage
| FileTooLarge.

Definition part_violation (filesLeft : nat) (p : Part) : option violation :=
  if negb (String.eqb (part_fieldname p) "images") || (filesLeft =? 0)%nat
  then Some UnexpectedFile
  else if negb (Js.startsWith (part_mimetype p) "image/") then Some NotAnImage
  else if (limits_fileSize <? N.of_nat (length (part_bytes p)))%N
       then Some FileTooLarge
  else None.

(** The first cap violated by a multipart body, if any. *)
Fixpoint first_violation (filesLeft : nat) (ps : list Part) : option violation :=
  match ps with
  | [] => None
  | p :: rest =>
      match part_violation filesLeft p with
      | Some v => Some v
      | None => first_violation (filesLeft - 1) rest
      end
  end.

(** The error raised for a violation. *)
Definition error_of (v : violation) : exn :=
  match v with
  | UnexpectedFile => MulterError "LIMIT_UNEXPECTED_FILE" "Unexpected field"
  | NotAnImage => Error "Only image files are allowed!"
  | FileTooLarge => MulterError "LIMIT_FILE_SIZE" "File too large"
  end.

(** The response the error handling middleware gives for it. *)
Definition response_of (v : violation) : HttpResponse :=
  match v with
  | UnexpectedFile =>
      mkHttpResponse 500 (mkUploadResponse false "Unexpected field" None None)
  | NotAnImage =>
      mkHttpResponse 500
        (mkUploadResponse false "Only image files are allowed!" None None)
  | FileTooLarge =>
      mkHttpResponse 400
        (mkUploadResponse false "File too large. Maximum size is 5MB." None None)
  end.

(** A body breaks a cap: more than 10 files, a file above 5 MiB, or a
    declared type outside "image/". *)
Definition breaks_a_cap (ps : list Part) : Prop :=
  (10 < length ps)%nat
  \/ Exists (fun p => (limits_fileSize < N.of_nat (length (part_bytes p)))%N) ps
  \/ Exists (fun p => Js.startsWith (part_mimetype p) "image/" = false) ps.

End Verdict.

Module Payload.
Import Edge.

(** The text entries one field contributes. *)
Definition field_entries (kv : string * FieldValue) : list Entry :=
  match kv with
  | (key, FieldArray vals) => map (TextEntry key) vals
  | (key, FieldSingle (Some val)) => [TextEntry key val]
  | (key, FieldSingle None) => []
  end.

(** The entry the file at [index] of a field's list contributes, if any;
    [src] says how the content is attached. *)
Definition file_entry (src : string -> Source) (fieldName : string)
    (index : nat) (file : option File) : option Entry :=
  match file with
  | Some f =>
      match filepath f with
      | Some p =>
          if Js.truthy (Some p)
          then Some (FileEntry fieldName (src p) (part_filename f index)
                       (part_contentType f))
          else None
      | None => None
      end
  | None => None
  end.

Fixpoint file_entries_from (src : string -> Source) (fieldName : string)
    (index : nat) (l : list (option File)) : list Entry :=
  match l with
  | [] => []
  | file :: rest =>
      match file_entry src fieldName index file with
      | Some e => e :: file_entries_from src fieldName (S index) rest
      | None => file_entries_from src fieldName (S index) rest
      end
  end.

Definition payload_of (src : string -> Source) (fields : Fields) (files : Files)
  : list Entry :=
  (flat_map field_entries fields
   ++ flat_map (fun kv => file_entries_from src (fst kv) 0 (fileList (snd kv))) files)%list.

(** The content a buffer read finds at a path (empty when unreadable). *)
Definition blob_at (f : gmap string inode) (p : string) : Source :=
  match NodeFs.read f p with
  | inr b => BlobOf b
  | inl _ => BlobOf []
  end.

(** A file part that will be appended has readable content. *)
Definition readable_part (f : gmap string inode) (file : option File) : Prop :=
  match file with
  | Some fl =>
      match filepath fl with
      | Some p => Js.truthy (Some p) = true -> exists b, NodeFs.read f p = inr b
      | None => True
      end
  | None => True
  end.

Definition all_parts_readable (f : gmap string inode) (files : Files) : Prop :=
  Forall (fun kv => Forall (readable_part f) (fileList (snd kv))) files.

(** The state after [es] were appended to the form, and after
    [new FormData()]. *)
Definition appended (es : list Entry) (s : State Locals) : State Locals :=
  on_locals (fun l =>
    mkLocals (formData l ++ es) (req_body l) (req_parsedFiles l)
      (req_parsedFields l)) s.

Definition reset (s : State Locals) : State Locals :=
  on_locals (fun l =>
    mkLocals [] (req_body l) (req_parsedFiles l) (req_parsedFields l)) s.

(** The temp paths the relay reads: those of the file parts it appends. *)
Definition temp_paths (files : Files) : list string :=
  omap (fun file => if Js.truthy (filepath file) then filepath file else None)
       (all_files files).

(** Two entries that travel as the same part. *)
Definition same_on_wire (f : gmap string inode) (e1 e2 : Entry) : Prop :=
  exists w, realize f e1 = inr w /\ realize f e2 = inr w.

(** The state after the middleware attached the form and the parsed data
    to the request. *)
Definition attached (fields : Fields) (files : Files) (s : State Locals)
  : State Locals :=
  on_locals (fun l =>
    mkLocals (formData l) (Some (formData l)) (Some (all_files files))
      (Some fields)) s.

(** The body of the 500 answer of the middleware, and of the handlers. *)
Definition middleware_failure (e : exn) : HttpResponse :=
  mkHttpResponse 500
    (mkUploadResponse false "Failed to process form data" None (Some (exn_message e))).

Definition handler_failure (e : exn) : HttpResponse :=
  mkHttpResponse 500
    (mkUploadResponse false "Internal server error" None (Some (exn_message e))).

(** A temp file that [unlinkSync] can remove (or that is already gone). *)
Definition deletable (f : gmap string inode) (p : string) : Prop :=
  match f !! p with
  | Some n => removable n = true
  | None => True
  end.

(** What the global [fetch] of the guarded handler sends for a form whose
    parts are [wire], by the copy of the middleware that built the form. *)
Definition guarded_body (v : variant) (wire : list Wire) : Body :=
  match v with
  | Stream => RawText "[object FormData]"
  | Blob => Multipart wire
  end.

(** The [TypeError] of [req.body.getHeaders()] on a global [FormData]. *)
Definition no_getHeaders : exn := Error "req.body.getHeaders is not a function".

(** What the edge answers when the outbound call yields [r]: the body of a
    2xx JSON reply, nothing otherwise. *)
Definition relayed (r : FetchResult) : option UploadResponse :=
  match r with
  | HttpReply code (Some reply) =>
      if ((200 <=? code) && (code <=? 299))%N then Some reply else None
  | HttpReply _ None => None
  | NetworkError _ => None
  end.

End Payload.

Module PayloadShape.
Import Edge.

Definition is_text_entry (e : Entry) : bool :=
  match e with
  | TextEntry _ _ => true
  | FileEntry _ _ _ _ => false
  end.

Definition is_file_entry (e : Entry) : bool := negb (is_text_entry e).

(** The file parts the assembler appends: those that are not null and have
    a temp path. *)
Definition appended_part (file : option File) : bool :=
  match file with
  | Some f => Js.truthy (filepath f)
  | None => false
  end.

Definition appended_parts (files : Files) : list (option File) :=
  List.filter appended_part (flat_map (fun kv => fileList (snd kv)) files).

(** A file part the buffer variant cannot read. *)
Definition unreadable_part (f : gmap string inode) (file : option File) : Prop :=
  match file with
  | Some fl =>
      match filepath fl with
      | Some p => Js.truthy (Some p) = true /\ exists e, NodeFs.read f p = inl e
      | None => False
      end
  | None => False
  end.

(** A temp path on which [unlinkSync] can do nothing more. *)
Definition settled (f : gmap string inode) (p : string) : Prop :=
  match f !! p with
  | Some n => removable n = false
  | None => True
  end.

(** The state the middleware's [catch] leaves: the error logged, 500
    answered. *)
Definition failed_in (v : variant) (e : exn) (s : State Locals) : State Locals :=
  on_world (add_sent (Payload.middleware_failure e))
    (on_world (add_console (Err, catch_label v ++ exn_message e)) s).

(** The state the handlers' own [catch] leaves. *)
Definition refused_in (e : exn) (s : State Locals) : State Locals :=
  on_world (add_sent (Payload.handler_failure e))
    (on_world (add_console (Err, "Upload API error: " ++ exn_message e)) s).


(** Some file part of the request cannot be read. *)
Definition some_part_unreadable (f : gmap string inode) (files : Files) : Prop :=
  Exists (fun kv => Exists (unreadable_part f) (fileList (snd kv))) files.

End PayloadShape.

Module Pipeline.
Import Backend.

(** A part whose content agrees with its declared type as far as the
    backend checks: a declared "image/png" carries the PNG signature. *)
Definition genuine (p : Part) : bool :=
  if String.eqb (part_mimetype p) "image/png" then isPngByBytes (part_bytes p)
  else true.

(** [uuidv4] as assumed of a UUID generator, for the draws from [lo] up to
    [hi]: values of one length, never the same value twice. *)
Definition like_uuids (ids : nat -> string) (lo hi : nat) : Prop :=
  forall i j, (lo <= i < hi)%nat -> (lo <= j < hi)%nat ->
    (ids i = ids j -> i = j)
    /\ String.length (ids i) = String.length (ids j).

(** The descriptor [d] reports the part [p], and the part's bytes are on
    disk [f] at the descriptor's path. *)
Definition reports (f : gmap string inode) (p : Part) (d : StoredFile) : Prop :=
  sf_originalName d = part_originalname p
  /\ sf_mimetype d = part_mimetype p
  /\ sf_size d = N.of_nat (length (part_bytes p))
  /\ f !! sf_path d = Some (mkInode (part_bytes p) true true).

(** The same, for the file record multer hands to the route. *)
Definition holds (f : gmap string inode) (p : Part) (file : File) : Prop :=
  originalname file = part_originalname p
  /\ mimetype file = part_mimetype p
  /\ size file = N.of_nat (length (part_bytes p))
  /\ f !! path file = Some (mkInode (part_bytes p) true true).

End Pipeline.

(** ** Sample inputs *)

Module Samples.

Definition png_bytes : list byte :=
  [x89; x50; x4e; x47; x0d; x0a; x1a; x0a; x00; x00; x00; x0d].

Definition zero_bytes : list byte :=
  [x00; x00; x00; x00; x00; x00; x00; x00].

Definition ids (n : nat) : string := "id" ++ Js.numToString (N.of_nat n).

Definition world_of (f : gmap string inode) : World :=
  mkWorld f [] [] ids 0 1730000000000.

Definition good_png : Backend.File :=
  Backend.mkFile "images" "cat.png" "image/png" "u1-17.png" "/srv/uploads/u1-17.png" 12.

Definition fake_png : Backend.File :=
  Backend.mkFile "images" "dog.png" "image/png" "u2-17.png" "/srv/uploads/u2-17.png" 8.

Definition disk : gmap string inode :=
  <["/srv/uploads/u1-17.png" := mkInode png_bytes true true]>
    (<["/srv/uploads/u2-17.png" := mkInode zero_bytes true true]> ∅).

(** The same disk with the second file protected against removal. *)
Definition locked_disk : gmap string inode :=
  <["/srv/uploads/u1-17.png" := mkInode png_bytes true true]>
    (<["/srv/uploads/u2-17.png" := mkInode zero_bytes true false]> ∅).

Definition backend_state (f : gmap string inode) : State Backend.Locals :=
  mkState (world_of f) (Backend.mkLocals [] []).

(** A stand-in for [path.extname] when running samples: the suffix from the
    last dot of the name on. *)
Fixpoint last_dot_suffix (name : string) : option string :=
  match name with
  | EmptyString => None
  | String c rest =>
      match last_dot_suffix rest with
      | Some ext => Some ext
      | None => if Ascii.eqb c "." then Some name else None
      end
  end.

Definition sample_extname (name : string) : string :=
  default "" (last_dot_suffix name).

Definition small_png (name : string) : Backend.Part :=
  Backend.mkPart "images" name "image/png" png_bytes.

Definition eleven_parts : list Backend.Part :=
  map small_png
    ["a0.png"; "a1.png"; "a2.png"; "a3.png"; "a4.png"; "a5.png"; "a6.png";
     "a7.png"; "a8.png"; "a9.png"; "a10.png"].

Definition a_text_file : Backend.Part :=
  Backend.mkPart "images" "notes.txt" "text/plain" zero_bytes.

(** An edge request: a title field and three file parts, one of them
    without a temp path, one without client filename and declared type. *)
Definition no_path : Edge.File :=
  Edge.mkFile None (Some "ghost.png") (Some "image/png").

Definition anonymous : Edge.File := Edge.mkFile (Some "/tmp/up1") None None.

Definition named : Edge.File :=
  Edge.mkFile (Some "/tmp/up2") (Some "cat.png") (Some "image/png").

Definition edge_fields : Edge.Fields := [("title", Edge.FieldArray ["upload image"])].

Definition edge_files : Edge.Files :=
  [("images", Edge.FileArray [Some no_path; Some anonymous; Some named])].

Definition tmp_disk : gmap string inode :=
  <["/tmp/up1" := mkInode zero_bytes true true]>
    (<["/tmp/up2" := mkInode png_bytes true true]> ∅).

Definition edge_state (f : gmap string inode) : State Edge.Locals :=
  mkState (world_of f) Edge.fresh.

Definition edge_request : Edge.Request :=
  Edge.mkRequest "POST" (inr (edge_fields, edge_files)).

(** A backend that rejects every upload with 400, and one that accepts. *)
Definition rejecting_backend (url : string) (sent_body : Edge.Body) : Edge.FetchResult :=
  Edge.HttpReply 400
    (Some (mkUploadResponse false
             "No valid files uploaded. All files failed validation." None
             (Some "cat.png - Invalid PNG signature"))).

Definition accepting_backend (url : string) (sent_body : Edge.Body) : Edge.FetchResult :=
  Edge.HttpReply 200
    (Some (mkUploadResponse true "Successfully uploaded 2 valid file(s)"
             (Some []) None)).

(** Stand-ins for [path.join] and a directory listing when running
    samples. *)
Definition sample_join (dir name : string) : string := dir ++ "/" ++ name.

Definition sample_readdir (f : gmap string inode) (dir : string)
  : exn + list string :=
  inr ["u1-17.PNG"; "notes.txt"; "u2-17.png"].

Definition gallery_disk : gmap string inode :=
  <["/srv/uploads/u1-17.PNG" := mkInode png_bytes true true]>
    (<["/srv/uploads/u2-17.png" := mkInode zero_bytes true true]> ∅).

Definition gallery_state (f : gmap string inode)
  : State (list Gallery.GalleryResponse) :=
  mkState (world_of f) [].

(** Two genuine parts with the same client filename. *)
Definition twin_parts : list Backend.Part := [small_png "cat.png"; small_png "cat.png"].

End Samples.

(** * Properties *)

(** ** Running the monad *)

Lemma bind_ret_l {S A B} (m : M S A) (k : A -> M S B) s s' a :
  m s = (s', Ret a) -> bind m k s = k a s'.
Proof. intros H. unfold bind. now rewrite H. Qed.

Lemma bind_throw_l {S A B} (m : M S A) (k : A -> M S B) s s' e :
  m s = (s', Throw e) -> bind m k s = (s', Throw e).
Proof. intros H. unfold bind. now rewrite H. Qed.

Lemma try_catch_ret {S A} (m : M S A) h s s' a :
  m s = (s', Ret a) -> try_catch m h s = (s', Ret a).
Proof. intros H. unfold try_catch. now rewrite H. Qed.

Lemma try_catch_throw {S A} (m : M S A) h s s' e :
  m s = (s', Throw e) -> try_catch m h s = h e s'.
Proof. intros H. unfold try_catch. now rewrite H. Qed.



(** ** Signature Validator *)

Section SignatureValidator.
Import Backend.

Lemma Buffer_equals_eq (a b : list byte) : Buffer_equals a b = true <-> a = b.
Proof.
  revert b. induction a as [|x a IH]; intros [|y b]; simpl; split;
    try congruence; try reflexivity.
  - intros H. apply andb_true_iff in H as [Hx Hab].
    apply Byte.byte_dec_bl in Hx. apply IH in Hab. congruence.
  - intros H. injection H as -> ->. apply andb_true_iff. split.
    + now apply Byte.byte_dec_lb.
    + now apply IH.
Qed.

(** The signature test is exactly: at least 8 bytes, the first 8 being the
    PNG magic. *)
Lemma isPngByBytes_spec (buffer : list byte) :
  isPngByBytes buffer = true <->
  (8 <= length buffer)%nat /\ take 8 buffer = PNG_SIGNATURE.
Proof.
  unfold isPngByBytes, subarray.
  change (length PNG_SIGNATURE) with 8%nat. simpl drop.
  destruct (Nat.ltb_spec (length buffer) 8) as [Hlt | Hge].
  - split; [discriminate | intros [H _]; lia].
  - rewrite Buffer_equals_eq. change (8 - 0)%nat with 8%nat. tauto.
Qed.

Lemma read_readFileSync {L} (s : State L) p b :
  NodeFs.read (fs (world s)) p = inr b ->
  NodeFs.readFileSync p s = (s, Ret b).
Proof. intros H. unfold NodeFs.readFileSync. now rewrite H. Qed.

Lemma read_readFileSync_fail {L} (s : State L) p e :
  NodeFs.read (fs (world s)) p = inl e ->
  NodeFs.readFileSync p s = (s, Throw e).
Proof. intros H. unfold NodeFs.readFileSync. now rewrite H. Qed.

Lemma unlink_gone f p f' : NodeFs.unlink f p = inr f' -> f' !! p = None.
Proof.
  unfold NodeFs.unlink. destruct (f !! p) as [n|]; [|discriminate].
  destruct (removable n); [|discriminate].
  intros [= <-]. apply lookup_delete_eq.
Qed.

Lemma validate_png_ok file s buffer :
  NodeFs.read (fs (world s)) (path file) = inr buffer ->
  mimetype file = "image/png" ->
  isPngByBytes buffer = true ->
  validate_file file s = (accepted_in file s, Ret tt).
Proof.
  intros Hr Hm Hp. unfold validate_file.
  apply try_catch_ret.
  rewrite (bind_ret_l _ _ _ _ _ (read_readFileSync _ _ _ Hr)).
  rewrite Hm, Hp. reflexivity.
Qed.

Lemma validate_other_ok file s buffer :
  NodeFs.read (fs (world s)) (path file) = inr buffer ->
  mimetype file <> "image/png" ->
  validate_file file s = (accepted_in file s, Ret tt).
Proof.
  intros Hr Hm. unfold validate_file.
  apply try_catch_ret.
  rewrite (bind_ret_l _ _ _ _ _ (read_readFileSync _ _ _ Hr)).
  apply String.eqb_neq in Hm. rewrite Hm. reflexivity.
Qed.

Lemma validate_png_bad file s buffer f' :
  NodeFs.read (fs (world s)) (path file) = inr buffer ->
  mimetype file = "image/png" ->
  isPngByBytes buffer = false ->
  NodeFs.unlink (fs (world s)) (path file) = inr f' ->
  validate_file file s =
    (on_world (set_fs f')
       (rejected_in (originalname file ++ " - Invalid PNG signature") s), Ret tt).
Proof.
  intros Hr Hm Hp Hu. unfold validate_file.
  apply try_catch_ret.
  rewrite (bind_ret_l _ _ _ _ _ (read_readFileSync _ _ _ Hr)).
  rewrite Hm, Hp. simpl String.eqb. cbv iota.
  unfold bind, push_invalid, modify, NodeFs.unlinkSync. simpl.
  rewrite Hu. reflexivity.
Qed.

End SignatureValidator.

Section SignatureValidatorClaim.
Import Backend.

Lemma validate_png_bad_stuck file s buffer e :
  NodeFs.read (fs (world s)) (path file) = inr buffer ->
  mimetype file = "image/png" ->
  isPngByBytes buffer = false ->
  NodeFs.unlink (fs (world s)) (path file) = inl e ->
  validate_file file s =
    (on_world (add_console (Warn, "Failed to cleanup invalid file: " ++ path file))
       (rejected_in (originalname file ++ " - Validation error")
          (on_world (add_console (Err, "Error validating file " ++ originalname file
                                        ++ ": " ++ exn_message e))
             (rejected_in (originalname file ++ " - Invalid PNG signature") s))),
     Ret tt).
Proof.
  intros Hr Hm Hp Hu. unfold validate_file, try_catch.
  rewrite (bind_ret_l _ _ _ _ _ (read_readFileSync _ _ _ Hr)).
  rewrite Hm, Hp. simpl String.eqb. cbv iota.
  unfold bind, push_invalid, console_error, console_warn, modify,
    NodeFs.unlinkSync. simpl.
  rewrite Hu. simpl. rewrite Hu. reflexivity.
Qed.

(** C1. A file declared "image/png" whose content can be read is accepted
    exactly when the content has at least 8 bytes and starts with
    89 50 4E 47 0D 0A 1A 0A; otherwise it is not accepted, the reason
    "<name> - Invalid PNG signature" is recorded and the temp file is
    unlinked (it is gone when the unlink succeeds).  A file of any other
    declared type is accepted whatever its bytes are. *)
Theorem C1_signature_validator (file : File) (s : State Locals) (buffer : list byte) :
  NodeFs.read (fs (world s)) (path file) = inr buffer ->
  let sig_ok := (8 <= length buffer)%nat /\ take 8 buffer = PNG_SIGNATURE in
  let after := fst (validate_file file s) in
  (mimetype file = "image/png" ->
     (sig_ok <-> validFiles (locals after) = (validFiles (locals s) ++ [file])%list)
     /\ (sig_ok -> validate_file file s = (accepted_in file s, Ret tt))
     /\ (~ sig_ok ->
           validFiles (locals after) = validFiles (locals s)
           /\ (exists more, invalidFiles (locals after) =
                 (invalidFiles (locals s)
                  ++ (originalname file ++ " - Invalid PNG signature")%string :: more)%list)
           /\ forall f', NodeFs.unlink (fs (world s)) (path file) = inr f' ->
                validate_file file s =
                  (on_world (set_fs f')
                     (rejected_in (originalname file ++ " - Invalid PNG signature") s),
                   Ret tt)
                /\ fs (world after) !! path file = None))
  /\ (mimetype file <> "image/png" ->
        validate_file file s = (accepted_in file s, Ret tt)).
Proof.
  intros Hr sig_ok after. split.
  - intros Hm.
    assert (Hbad : ~ sig_ok ->
              validFiles (locals after) = validFiles (locals s)
              /\ (exists more, invalidFiles (locals after) =
                    (invalidFiles (locals s)
                     ++ (originalname file ++ " - Invalid PNG signature")%string :: more)%list)).
    { intros Hn. subst after.
      assert (Hp : isPngByBytes buffer = false).
      { destruct (isPngByBytes buffer) eqn:E; [|reflexivity].
        apply isPngByBytes_spec in E. contradiction. }
      destruct (NodeFs.unlink (fs (world s)) (path file)) as [e | f'] eqn:Hu.
      - rewrite (validate_png_bad_stuck _ _ _ _ Hr Hm Hp Hu). simpl.
        split; [reflexivity|].
        exists [originalname file ++ " - Validation error"].
        now rewrite <- app_assoc.
      - rewrite (validate_png_bad _ _ _ _ Hr Hm Hp Hu). simpl.
        split; [reflexivity|]. now exists []. }
    assert (Hgood : sig_ok -> validate_file file s = (accepted_in file s, Ret tt)).
    { intros Hs. apply (validate_png_ok _ _ _ Hr Hm).
      now apply isPngByBytes_spec. }
    split; [|split].
    + split.
      * intros Hs. subst after. now rewrite (Hgood Hs).
      * intros Hv. destruct (isPngByBytes buffer) eqn:E.
        -- now apply isPngByBytes_spec.
        -- exfalso.
           assert (Hn : ~ sig_ok).
           { intros Hs. apply isPngByBytes_spec in Hs. congruence. }
           destruct (Hbad Hn) as [Hsame _]. rewrite Hsame in Hv.
           apply (f_equal (@length _)) in Hv. rewrite length_app in Hv.
           simpl in Hv. lia.
    + exact Hgood.
    + intros Hn. destruct (Hbad Hn) as [H1 H2].
      split; [exact H1 | split; [exact H2 |]].
      intros f' Hu.
      assert (Hp : isPngByBytes buffer = false).
      { destruct (isPngByBytes buffer) eqn:E; [|reflexivity].
        apply isPngByBytes_spec in E. contradiction. }
      subst after. rewrite (validate_png_bad _ _ _ _ Hr Hm Hp Hu).
      split; [reflexivity|]. simpl. now apply (unlink_gone _ _ _ Hu).
  - intros Hm. now apply (validate_other_ok _ _ _ Hr).
Qed.

End SignatureValidatorClaim.

Section SignatureValidatorWitness.
Import Backend Samples.

Lemma C1_signature_validator_witness :
  NodeFs.read (fs (world (backend_state disk))) (path good_png) = inr png_bytes
  /\ validate_file good_png (backend_state disk)
     = (accepted_in good_png (backend_state disk), Ret tt).
Proof.
  assert (Hr : NodeFs.read (fs (world (backend_state disk))) (path good_png)
               = inr png_bytes) by (vm_compute; reflexivity).
  split; [exact Hr|].
  destruct (C1_signature_validator good_png (backend_state disk) png_bytes Hr)
    as [Hpng _].
  destruct (Hpng eq_refl) as (_ & Hok & _).
  apply Hok. split; [simpl; lia | reflexivity].
Defined.

End SignatureValidatorWitness.

(** ** The validation loop *)

Section ValidationLoop.
Import Backend Verdict.

(** The state in which a file whose content cannot be read leaves the loop. *)
Lemma validate_read_fail file s e :
  NodeFs.read (fs (world s)) (path file) = inl e ->
  let s1 := rejected_in (originalname file ++ " - Validation error")
              (on_world (add_console (Err, "Error validating file "
                           ++ originalname file ++ ": " ++ exn_message e)) s) in
  validate_file file s =
    (match NodeFs.unlink (fs (world s)) (path file) with
     | inr f' => on_world (set_fs f') s1
     | inl _ =>
         on_world (add_console (Warn, "Failed to cleanup invalid file: " ++ path file)) s1
     end, Ret tt).
Proof.
  intros Hr s1. unfold validate_file, try_catch.
  rewrite (bind_throw_l _ _ _ _ _ (read_readFileSync_fail _ _ _ Hr)).
  unfold bind, push_invalid, console_error, console_warn, modify,
    NodeFs.unlinkSync. simpl.
  destruct (NodeFs.unlink (fs (world s)) (path file)); reflexivity.
Qed.

(** What one iteration does to the two lists and to the rest of the world. *)
Lemma validate_file_effect file s :
  exists s', validate_file file s = (s', Ret tt)
    /\ validFiles (locals s') =
         (validFiles (locals s)
          ++ (if passes (fs (world s)) file then [file] else []))%list
    /\ invalidFiles (locals s') =
         (invalidFiles (locals s) ++ reasons (fs (world s)) file)%list
    /\ (forall p, p <> path file -> fs (world s') !! p = fs (world s) !! p)
    /\ sent (world s') = sent (world s)
    /\ uuid_source (world s') = uuid_source (world s)
    /\ uuid_drawn (world s') = uuid_drawn (world s).
Proof.
  unfold passes, reasons.
  destruct (NodeFs.read (fs (world s)) (path file)) as [e | buffer] eqn:Hr.
  - eexists. split; [apply (validate_read_fail _ _ _ Hr)|].
    unfold NodeFs.unlink.
    destruct (fs (world s) !! path file) as [n|] eqn:Hl;
      [destruct (removable n)|]; simpl;
      rewrite ?app_nil_r; repeat split; try reflexivity.
    intros p Hp. now apply lookup_delete_ne.
  - destruct (String.eqb_spec (mimetype file) "image/png") as [Hm | Hm].
    + destruct (isPngByBytes buffer) eqn:Hp; simpl.
      * eexists. split; [apply (validate_png_ok _ _ _ Hr Hm Hp)|].
        simpl. rewrite ?app_nil_r. repeat split; reflexivity.
      * destruct (NodeFs.unlink (fs (world s)) (path file)) as [e | f'] eqn:Hu.
        -- eexists. split; [apply (validate_png_bad_stuck _ _ _ _ Hr Hm Hp Hu)|].
           simpl. rewrite ?app_nil_r, <- ?app_assoc. repeat split; reflexivity.
        -- eexists. split; [apply (validate_png_bad _ _ _ _ Hr Hm Hp Hu)|].
           simpl. rewrite ?app_nil_r. repeat split; try reflexivity.
           intros p Hne. unfold NodeFs.unlink in Hu.
           destruct (fs (world s) !! path file) as [n|]; [|discriminate].
           destruct (removable n); [|discriminate].
           injection Hu as <-. now apply lookup_delete_ne.
    + eexists. split; [apply (validate_other_ok _ _ _ Hr Hm)|].
      simpl. rewrite ?app_nil_r. repeat split; reflexivity.
Qed.

(** No exception leaves an iteration, hence none leaves the loop. *)
Lemma validate_file_total file s : exists s', validate_file file s = (s', Ret tt).
Proof. destruct (validate_file_effect file s) as (s' & H & _). now exists s'. Qed.

Lemma validation_loop_total files s :
  exists s', validation_loop files s = (s', Ret tt).
Proof.
  revert s. induction files as [|file rest IH]; intros s.
  - now exists s.
  - destruct (validate_file_total file s) as (s1 & H1).
    destruct (IH s1) as (s2 & H2). exists s2.
    unfold validation_loop in *. simpl.
    now rewrite (bind_ret_l _ _ _ _ _ H1).
Qed.

Lemma validation_loop_cons file rest s s1 :
  validate_file file s = (s1, Ret tt) ->
  validation_loop (file :: rest) s = validation_loop rest s1.
Proof.
  intros H. unfold validation_loop. simpl. now rewrite (bind_ret_l _ _ _ _ _ H).
Qed.

Lemma passes_ext f f' file :
  f !! path file = f' !! path file -> passes f file = passes f' file.
Proof. intros H. unfold passes, NodeFs.read. now rewrite H. Qed.

Lemma reasons_ext f f' file :
  f !! path file = f' !! path file -> reasons f file = reasons f' file.
Proof.
  intros H. unfold reasons, NodeFs.read, NodeFs.unlink. rewrite H.
  destruct (f' !! path file) as [n|]; [|reflexivity].
  destruct (readable n); [|reflexivity].
  destruct (_ && _); [|reflexivity].
  now destruct (removable n).
Qed.

(** With pairwise distinct paths the loop partitions the files as judged on
    the file system it started from, in receipt order. *)
Lemma validation_loop_partition files : forall s f0,
  NoDup (map path files) ->
  (forall file, In file files -> fs (world s) !! path file = f0 !! path file) ->
  exists s', validation_loop files s = (s', Ret tt)
    /\ validFiles (locals s') =
         (validFiles (locals s) ++ List.filter (passes f0) files)%list
    /\ invalidFiles (locals s') =
         (invalidFiles (locals s) ++ flat_map (reasons f0) files)%list
    /\ sent (world s') = sent (world s)
    /\ uuid_source (world s') = uuid_source (world s)
    /\ uuid_drawn (world s') = uuid_drawn (world s).
Proof.
  induction files as [|file rest IH]; intros s f0 Hnd Hfs.
  - exists s. simpl. rewrite !app_nil_r. repeat split; reflexivity.
  - destruct (validate_file_effect file s)
      as (s1 & H1 & Hv1 & Hi1 & Hfs1 & Hs1 & Hu1 & Hd1).
    simpl in Hnd. apply NoDup_cons in Hnd as [Hnotin Hnd].
    destruct (IH s1 f0 Hnd) as (s2 & H2 & Hv2 & Hi2 & Hs2 & Hu2 & Hd2).
    { intros g Hg. rewrite Hfs1.
      - apply Hfs. now right.
      - intros Heq. apply Hnotin. rewrite <- Heq.
        apply list_elem_of_In. now apply in_map. }
    exists s2. rewrite (validation_loop_cons _ _ _ _ H1).
    split; [exact H2|].
    assert (Hhere : fs (world s) !! path file = f0 !! path file)
      by (apply Hfs; now left).
    rewrite Hv2, Hv1, Hi2, Hi1, Hs2, Hs1, Hu2, Hu1, Hd2, Hd1.
    rewrite (passes_ext _ _ _ Hhere), (reasons_ext _ _ _ Hhere).
    simpl. rewrite <- !app_assoc.
    destruct (passes f0 file); repeat split; reflexivity.
Qed.

End ValidationLoop.

Section ValidationClaims.
Import Backend Verdict.

(** C6. A file whose content cannot be read is rejected with the reason
    "<name> - Validation error"; removal of its temp file is attempted, a
    failed removal only leaves a warning on the console; the loop goes on
    with the remaining files and ends without an exception. *)
Theorem C6_read_error_is_rejection (file : File) (rest : list File)
    (s : State Locals) (e : exn) :
  NodeFs.read (fs (world s)) (path file) = inl e ->
  exists s1,
    validate_file file s = (s1, Ret tt)
    /\ validFiles (locals s1) = validFiles (locals s)
    /\ invalidFiles (locals s1) =
         (invalidFiles (locals s)
          ++ [(originalname file ++ " - Validation error")%string])%list
    /\ match NodeFs.unlink (fs (world s)) (path file) with
       | inr f' =>
           fs (world s1) = f'
           /\ console (world s1) =
                (console (world s)
                 ++ [(Err, ("Error validating file " ++ originalname file ++ ": "
                            ++ exn_message e)%string)])%list
       | inl _ =>
           fs (world s1) = fs (world s)
           /\ console (world s1) =
                (console (world s)
                 ++ [(Err, ("Error validating file " ++ originalname file ++ ": "
                            ++ exn_message e)%string);
                     (Warn, ("Failed to cleanup invalid file: " ++ path file)%string)])%list
       end
    /\ validation_loop (file :: rest) s = validation_loop rest s1
    /\ exists s2, validation_loop rest s1 = (s2, Ret tt).
Proof.
  intros Hr. pose proof (validate_read_fail file s e Hr) as H. simpl in H.
  eexists. split; [exact H|].
  split; [|split; [|split; [|split]]].
  - now destruct (NodeFs.unlink (fs (world s)) (path file)).
  - now destruct (NodeFs.unlink (fs (world s)) (path file)).
  - destruct (NodeFs.unlink (fs (world s)) (path file)); simpl.
    + split; [reflexivity|]. now rewrite <- app_assoc.
    + split; reflexivity.
  - now apply validation_loop_cons.
  - apply validation_loop_total.
Qed.

(** When every rejected file contributes one reason, there are as many
    verdicts as files. *)
Lemma verdict_count files : forall s,
  NoDup (map path files) ->
  (forall file, In file files ->
     (length (reasons (fs (world s)) file) <= 1)%nat) ->
  exists s', validation_loop files s = (s', Ret tt)
    /\ (length (validFiles (locals s')) + length (invalidFiles (locals s'))
        = length (validFiles (locals s)) + length (invalidFiles (locals s))
          + length files)%nat.
Proof.
  intros s Hnd Hone.
  destruct (validation_loop_partition files s (fs (world s)) Hnd)
    as (s' & H & Hv & Hi & _); [reflexivity|].
  exists s'. split; [exact H|]. rewrite Hv, Hi, !length_app.
  assert (Hsum : (length (List.filter (passes (fs (world s))) files)
                  + length (flat_map (reasons (fs (world s))) files)
                  = length files)%nat).
  { clear - Hone. induction files as [|file rest IH]; [reflexivity|].
    assert (Hrest : (length (List.filter (passes (fs (world s))) rest)
                     + length (flat_map (reasons (fs (world s))) rest)
                     = length rest)%nat)
      by (apply IH; intros g Hg; apply Hone; now right).
    specialize (Hone file (or_introl eq_refl)).
    simpl. rewrite length_app. revert Hone.
    unfold passes, reasons in Hrest |- *.
    destruct (NodeFs.read (fs (world s)) (path file)) as [e|buffer].
    - simpl. lia.
    - destruct (String.eqb (mimetype file) "image/png"); simpl.
      + destruct (isPngByBytes buffer); simpl; [lia|].
        destruct (NodeFs.unlink (fs (world s)) (path file)); simpl; lia.
      + lia. }
  lia.
Qed.

(** C5, at a file declared "image/png" without the signature whose temp file
    cannot be removed: the failed [unlinkSync] of the rejection branch is
    caught by the per-file [catch], which records a second reason.  One file,
    two entries; sent with a genuine PNG, the answer counts two rejected
    files. *)
Theorem C5_two_verdicts_for_one_file :
  let s' := fst (validation_loop [Samples.fake_png]
                   (Samples.backend_state Samples.locked_disk)) in
  let answered :=
    fst (upload_route "http" (Some "localhost:8080")
           (Some [Samples.good_png; Samples.fake_png])
           (Samples.backend_state Samples.locked_disk)) in
  validFiles (locals s') = []
  /\ invalidFiles (locals s') =
       ["dog.png - Invalid PNG signature"; "dog.png - Validation error"]
  /\ (length (validFiles (locals s')) + length (invalidFiles (locals s')))%nat = 2%nat
  /\ length [Samples.fake_png] = 1%nat
  /\ map (fun r => message (body r)) (sent (world answered)) =
       ["Successfully uploaded 1 valid file(s). 2 file(s) were rejected: "
        ++ "dog.png - Invalid PNG signature, dog.png - Validation error"].
Proof. vm_compute. repeat split; reflexivity. Qed.

End ValidationClaims.

Section ValidationWitnesses.
Import Backend Samples.

(** A file record whose temp file is not on the disk. *)
Lemma C6_read_error_is_rejection_witness :
  let lost := mkFile "images" "gone.png" "image/png" "u3-17.png"
                "/srv/uploads/u3-17.png" 8 in
  exists s1,
    validate_file lost (backend_state disk) = (s1, Ret tt)
    /\ invalidFiles (locals s1) = ["gone.png - Validation error"].
Proof.
  intros lost.
  destruct (C6_read_error_is_rejection lost [good_png] (backend_state disk)
              (Error "ENOENT: no such file or directory, open '/srv/uploads/u3-17.png'"))
    as (s1 & H & _ & Hi & _).
  - vm_compute. reflexivity.
  - exists s1. split; [exact H | exact Hi].
Defined.

End ValidationWitnesses.

(** ** Response construction *)

Section ResponseConstruction.
Import Backend Verdict.

Lemma map_m_describe proto hst valid : forall s,
  exists s',
    map_m (describe proto hst) valid s =
      (s', Ret (descriptors proto hst (uuid_source (world s))
                  (uuid_drawn (world s)) valid))
    /\ sent (world s') = sent (world s).
Proof.
  induction valid as [|file rest IH]; intros s.
  - exists s. split; reflexivity.
  - destruct (IH (on_world draw_uuid s)) as (s' & H & Hs).
    exists s'. split; [|exact Hs].
    simpl. unfold bind at 1. unfold describe at 1, bind at 1, uuidv4, ret at 1.
    unfold bind at 1. rewrite H. reflexivity.
Qed.

Lemma descriptors_paths proto hst ids valid : forall n,
  map sf_path (descriptors proto hst ids n valid) = map path valid
  /\ map sf_originalName (descriptors proto hst ids n valid) = map originalname valid.
Proof.
  induction valid as [|file rest IH]; intros n; [split; reflexivity|].
  destruct (IH (S n)) as [H1 H2]. simpl. rewrite H1, H2. split; reflexivity.
Qed.

(** C3. For a request with at least one received file (stored under pairwise
    distinct paths): when no file passes validation the response is 400 with
    success=false, no [files] and the rejection reasons joined by ", " as
    [error]; when some file passes it is 200 with success=true and [files]
    describing exactly the files that pass, in receipt order. *)
Theorem C3_response_partition (proto : string) (hst : option string)
    (received : list File) (s : State Locals) :
  received <> [] ->
  NoDup (map path received) ->
  let f0 := fs (world s) in
  let accepted := List.filter (passes f0) received in
  exists s' r,
    upload_route proto hst (Some received) s = (s', Ret tt)
    /\ sent (world s') = (sent (world s) ++ [r])%list
    /\ (accepted = [] ->
          status r = 400%N /\ success (body r) = false
          /\ files (body r) = None
          /\ error (body r) = Some (Js.join ", " (flat_map (reasons f0) received)))
    /\ (accepted <> [] ->
          status r = 200%N /\ success (body r) = true
          /\ files (body r) =
               Some (descriptors proto hst (uuid_source (world s))
                       (uuid_drawn (world s)) accepted)
          /\ forall fileData, files (body r) = Some fileData ->
               map sf_path fileData = map path accepted
               /\ map sf_originalName fileData = map originalname accepted).
Proof.
  intros Hne Hnd f0 accepted.
  set (s0 := on_locals (fun _ => mkLocals [] []) s).
  destruct (validation_loop_partition received s0 f0 Hnd)
    as (s1 & Hloop & Hv & Hi & Hs & Hu & Hd); [reflexivity|].
  simpl in Hv, Hi, Hs, Hu, Hd. fold accepted in Hv.
  assert (Hlen : (length received =? 0)%nat = false).
  { destruct received; [congruence | reflexivity]. }
  destruct accepted as [|a acc] eqn:Hacc.
  - exists (on_world (add_sent (mkHttpResponse 400
              (mkUploadResponse false
                 "No valid files uploaded. All files failed validation." None
                 (Some (Js.join ", " (flat_map (reasons f0) received)))))) s1).
    eexists. split; [|split; [|split]].
    + unfold upload_route. apply try_catch_ret. rewrite Hlen.
      unfold bind at 1. unfold modify at 1. fold s0.
      unfold bind at 1. rewrite Hloop.
      unfold bind at 1, get at 1. rewrite Hv, Hi. reflexivity.
    + simpl. now rewrite Hs.
    + intros _. repeat split; reflexivity.
    + intros Habs. congruence.
  - destruct (map_m_describe proto hst (a :: acc) s1) as (s2 & Hmap & Hs2).
    rewrite Hu, Hd in Hmap.
    exists (on_world (add_sent (mkHttpResponse 200
              (mkUploadResponse true
                 (success_message (a :: acc) (flat_map (reasons f0) received))
                 (Some (descriptors proto hst (uuid_source (world s))
                          (uuid_drawn (world s)) (a :: acc))) None))) s2).
    eexists. split; [|split; [|split]].
    + unfold upload_route. apply try_catch_ret. rewrite Hlen.
      unfold bind at 1. unfold modify at 1. fold s0.
      unfold bind at 1. rewrite Hloop.
      unfold bind at 1, get at 1. rewrite Hv, Hi.
      cbn [length Nat.eqb]. unfold bind at 1. rewrite Hmap. reflexivity.
    + simpl. now rewrite Hs2, Hs.
    + intros Habs. discriminate.
    + intros _. split; [reflexivity|]. split; [reflexivity|].
      split; [reflexivity|].
      intros fileData [= <-].
      apply (descriptors_paths proto hst (uuid_source (world s)) (a :: acc)).
Qed.

End ResponseConstruction.

Section ResponseWitness.
Import Backend Verdict Samples.

(** One genuine PNG and one fake: 200, one descriptor, for the genuine one. *)
Lemma C3_response_partition_witness :
  exists s' r,
    upload_route "http" (Some "localhost:8080") (Some [good_png; fake_png])
      (backend_state disk) = (s', Ret tt)
    /\ sent (world s') = [r]
    /\ status r = 200%N
    /\ files (body r) =
         Some [stored_as "http" (Some "localhost:8080") "id0" good_png].
Proof.
  destruct (C3_response_partition "http" (Some "localhost:8080")
              [good_png; fake_png] (backend_state disk))
    as (s' & r & H & Hsent & _ & Hsome).
  - discriminate.
  - vm_compute. repeat constructor; (intros Hin; inversion Hin; subst;
      try discriminate; match goal with H : _ ∈ [] |- _ => inversion H
                        | H : _ ∈ [_] |- _ => inversion H; subst; try discriminate
                        end).
  - exists s', r. split; [exact H|]. split; [exact Hsent|].
    destruct Hsome as (Hst & _ & Hf & _).
    + vm_compute. discriminate.
    + split; [exact Hst | exact Hf].
Defined.

End ResponseWitness.

(** ** Ingress filter and admission caps *)

Section Admission.
Import Backend Verdict.

Variable extname : string -> string.
Variable uploadsDir : string.

Lemma multer_receive_violation ps : forall filesLeft stored s v,
  first_violation filesLeft ps = Some v ->
  exists s' stored',
    multer_receive extname uploadsDir filesLeft ps stored s
      = (s', Ret (inr (stored', error_of v)))
    /\ sent (world s') = sent (world s)
    /\ locals s' = locals s.
Proof.
  induction ps as [|p rest IH]; intros filesLeft stored s v Hv; [discriminate|].
  cbn [first_violation] in Hv. unfold part_violation in Hv.
  cbn [multer_receive].
  destruct (negb (String.eqb (part_fieldname p) "images") || (filesLeft =? 0)%nat).
  { injection Hv as <-. exists s, stored. repeat split; reflexivity. }
  unfold fileFilter.
  destruct (Js.startsWith (part_mimetype p) "image/"); cbn [negb] in Hv.
  2:{ injection Hv as <-. exists s, stored. repeat split; reflexivity. }
  destruct (limits_fileSize <? N.of_nat (length (part_bytes p)))%N.
  { injection Hv as <-. exists (on_world draw_uuid s), stored.
    repeat split; reflexivity. }
  set (name := uniqueName extname (uuid_source (world s) (uuid_drawn (world s)))
                 (clock (world s)) (part_originalname p)).
  set (file := mkFile (part_fieldname p) (part_originalname p) (part_mimetype p)
                 name (uploadsDir ++ "/" ++ name)
                 (N.of_nat (length (part_bytes p)))).
  set (s1 := on_world (fun w => set_fs (<[path file := mkInode (part_bytes p) true true]>
                                          (fs w)) w) (on_world draw_uuid s)).
  destruct (IH (filesLeft - 1)%nat (stored ++ [file])%list s1 v Hv)
    as (s' & stored' & Hrec & Hs & Hl).
  exists s', stored'. split; [|split; [exact Hs | exact Hl]].
  unfold try_catch, bind, storage_filename, bind, uuidv4, Date_now, ret,
    NodeFs.writeFile, modify.
  cbn [fst snd world locals on_world].
  change ((let (s2, o) := multer_receive extname uploadsDir (filesLeft - 1) rest
                             (stored ++ [file])%list s1 in
           match o with
           | Ret a => (s2, Ret a)
           | Throw e => (s2, Ret (inr (stored, e)))
           | Pending => (s2, Pending)
           end) = (s', Ret (inr (stored', error_of v)))).
  rewrite Hrec. reflexivity.
Qed.

Lemma quiet_unlink (p : string) (s : State Locals) :
  exists s',
    try_catch (NodeFs.unlinkSync p) (fun _ => ret tt) s = (s', Ret tt)
    /\ sent (world s') = sent (world s)
    /\ locals s' = locals s.
Proof.
  unfold try_catch, NodeFs.unlinkSync.
  destruct (NodeFs.unlink (fs (world s)) p) as [e | f'].
  - exists s. repeat split; reflexivity.
  - exists (on_world (set_fs f') s). repeat split; reflexivity.
Qed.

Lemma remove_stored_quiet (stored : list File) : forall s : State Locals,
  exists s',
    for_of stored
      (fun f => try_catch (NodeFs.unlinkSync (path f)) (fun _ => ret tt)) s
      = (s', Ret tt)
    /\ sent (world s') = sent (world s)
    /\ locals s' = locals s.
Proof.
  induction stored as [|f rest IH]; intros s.
  - exists s. repeat split; reflexivity.
  - destruct (quiet_unlink (path f) s) as (s1 & H1 & Hs1 & Hl1).
    destruct (IH s1) as (s2 & H2 & Hs2 & Hl2).
    exists s2. cbn [for_of]. rewrite (bind_ret_l _ _ _ _ _ H1).
    split; [exact H2|]. split; congruence.
Qed.

Lemma errorMiddleware_violation v (s : State Locals) :
  errorMiddleware (error_of v) s = (on_world (add_sent (response_of v)) s, Ret tt).
Proof. destruct v; reflexivity. Qed.

Lemma more_files_than_left ps : forall filesLeft,
  (filesLeft < length ps)%nat -> exists v, first_violation filesLeft ps = Some v.
Proof.
  induction ps as [|p rest IH]; intros filesLeft Hlen; [simpl in Hlen; lia|].
  simpl. destruct (part_violation filesLeft p) as [v|] eqn:Hp; [now exists v|].
  apply IH. simpl in Hlen. unfold part_violation in Hp.
  destruct filesLeft as [|n].
  - rewrite orb_true_r in Hp. discriminate.
  - simpl. lia.
Qed.

Lemma oversize_is_violation ps : forall filesLeft,
  Exists (fun p => (limits_fileSize < N.of_nat (length (part_bytes p)))%N) ps ->
  exists v, first_violation filesLeft ps = Some v.
Proof.
  induction ps as [|p rest IH]; intros filesLeft Hex; [inversion Hex|].
  simpl. destruct (part_violation filesLeft p) as [v|] eqn:Hp; [now exists v|].
  inversion Hex as [? ? Hbig | ? ? Hrest]; subst; [|now apply IH].
  exfalso. unfold part_violation in Hp.
  destruct (_ || _); [discriminate|].
  destruct (negb _); [discriminate|].
  apply N.ltb_lt in Hbig. rewrite Hbig in Hp. discriminate.
Qed.

Lemma non_image_is_violation ps : forall filesLeft,
  Exists (fun p => Js.startsWith (part_mimetype p) "image/" = false) ps ->
  exists v, first_violation filesLeft ps = Some v.
Proof.
  induction ps as [|p rest IH]; intros filesLeft Hex; [inversion Hex|].
  simpl. destruct (part_violation filesLeft p) as [v|] eqn:Hp; [now exists v|].
  inversion Hex as [? ? Hbad | ? ? Hrest]; subst; [|now apply IH].
  exfalso. unfold part_violation in Hp.
  destruct (_ || _); [discriminate|].
  rewrite Hbad in Hp. discriminate.
Qed.

(** C4 as the code has it.  A request that breaks an admission cap fails as
    a whole: the route never runs, and the one response has success=false
    and no [files].  Its status is 400, with "File too large. Maximum size
    is 5MB.", when the first cap broken is the size cap; it is 500, with
    "Unexpected field" or "Only image files are allowed!", when the first
    cap broken is the count cap or the declared type. *)
Theorem C4_cap_violation_fails_request (req : Request) (s : State Locals) :
  breaks_a_cap (parts req) ->
  exists v s' r,
    first_violation 10 (parts req) = Some v
    /\ handle_upload extname uploadsDir req s = (s', Ret tt)
    /\ sent (world s') = (sent (world s) ++ [r])%list
    /\ locals s' = locals s
    /\ success (body r) = false
    /\ files (body r) = None
    /\ match v with
       | FileTooLarge =>
           status r = 400%N
           /\ message (body r) = "File too large. Maximum size is 5MB."
       | UnexpectedFile =>
           status r = 500%N /\ message (body r) = "Unexpected field"
       | NotAnImage =>
           status r = 500%N /\ message (body r) = "Only image files are allowed!"
       end.
Proof.
  intros Hcap.
  assert (Hv : exists v, first_violation 10 (parts req) = Some v).
  { destruct Hcap as [Hmany | [Hbig | Hbad]].
    - now apply more_files_than_left.
    - now apply oversize_is_violation.
    - now apply non_image_is_violation. }
  destruct Hv as [v Hv].
  destruct (multer_receive_violation (parts req) 10 [] s v Hv)
    as (s1 & stored & Hrec & Hs1 & Hl1).
  destruct (remove_stored_quiet stored s1) as (s2 & Hrm & Hs2 & Hl2).
  exists v, (on_world (add_sent (response_of v)) s2), (response_of v).
  split; [exact Hv|]. split; [|split; [|split; [|split; [|split]]]].
  - unfold handle_upload, try_catch, bind at 1, upload_array, bind at 1.
    rewrite Hrec. unfold bind at 1. rewrite Hrm. unfold throw.
    apply errorMiddleware_violation.
  - simpl. now rewrite Hs2, Hs1.
  - simpl. now rewrite Hl2, Hl1.
  - now destruct v.
  - now destruct v.
  - destruct v; split; reflexivity.
Qed.

End Admission.

Section AdmissionExamples.
Import Backend Verdict Samples.

(** C4 fails as stated: eleven small PNG files break the count cap, and the
    response is 500 "Unexpected field", not 400. *)
Lemma C4_eleven_files_give_500 :
  let req := mkRequest "http" (Some "localhost:8080") eleven_parts in
  let s' := fst (handle_upload sample_extname "/srv/uploads" req (backend_state ∅)) in
  (10 < length (parts req))%nat
  /\ sent (world s') =
       [mkHttpResponse 500 (mkUploadResponse false "Unexpected field" None None)]
  /\ ~ (exists r, In r (sent (world s')) /\ status r = 400%N).
Proof.
  vm_compute. split; [lia|]. split; [reflexivity|].
  intros (r & [<- | []] & Hst). discriminate.
Qed.

Lemma C4_cap_violation_fails_request_witness :
  exists s' r,
    handle_upload sample_extname "/srv/uploads"
      (mkRequest "http" (Some "localhost:8080") [a_text_file]) (backend_state ∅)
    = (s', Ret tt)
    /\ sent (world s') = [r]
    /\ status r = 500%N
    /\ message (body r) = "Only image files are allowed!".
Proof.
  destruct (C4_cap_violation_fails_request sample_extname "/srv/uploads"
              (mkRequest "http" (Some "localhost:8080") [a_text_file])
              (backend_state ∅))
    as (v & s' & r & Hv & H & Hsent & _ & _ & _ & Hcase).
  - right. right. constructor. vm_compute. reflexivity.
  - assert (v = NotAnImage) as -> by (vm_compute in Hv; congruence).
    exists s', r. split; [exact H|]. split; [exact Hsent | exact Hcase].
Defined.

End AdmissionExamples.

(** ** Stored filenames *)

Section StoredNames.
Import Backend Verdict.

Variable extname : string -> string.
Variable uploadsDir : string.

Lemma chars_app (a b : string) :
  list_ascii_of_string (a ++ b) = (list_ascii_of_string a ++ list_ascii_of_string b)%list.
Proof. induction a as [|c a IH]; simpl; [reflexivity | now rewrite IH]. Qed.

Lemma chars_inj (a b : string) :
  list_ascii_of_string a = list_ascii_of_string b -> a = b.
Proof.
  intros H. rewrite <- (string_of_list_ascii_of_string a),
    <- (string_of_list_ascii_of_string b). now rewrite H.
Qed.

(** A decimal numeral has no dash in it. *)
Lemma digits_no_dash (d : Decimal.uint) :
  ~ In "-"%char (list_ascii_of_string (NilEmpty.string_of_uint d)).
Proof.
  induction d; simpl; intros H; try tauto;
    (destruct H as [H | H]; [discriminate | tauto]).
Qed.

Lemma numToString_no_dash (n : N) :
  ~ In "-"%char (list_ascii_of_string (Js.numToString n)).
Proof.
  unfold Js.numToString, NilZero.string_of_uint.
  destruct (N.to_uint n) eqn:E; try apply digits_no_dash.
  simpl. intros [H | []]. discriminate.
Qed.

Lemma to_uint_nonnil (n : N) : N.to_uint n <> Decimal.Nil.
Proof.
  destruct n as [|p]; [discriminate|]. apply DecimalPos.Unsigned.to_uint_nonnil.
Qed.

Lemma numToString_inj (n m : N) : Js.numToString n = Js.numToString m -> n = m.
Proof.
  unfold Js.numToString. intros H.
  apply (f_equal NilZero.uint_of_string) in H.
  rewrite !NilZero.usu in H by apply to_uint_nonnil.
  injection H as H. now apply DecimalN.Unsigned.to_uint_inj.
Qed.

(** Cutting at the last occurrence of a separator is unambiguous. *)
Lemma split_at_last {A} (x : A) (l1 l2 r1 r2 : list A) :
  ~ In x r1 -> ~ In x r2 ->
  (l1 ++ x :: r1 = l2 ++ x :: r2)%list -> l1 = l2 /\ r1 = r2.
Proof.
  intros H1 H2 Heq.
  assert (Hrev : (rev r1 ++ x :: rev l1 = rev r2 ++ x :: rev l2)%list).
  { apply (f_equal (@rev A)) in Heq.
    rewrite !rev_app_distr in Heq. simpl in Heq.
    now rewrite <- !app_assoc in Heq. }
  assert (Hgen : forall a b ta tb : list A,
            ~ In x a -> ~ In x b ->
            (a ++ x :: ta = b ++ x :: tb)%list -> a = b /\ ta = tb).
  { clear. induction a as [|y a IH]; intros [|z b] ta tb Ha Hb H; simpl in *.
    - injection H as ->. split; reflexivity.
    - injection H as -> _. tauto.
    - injection H as -> _. tauto.
    - injection H as -> H. destruct (IH b ta tb) as [-> ->]; tauto. }
  destruct (Hgen (rev r1) (rev r2) (rev l1) (rev l2)) as [Hr Hl].
  - rewrite <- in_rev. exact H1.
  - rewrite <- in_rev. exact H2.
  - exact Hrev.
  - split.
    + rewrite <- (rev_involutive l1), <- (rev_involutive l2). now rewrite Hl.
    + rewrite <- (rev_involutive r1), <- (rev_involutive r2). now rewrite Hr.
Qed.

Lemma uniqueName_inj (u1 u2 : string) (t1 t2 : N) (original : string) :
  uniqueName extname u1 t1 original = uniqueName extname u2 t2 original ->
  u1 = u2 /\ t1 = t2.
Proof.
  unfold uniqueName. intros H.
  apply (f_equal list_ascii_of_string) in H.
  rewrite !chars_app in H. simpl in H.
  assert (Hshape : forall l d e : list ascii,
            (l ++ "-"%char :: d ++ e = (l ++ "-"%char :: d) ++ e)%list)
    by (intros; now rewrite <- app_assoc).
  rewrite !Hshape in H. apply app_inv_tail in H.
  apply split_at_last in H as [Hu Ht]; try apply numToString_no_dash.
  split; [now apply chars_inj|].
  apply chars_inj in Ht. now apply numToString_inj.
Qed.

Lemma string_app_inv_head (a b c : string) : a ++ b = a ++ c -> b = c.
Proof.
  induction a as [|x a IH]; simpl; intros H; [exact H|].
  injection H as H. now apply IH.
Qed.

(** What multer stores for a request it admits: one file per part, in
    order, the [i]-th under the name the [filename] callback made of the
    [i]-th token drawn. *)
Lemma multer_names ps : forall filesLeft stored (s : State Locals),
  first_violation filesLeft ps = None ->
  exists s' new,
    multer_receive extname uploadsDir filesLeft ps stored s
      = (s', Ret (inl (stored ++ new)%list))
    /\ length new = length ps
    /\ forall i f, new !! i = Some f ->
         exists p,
           ps !! i = Some p
           /\ originalname f = part_originalname p
           /\ filename f
              = uniqueName extname
                  (uuid_source (world s) (uuid_drawn (world s) + i))
                  (clock (world s)) (part_originalname p)
           /\ path f = uploadsDir ++ "/" ++ filename f.
Proof.
  induction ps as [|p rest IH]; intros filesLeft stored s Hv.
  - exists s, []. rewrite app_nil_r. split; [reflexivity|]. split; [reflexivity|].
    intros i f Hf. destruct i; discriminate.
  - cbn [first_violation] in Hv. unfold part_violation in Hv.
    cbn [multer_receive].
    destruct (negb (String.eqb (part_fieldname p) "images") || (filesLeft =? 0)%nat);
      [discriminate|].
    unfold fileFilter.
    destruct (Js.startsWith (part_mimetype p) "image/"); cbn [negb] in Hv;
      [|discriminate].
    destruct (limits_fileSize <? N.of_nat (length (part_bytes p)))%N; [discriminate|].
    set (name := uniqueName extname (uuid_source (world s) (uuid_drawn (world s)))
                   (clock (world s)) (part_originalname p)).
    set (file := mkFile (part_fieldname p) (part_originalname p) (part_mimetype p)
                   name (uploadsDir ++ "/" ++ name)
                   (N.of_nat (length (part_bytes p)))).
    set (s1 := on_world (fun w => set_fs (<[path file := mkInode (part_bytes p) true true]>
                                            (fs w)) w) (on_world draw_uuid s)).
    destruct (IH (filesLeft - 1)%nat (stored ++ [file])%list s1 Hv)
      as (s' & new & Hrec & Hlen & Hnames).
    exists s', (file :: new). split; [|split].
    + unfold try_catch, bind, storage_filename, bind, uuidv4, Date_now, ret,
        NodeFs.writeFile, modify.
      cbn [fst snd world locals on_world].
      change ((let (s2, o) := multer_receive extname uploadsDir (filesLeft - 1) rest
                                 (stored ++ [file])%list s1 in
               match o with
               | Ret a => (s2, Ret a)
               | Throw e => (s2, Ret (inr (stored, e)))
               | Pending => (s2, Pending)
               end) = (s', Ret (inl (stored ++ file :: new)%list))).
      rewrite Hrec. now rewrite <- app_assoc.
    + cbn [length]. now rewrite Hlen.
    + intros [|i] f Hf.
      * injection Hf as <-. exists p. rewrite Nat.add_0_r.
        repeat split; reflexivity.
      * destruct (Hnames i f Hf) as (q & Hq & Ho & Hn & Hp).
        exists q. split; [exact Hq|]. split; [exact Ho|]. split; [|exact Hp].
        rewrite Hn. cbn [s1 world on_world draw_uuid set_fs uuid_source uuid_drawn clock].
        now rewrite Nat.add_succ_r.
Qed.

(** C8. In a request that multer admits, every part is stored under the
    name the [filename] callback generates for it: the token drawn for it,
    a dash, the timestamp, the extension of the client's name.  Two stored
    files with the same client filename have distinct stored names, and
    distinct paths, as soon as the tokens drawn for them differ. *)
Theorem C8_stored_names_never_collide (req : Request) (s : State Locals) :
  first_violation 10 (parts req) = None ->
  let token i := uuid_source (world s) (uuid_drawn (world s) + i) in
  exists s' stored,
    upload_array extname uploadsDir (parts req) s = (s', Ret stored)
    /\ length stored = length (parts req)
    /\ (forall i f, stored !! i = Some f ->
          exists p,
            parts req !! i = Some p
            /\ originalname f = part_originalname p
            /\ filename f
               = token i ++ "-" ++ Js.numToString (clock (world s))
                 ++ extname (part_originalname p)
            /\ path f = uploadsDir ++ "/" ++ filename f)
    /\ (forall i j fi fj,
          stored !! i = Some fi -> stored !! j = Some fj ->
          originalname fi = originalname fj ->
          token i <> token j ->
          filename fi <> filename fj /\ path fi <> path fj).
Proof.
  intros Hv token.
  destruct (multer_names (parts req) 10 [] s Hv) as (s' & new & Hrec & Hlen & Hnames).
  cbn [app] in Hrec. exists s', new.
  split; [unfold upload_array; now rewrite (bind_ret_l _ _ _ _ _ Hrec)|].
  split; [exact Hlen|]. split; [exact Hnames|].
  intros i j fi fj Hi Hj Ho Htok.
  destruct (Hnames i fi Hi) as (p & _ & Hoi & Hni & Hpi).
  destruct (Hnames j fj Hj) as (q & _ & Hoj & Hnj & Hpj).
  assert (Hname : filename fi <> filename fj).
  { rewrite Hni, Hnj, <- Hoi, <- Hoj, Ho. intros Heq.
    apply uniqueName_inj in Heq as [Hu _]. contradiction. }
  split; [exact Hname|]. rewrite Hpi, Hpj. intros Heq.
  apply Hname. apply string_app_inv_head in Heq. now injection Heq.
Qed.

End StoredNames.

Section StoredNamesWitness.
Import Backend Verdict Samples.

Lemma C8_stored_names_never_collide_witness :
  exists s' stored,
    upload_array sample_extname "/srv/uploads" twin_parts (backend_state ∅)
      = (s', Ret stored)
    /\ forall fi fj, stored !! 0%nat = Some fi -> stored !! 1%nat = Some fj ->
         originalname fi = "cat.png" /\ originalname fj = "cat.png"
         /\ filename fi <> filename fj.
Proof.
  destruct (C8_stored_names_never_collide sample_extname "/srv/uploads"
              (mkRequest "http" (Some "localhost:8080") twin_parts)
              (backend_state ∅) eq_refl)
    as (s' & stored & Hrun & _ & Hnames & Hdistinct).
  exists s', stored. split; [exact Hrun|]. intros fi fj Hi Hj.
  destruct (Hnames 0%nat fi Hi) as (p & Hp & Hoi & _).
  destruct (Hnames 1%nat fj Hj) as (q & Hq & Hoj & _).
  injection Hp as <-. injection Hq as <-.
  split; [exact Hoi|]. split; [exact Hoj|].
  apply (Hdistinct 0%nat 1%nat fi fj Hi Hj).
  - now rewrite Hoi, Hoj.
  - vm_compute. discriminate.
Defined.

End StoredNamesWitness.

(** ** Relay Assembler *)

Section Assembly.
Import Edge Payload.

Lemma appended_nil s : appended [] s = s.
Proof.
  destruct s as [w [fd b pf pfl]]. unfold appended, on_locals. simpl.
  now rewrite app_nil_r.
Qed.

Lemma appended_app es1 es2 s :
  appended es2 (appended es1 s) = appended (es1 ++ es2) s.
Proof.
  unfold appended, on_locals. simpl. now rewrite app_assoc.
Qed.

Lemma world_appended es s : world (appended es s) = world s.
Proof. reflexivity. Qed.

Lemma appended_cons e es s : appended es (appended [e] s) = appended (e :: es) s.
Proof. now rewrite appended_app. Qed.

Lemma formData_append_run e s : formData_append e s = (appended [e] s, Ret tt).
Proof. reflexivity. Qed.

Lemma append_values key vals : forall s,
  for_of vals (fun val => formData_append (TextEntry key val)) s
    = (appended (map (TextEntry key) vals) s, Ret tt).
Proof.
  induction vals as [|val rest IH]; intros s; cbn [for_of map].
  - now rewrite appended_nil.
  - rewrite (bind_ret_l _ _ _ _ _ (formData_append_run _ s)).
    now rewrite IH, appended_cons.
Qed.

Lemma append_field_run kv s :
  append_field kv s = (appended (field_entries kv) s, Ret tt).
Proof.
  destruct kv as [key [vals | [val |]]]; cbn [append_field field_entries].
  - apply append_values.
  - reflexivity.
  - unfold ret. now rewrite appended_nil.
Qed.

Lemma append_fields_run fields : forall s,
  for_of fields append_field s = (appended (flat_map field_entries fields) s, Ret tt).
Proof.
  induction fields as [|kv rest IH]; intros s; cbn [for_of flat_map].
  - now rewrite appended_nil.
  - rewrite (bind_ret_l _ _ _ _ _ (append_field_run kv s)).
    now rewrite IH, appended_app.
Qed.

(** One file, stream variant: never fails. *)
Lemma append_file_stream_run fieldName file index s :
  append_file_stream fieldName file index s =
    (appended (match file_entry ReadStream fieldName index file with
               | Some e => [e]
               | None => []
               end) s, Ret tt).
Proof.
  unfold append_file_stream, file_entry.
  destruct file as [f|]; [|unfold ret; now rewrite appended_nil].
  destruct (filepath f) as [p|] eqn:Hp; [|unfold ret; now rewrite appended_nil].
  destruct (Js.truthy (Some p)); [reflexivity|].
  unfold ret. now rewrite appended_nil.
Qed.

(** One file, buffer variant: needs the content to be readable. *)
Lemma append_file_blob_run fieldName file index s :
  readable_part (fs (world s)) file ->
  append_file_blob fieldName file index s =
    (appended (match file_entry (blob_at (fs (world s))) fieldName index file with
               | Some e => [e]
               | None => []
               end) s, Ret tt).
Proof.
  unfold append_file_blob, file_entry, readable_part.
  destruct file as [f|]; [|intros _; unfold ret; now rewrite appended_nil].
  destruct (filepath f) as [p|] eqn:Hp;
    [|intros _; unfold ret; now rewrite appended_nil].
  destruct (Js.truthy (Some p));
    [|intros _; unfold ret; now rewrite appended_nil].
  intros Hr. destruct (Hr eq_refl) as [b Hb].
  rewrite (bind_ret_l _ _ _ _ _ (read_readFileSync _ _ _ Hb)).
  unfold blob_at. rewrite Hb. reflexivity.
Qed.

Lemma entries_cons_app (o : option Entry) (es : list Entry) :
  (match o with Some e => [e] | None => [] end ++ es)%list
  = match o with Some e => e :: es | None => es end.
Proof. now destruct o. Qed.

Lemma forEach_stream_run fieldName l : forall index s,
  forEach_from index l (append_file_stream fieldName) s =
    (appended (file_entries_from ReadStream fieldName index l) s, Ret tt).
Proof.
  induction l as [|file rest IH]; intros index s;
    cbn [forEach_from file_entries_from].
  - unfold ret. now rewrite appended_nil.
  - rewrite (bind_ret_l _ _ _ _ _ (append_file_stream_run _ _ _ s)).
    rewrite IH, appended_app, entries_cons_app.
    now destruct (file_entry ReadStream fieldName index file).
Qed.

Lemma forEach_blob_run fieldName l : forall index s,
  Forall (readable_part (fs (world s))) l ->
  forEach_from index l (append_file_blob fieldName) s =
    (appended (file_entries_from (blob_at (fs (world s))) fieldName index l) s,
     Ret tt).
Proof.
  induction l as [|file rest IH]; intros index s Hall;
    cbn [forEach_from file_entries_from].
  - unfold ret. now rewrite appended_nil.
  - apply Forall_cons in Hall as [Hfile Hrest].
    rewrite (bind_ret_l _ _ _ _ _ (append_file_blob_run _ _ _ s Hfile)).
    rewrite IH by exact Hrest.
    rewrite world_appended, appended_app, entries_cons_app.
    now destruct (file_entry (blob_at (fs (world s))) fieldName index file).
Qed.

Lemma append_files_stream_run files : forall s,
  for_of files
    (fun kv => forEach (fileList (snd kv)) (append_file Stream (fst kv))) s =
  (appended
     (flat_map (fun kv => file_entries_from ReadStream (fst kv) 0 (fileList (snd kv)))
        files) s, Ret tt).
Proof.
  induction files as [|kv rest IH]; intros s; cbn [for_of flat_map].
  - unfold ret. now rewrite appended_nil.
  - unfold forEach at 1. cbn [append_file].
    rewrite (bind_ret_l _ _ _ _ _ (forEach_stream_run _ _ 0 s)).
    now rewrite IH, appended_app.
Qed.

Lemma append_files_blob_run files : forall s,
  all_parts_readable (fs (world s)) files ->
  for_of files
    (fun kv => forEach (fileList (snd kv)) (append_file Blob (fst kv))) s =
  (appended
     (flat_map (fun kv => file_entries_from (blob_at (fs (world s))) (fst kv) 0
                            (fileList (snd kv))) files) s, Ret tt).
Proof.
  induction files as [|kv rest IH]; intros s Hall; cbn [for_of flat_map].
  - unfold ret. now rewrite appended_nil.
  - apply Forall_cons in Hall as [Hkv Hrest].
    unfold forEach at 1. cbn [append_file].
    rewrite (bind_ret_l _ _ _ _ _ (forEach_blob_run _ _ 0 s Hkv)).
    rewrite IH by exact Hrest. now rewrite world_appended, appended_app.
Qed.

(** What each variant assembles. *)
Lemma assemble_stream_run fields files s :
  assemble Stream fields files s =
    (appended (payload_of ReadStream fields files) (reset s), Ret tt).
Proof.
  unfold assemble, payload_of. unfold bind at 1. unfold modify at 1.
  fold (reset s).
  rewrite (bind_ret_l _ _ _ _ _ (append_fields_run fields (reset s))).
  now rewrite append_files_stream_run, appended_app.
Qed.

Lemma assemble_blob_run fields files s :
  all_parts_readable (fs (world s)) files ->
  assemble Blob fields files s =
    (appended (payload_of (blob_at (fs (world s))) fields files) (reset s), Ret tt).
Proof.
  intros Hall. unfold assemble, payload_of. unfold bind at 1. unfold modify at 1.
  fold (reset s).
  rewrite (bind_ret_l _ _ _ _ _ (append_fields_run fields (reset s))).
  rewrite append_files_blob_run by exact Hall.
  now rewrite appended_app.
Qed.

End Assembly.

Section AssemblyClaims.
Import Edge Payload.

Lemma in_file_entries_from src fieldName l : forall index e,
  In e (file_entries_from src fieldName index l) <->
  exists i file, l !! i = Some file
                 /\ file_entry src fieldName (index + i) file = Some e.
Proof.
  induction l as [|file rest IH]; intros index e; cbn [file_entries_from].
  - split; [intros [] | intros (i & f & H & _); destruct i; discriminate].
  - assert (Hrest : In e (file_entries_from src fieldName (S index) rest) <->
              exists i f, (file :: rest) !! S i = Some f
                          /\ file_entry src fieldName (index + S i) f = Some e).
    { rewrite IH. split; intros (i & f & Hl & He); exists i, f; split;
        try exact Hl; now rewrite ?Nat.add_succ_r in *. }
    split.
    + intros Hin.
      destruct (file_entry src fieldName index file) as [e0|] eqn:He0.
      * destruct Hin as [<- | Hin].
        -- exists 0%nat, file. rewrite Nat.add_0_r. now split.
        -- apply Hrest in Hin as (i & f & Hl & He). now exists (S i), f.
      * apply Hrest in Hin as (i & f & Hl & He). now exists (S i), f.
    + intros (i & f & Hl & He). destruct i as [|i].
      * injection Hl as <-. rewrite Nat.add_0_r in He. rewrite He. now left.
      * assert (Hin : In e (file_entries_from src fieldName (S index) rest))
          by (apply Hrest; now exists i, f).
        destruct (file_entry src fieldName index file); [now right | exact Hin].
Qed.

Lemma field_entries_text kv e : In e (field_entries kv) -> exists k v, e = TextEntry k v.
Proof.
  destruct kv as [key [vals | [val |]]]; cbn [field_entries].
  - intros Hin. apply in_map_iff in Hin as (v & <- & _). now exists key, v.
  - intros [<- | []]. now exists key, val.
  - intros [].
Qed.

(** The file entries of an assembled payload are exactly those of the file
    parts with a temp path. *)
Lemma in_payload_file src fields files name s fname ct :
  In (FileEntry name s fname ct) (payload_of src fields files) <->
  exists fileArray index f p,
    In (name, fileArray) files
    /\ fileList fileArray !! index = Some (Some f)
    /\ filepath f = Some p /\ p <> ""
    /\ s = src p /\ fname = part_filename f index /\ ct = part_contentType f.
Proof.
  unfold payload_of. rewrite in_app_iff, !in_flat_map. split.
  - intros [(kv & _ & Hin) | (kv & Hkv & Hin)].
    + apply field_entries_text in Hin as (k & v & Habs). discriminate.
    + apply in_file_entries_from in Hin as (i & file & Hl & He).
      destruct kv as [fieldName fileArray]. cbn [fst snd] in *.
      unfold file_entry in He. destruct file as [f|]; [|discriminate].
      destruct (filepath f) as [p|] eqn:Hp; [|discriminate].
      destruct (Js.truthy (Some p)) eqn:Ht; [|discriminate].
      injection He as <- <- <- <-.
      exists fileArray, i, f, p. repeat split; try assumption; try reflexivity.
      intros ->. discriminate.
  - intros (fileArray & index & f & p & Hin & Hl & Hp & Hne & -> & -> & ->).
    right. exists (name, fileArray). split; [exact Hin|].
    apply in_file_entries_from. exists index, (Some f). split; [exact Hl|].
    cbn [fst file_entry]. rewrite Hp.
    assert (Ht : Js.truthy (Some p) = true).
    { cbn [Js.truthy]. apply negb_true_iff. now apply String.eqb_neq. }
    now rewrite Ht.
Qed.

(** C9. In the payload the stream middleware assembles, a file part with a
    temp path is appended under its field name with the client filename, or
    "file-<index>" (its index in the field's list) when that is absent, and
    with the declared type, or "application/octet-stream" when that is
    absent; a part without a temp path is skipped without an error, so every
    file entry of the payload stems from a part that has one. *)
Theorem C9_relay_part_defaults (fields : Fields) (files : Files)
    (s : State Locals) (fieldName : string) (fileArray : FilesValue) :
  In (fieldName, fileArray) files ->
  let s' := fst (assemble Stream fields files s) in
  snd (assemble Stream fields files s) = Ret tt
  /\ (forall index f p,
        fileList fileArray !! index = Some (Some f) ->
        filepath f = Some p -> p <> "" ->
        In (FileEntry fieldName (ReadStream p) (part_filename f index)
              (part_contentType f)) (formData (locals s'))
        /\ (originalFilename f = None ->
              part_filename f index = "file-" ++ Js.numToString (N.of_nat index))
        /\ (mimetype f = None ->
              part_contentType f = "application/octet-stream"))
  /\ (forall name src fname ct,
        In (FileEntry name src fname ct) (formData (locals s')) ->
        exists fv index f p,
          In (name, fv) files
          /\ fileList fv !! index = Some (Some f)
          /\ filepath f = Some p /\ p <> ""
          /\ src = ReadStream p).
Proof.
  intros Hin s'. subst s'. rewrite assemble_stream_run.
  cbn [fst snd]. unfold appended, reset, on_locals. cbn [locals formData app].
  split; [reflexivity|]. split.
  - intros index f p Hl Hp Hne. split; [|split].
    + apply in_payload_file. exists fileArray, index, f, p.
      repeat split; assumption || reflexivity.
    + intros Hnone. unfold part_filename. now rewrite Hnone.
    + intros Hnone. unfold part_contentType. now rewrite Hnone.
  - intros name src fname ct Hentry.
    apply in_payload_file in Hentry
      as (fv & index & f & p & H1 & H2 & H3 & H4 & H5 & _).
    now exists fv, index, f, p.
Qed.

End AssemblyClaims.

Section AssemblyWitness.
Import Edge Payload Samples.

Lemma C9_relay_part_defaults_witness :
  In ("images", FileArray [Some no_path; Some anonymous; Some named]) edge_files
  /\ In (FileEntry "images" (ReadStream "/tmp/up1") "file-1" "application/octet-stream")
       (formData (locals (fst (assemble Stream edge_fields edge_files
                                 (edge_state tmp_disk))))).
Proof.
  assert (Hin : In ("images", FileArray [Some no_path; Some anonymous; Some named])
                  edge_files) by (left; reflexivity).
  split; [exact Hin|].
  destruct (C9_relay_part_defaults edge_fields edge_files (edge_state tmp_disk)
              "images" (FileArray [Some no_path; Some anonymous; Some named]) Hin)
    as (_ & Hparts & _).
  destruct (Hparts 1%nat anonymous "/tmp/up1") as (Hentry & _).
  - reflexivity.
  - reflexivity.
  - discriminate.
  - exact Hentry.
Defined.

End AssemblyWitness.

Section VariantEquivalence.
Import Edge Payload.

Lemma realize_all_same f es1 es2 :
  Forall2 (same_on_wire f) es1 es2 ->
  exists ws, realize_all f es1 = inr ws /\ realize_all f es2 = inr ws.
Proof.
  induction 1 as [|e1 e2 r1 r2 (w & H1 & H2) _ (ws & Hr1 & Hr2)].
  - now exists [].
  - exists (w :: ws). cbn [realize_all]. now rewrite H1, H2, Hr1, Hr2.
Qed.

Lemma text_same_on_wire f fields :
  Forall2 (same_on_wire f) (flat_map field_entries fields)
    (flat_map field_entries fields).
Proof.
  apply Forall_Forall2_diag, Forall_forall. intros e He.
  apply list_elem_of_In, in_flat_map in He as (kv & _ & He).
  apply field_entries_text in He as (k & v & ->).
  now exists (WireText k v).
Qed.

Lemma files_same_on_wire f fieldName l : forall index,
  Forall (readable_part f) l ->
  Forall2 (same_on_wire f)
    (file_entries_from ReadStream fieldName index l)
    (file_entries_from (blob_at f) fieldName index l).
Proof.
  induction l as [|file rest IH]; intros index Hall; cbn [file_entries_from].
  - constructor.
  - apply Forall_cons in Hall as [Hfile Hrest].
    specialize (IH (S index) Hrest).
    unfold file_entry, readable_part in *.
    destruct file as [fl|]; [|exact IH].
    destruct (filepath fl) as [p|]; [|exact IH].
    destruct (Js.truthy (Some p)); [|exact IH].
    destruct (Hfile eq_refl) as [b Hb].
    constructor; [|exact IH].
    exists (WireFile fieldName (part_filename fl index) (part_contentType fl) b).
    unfold blob_at. cbn [realize]. now rewrite Hb.
Qed.

Lemma payload_same_on_wire f fields files :
  all_parts_readable f files ->
  Forall2 (same_on_wire f)
    (payload_of ReadStream fields files) (payload_of (blob_at f) fields files).
Proof.
  intros Hall. unfold payload_of. apply Forall2_app; [apply text_same_on_wire|].
  induction Hall as [|kv rest Hkv _ IH]; cbn [flat_map]; [constructor|].
  apply Forall2_app; [now apply files_same_on_wire | exact IH].
Qed.

(** C10. On the same parsed fields and files, with the temp files readable,
    the stream variant and the buffer variant both succeed, leave the world
    as it was, and assemble payloads that go out as the same list of parts:
    same names and values, same filenames, content types and bytes, in the
    same order. *)
Theorem C10_variants_same_payload (fields : Fields) (files : Files)
    (s : State Locals) :
  all_parts_readable (fs (world s)) files ->
  exists ss sb wire,
    assemble Stream fields files s = (ss, Ret tt)
    /\ assemble Blob fields files s = (sb, Ret tt)
    /\ world ss = world s /\ world sb = world s
    /\ length (formData (locals ss)) = length (formData (locals sb))
    /\ realize_all (fs (world s)) (formData (locals ss)) = inr wire
    /\ realize_all (fs (world s)) (formData (locals sb)) = inr wire.
Proof.
  intros Hall.
  pose proof (payload_same_on_wire (fs (world s)) fields files Hall) as Hsame.
  destruct (realize_all_same _ _ _ Hsame) as (wire & Hs & Hb).
  exists (appended (payload_of ReadStream fields files) (reset s)),
         (appended (payload_of (blob_at (fs (world s))) fields files) (reset s)),
         wire.
  split; [apply assemble_stream_run|].
  split; [now apply assemble_blob_run|].
  split; [reflexivity|]. split; [reflexivity|].
  unfold appended, reset, on_locals. cbn [locals formData app].
  split; [exact (Forall2_length _ _ _ Hsame)|]. split; assumption.
Qed.

End VariantEquivalence.

Section VariantWitness.
Import Edge Payload Samples.

Lemma C10_variants_same_payload_witness :
  exists ss sb wire,
    assemble Stream edge_fields edge_files (edge_state tmp_disk) = (ss, Ret tt)
    /\ assemble Blob edge_fields edge_files (edge_state tmp_disk) = (sb, Ret tt)
    /\ realize_all tmp_disk (formData (locals ss)) = inr wire
    /\ realize_all tmp_disk (formData (locals sb)) = inr wire.
Proof.
  destruct (C10_variants_same_payload edge_fields edge_files (edge_state tmp_disk))
    as (ss & sb & wire & H1 & H2 & _ & _ & _ & H3 & H4).
  - repeat constructor; cbn; intros _; eexists; vm_compute; reflexivity.
  - exists ss, sb, wire. repeat split; assumption.
Defined.

End VariantWitness.

(** ** Cleanup Guarantor and relay handlers *)

Section Cleanup.
Import Edge Payload.

Lemma cleanup_one (file : File) (s : State Locals) :
  exists s',
    (match filepath file with
     | Some p =>
         if Js.truthy (filepath file) then
           try_catch (NodeFs.unlinkSync p)
             (fun cleanupError =>
                console_warn ("⚠️ Failed to cleanup temp file on error: " ++ p))
         else ret tt
     | None => ret tt
     end) s = (s', Ret tt)
    /\ sent (world s') = sent (world s)
    /\ locals s' = locals s
    /\ (forall q, fs (world s') !! q = None \/ fs (world s') !! q = fs (world s) !! q)
    /\ (forall p, filepath file = Some p -> p <> "" ->
          deletable (fs (world s)) p -> fs (world s') !! p = None).
Proof.
  destruct (filepath file) as [p|] eqn:Hp.
  2:{ exists s. repeat split; try reflexivity; [now right | discriminate]. }
  destruct (Js.truthy (Some p)) eqn:Ht.
  2:{ exists s. repeat split; try reflexivity; [now right|].
      intros q [= <-] Hne. cbn [Js.truthy] in Ht.
      apply negb_false_iff, String.eqb_eq in Ht. contradiction. }
  unfold try_catch, NodeFs.unlinkSync, NodeFs.unlink, deletable.
  destruct (fs (world s) !! p) as [n|] eqn:Hl.
  - destruct (removable n) eqn:Hrm.
    + eexists. split; [reflexivity|]. cbn [world on_world set_fs fs sent locals].
      repeat split; try reflexivity.
      * intros q. destruct (decide (p = q)) as [<- | Hne].
        -- left. apply lookup_delete_eq.
        -- right. now apply lookup_delete_ne.
      * intros q [= <-] _ _. apply lookup_delete_eq.
    + eexists. split; [reflexivity|]. cbn.
      repeat split; try reflexivity; [now right|].
      intros q [= <-] _. rewrite Hl. congruence.
  - eexists. split; [reflexivity|]. cbn.
    repeat split; try reflexivity; [now right|].
    intros q [= <-] _ _. exact Hl.
Qed.

(** Cleanup never throws, sends nothing, and removes every temp file that
    can be removed. *)
Lemma cleanup_run reason (tempFiles : list File) : forall s : State Locals,
  exists s',
    cleanupTempFiles reason tempFiles s = (s', Ret tt)
    /\ sent (world s') = sent (world s)
    /\ (forall q, fs (world s') !! q = None \/ fs (world s') !! q = fs (world s) !! q)
    /\ (forall file p, In file tempFiles -> filepath file = Some p -> p <> "" ->
          deletable (fs (world s)) p -> fs (world s') !! p = None).
Proof.
  induction tempFiles as [|file rest IH]; intros s.
  - exists s. repeat split; try reflexivity; [now right | intros ? ? []].
  - destruct (cleanup_one file s) as (s1 & H1 & Hs1 & _ & Hmono1 & Hdel1).
    destruct (IH s1) as (s2 & H2 & Hs2 & Hmono2 & Hdel2).
    exists s2. split; [|split; [congruence | split]].
    + unfold cleanupTempFiles in *. cbn [for_of].
      now rewrite (bind_ret_l _ _ _ _ _ H1).
    + intros q. destruct (Hmono2 q) as [H | H]; [now left|].
      rewrite H. apply Hmono1.
    + intros g p [<- | Hin] Hp Hne Hd.
      * destruct (Hmono2 p) as [H | H]; [exact H|].
        rewrite H. now apply Hdel1.
      * apply (Hdel2 g p Hin Hp Hne). unfold deletable in *.
        destruct (Hmono1 p) as [H | H]; rewrite H; [exact I | exact Hd].
Qed.

End Cleanup.

Section Middleware.
Import Edge Payload.

Variable v : variant.
Variable req : Request.
Variable fields : Fields.
Variable files : Files.
Hypothesis parsed : parse_result req = inr (fields, files).

(** When [next] returns, cleanup runs on the parsed files. *)
Lemma middleware_next_returns next s s1 s3 :
  assemble v fields files s = (s1, Ret tt) ->
  next (attached fields files s1) = (s3, Ret tt) ->
  req_parsedFiles (locals s3) = Some (all_files files) ->
  createFormDataMiddleware v req next s =
    cleanupTempFiles "success" (all_files files) s3.
Proof.
  intros Hasm Hnext Hpf. unfold createFormDataMiddleware, form_parse.
  rewrite parsed. unfold try_catch.
  unfold bind at 1, ret at 1. cbn [fst snd].
  rewrite (bind_ret_l _ _ _ _ _ Hasm).
  unfold bind at 1, attach at 1, modify at 1. fold (attached fields files s1).
  rewrite (bind_ret_l _ _ _ _ _ Hnext).
  unfold bind at 1, get at 1. rewrite Hpf. cbn [default]. unfold id.
  destruct (cleanup_run "success" (all_files files) s3) as (s4 & H4 & _).
  now rewrite H4.
Qed.

(** When [next] throws, the [catch] answers 500 and nothing is cleaned up:
    the file system stays as [next] left it. *)
Lemma middleware_next_throws next s s1 s3 e :
  assemble v fields files s = (s1, Ret tt) ->
  next (attached fields files s1) = (s3, Throw e) ->
  createFormDataMiddleware v req next s =
    (on_world (add_sent (middleware_failure e))
       (on_world (add_console (Err, catch_label v ++ exn_message e)) s3), Ret tt).
Proof.
  intros Hasm Hnext. unfold createFormDataMiddleware, form_parse.
  rewrite parsed. unfold try_catch.
  unfold bind at 1, ret at 1. cbn [fst snd].
  rewrite (bind_ret_l _ _ _ _ _ Hasm).
  unfold bind at 1, attach at 1, modify at 1. fold (attached fields files s1).
  rewrite (bind_throw_l _ _ _ _ _ Hnext). reflexivity.
Qed.


End Middleware.

Section RelayHandlers.
Import Edge Payload PayloadShape.

Variable BACKEND_URL : option string.
Variable remote : string -> Body -> FetchResult.

Lemma not_other_method (req : Request) :
  method req = "POST" -> negb (String.eqb (method req) "POST") = false.
Proof. intros H. now rewrite H. Qed.

(** The relay callback once its [fetch] has settled with [reply]. *)
Lemma relay_call_eval do_fetch (s : State Locals) reply :
  do_fetch s = settle reply s ->
  relay_call do_fetch s =
    match reply with
    | NetworkError msg => (s, Throw (Error msg))
    | HttpReply code json =>
        if response_ok code then
          match json with
          | Some r => (on_world (add_sent (mkHttpResponse 200 r)) s, Ret tt)
          | None => (s, Throw (Error "Unexpected token in JSON"))
          end
        else
          (s, Throw (Error ("Backend responded with status: "
                            ++ Js.numToString code)))
    end.
Proof.
  intros Hf. unfold relay_call, bind. rewrite Hf.
  destruct reply as [msg | code json]; [reflexivity|].
  cbn [settle ret fst snd]. destruct (response_ok code); cbn [negb]; [|reflexivity].
  destruct json; reflexivity.
Qed.

Lemma relay_call_run do_fetch (s : State Locals) reply :
  do_fetch s = settle reply s ->
  match relayed reply with
  | Some r =>
      relay_call do_fetch s = (on_world (add_sent (mkHttpResponse 200 r)) s, Ret tt)
  | None => exists e, relay_call do_fetch s = (s, Throw e)
  end.
Proof.
  intros Hf. rewrite (relay_call_eval do_fetch s reply Hf).
  destruct reply as [msg | code [r|]]; cbn [relayed]; unfold response_ok.
  - eexists. reflexivity.
  - destruct ((200 <=? code) && (code <=? 299))%N; [reflexivity|].
    eexists. reflexivity.
  - destruct ((200 <=? code) && (code <=? 299))%N; eexists; reflexivity.
Qed.

(** node-fetch sends the parts when every stream can be read, and never
    settles otherwise. *)
Lemma node_fetch_settles url payload (s : State Locals) wire :
  realize_all (fs (world s)) payload = inr wire ->
  node_fetch remote url payload s = settle (remote url (Multipart wire)) s.
Proof. intros H. unfold node_fetch. now rewrite H. Qed.


(** The form of the buffer copy holds texts and blobs only: its parts are
    the same whoever serialises it. *)
Lemma blob_entries_realize f es :
  (forall e, In e es -> realize f e = inr (blob_part e)) ->
  realize_all f es = inr (map blob_part es).
Proof.
  induction es as [|e rest IH]; intros Hall; [reflexivity|].
  cbn [realize_all map]. rewrite (Hall e (or_introl eq_refl)).
  rewrite IH; [reflexivity|]. intros e' He'. apply Hall. now right.
Qed.

Lemma blob_payload_parts f f0 fields files :
  realize_all f (payload_of (blob_at f0) fields files)
  = inr (map blob_part (payload_of (blob_at f0) fields files)).
Proof.
  apply blob_entries_realize. intros e He. unfold payload_of in He.
  apply in_app_or in He as [He | He].
  - apply in_flat_map in He as (kv & _ & He).
    apply field_entries_text in He as (k & x & ->). reflexivity.
  - apply in_flat_map in He as (kv & _ & He).
    apply in_file_entries_from in He as (i & file & _ & He).
    unfold file_entry in He.
    destruct file as [fl|]; [|discriminate].
    destruct (filepath fl) as [p|]; [|discriminate].
    destruct (Js.truthy (Some p)); [|discriminate].
    injection He as <-. unfold blob_at.
    destruct (NodeFs.read f0 p); reflexivity.
Qed.

(** Either variant assembles, and what it assembled goes out as the parts
    of the stream payload. *)
Lemma assemble_readable v fields files (s : State Locals) :
  all_parts_readable (fs (world s)) files ->
  exists wire payload,
    realize_all (fs (world s)) (payload_of ReadStream fields files) = inr wire
    /\ assemble v fields files s = (appended payload (reset s), Ret tt)
    /\ realize_all (fs (world s)) payload = inr wire
    /\ body_init v (Some payload) = guarded_body v wire.
Proof.
  intros Hall.
  pose proof (payload_same_on_wire (fs (world s)) fields files Hall) as Hsame.
  destruct (realize_all_same _ _ _ Hsame) as (wire & Hs & Hb).
  exists wire. destruct v.
  - exists (payload_of ReadStream fields files).
    split; [exact Hs|]. split; [apply assemble_stream_run|].
    split; [exact Hs | reflexivity].
  - exists (payload_of (blob_at (fs (world s))) fields files).
    split; [exact Hs|]. split; [now apply assemble_blob_run|].
    split; [exact Hb|]. cbn [body_init guarded_body].
    rewrite blob_payload_parts in Hb. now injection Hb as ->.
Qed.

Lemma relayed_2xx code r reply :
  reply = HttpReply code (Some r) -> (200 <= code <= 299)%N ->
  relayed reply = Some r.
Proof.
  intros -> [H1 H2]. cbn [relayed].
  apply N.leb_le in H1, H2. now rewrite H1, H2.
Qed.

Lemma relayed_failure reply :
  (exists msg, reply = NetworkError msg)
  \/ (exists code json, reply = HttpReply code json /\ ~ (200 <= code <= 299)%N) ->
  relayed reply = None.
Proof.
  intros [(msg & ->) | (code & json & -> & Hno)]; [reflexivity|].
  cbn [relayed]. destruct json as [r|]; [|reflexivity].
  destruct (N.leb_spec 200 code), (N.leb_spec code 299); cbn [andb];
    try reflexivity.
  exfalso. apply Hno. now split.
Qed.

(** The guarded handler once the payload is assembled: whatever the reply,
    its callback returns and cleanup runs. *)
Lemma guarded_after_assembly v req fields files (s s1 : State Locals) :
  method req = "POST" ->
  parse_result req = inr (fields, files) ->
  assemble v fields files s = (s1, Ret tt) ->
  let s2 := attached fields files s1 in
  let call :=
    relay_call
      (global_fetch remote (backendUrl BACKEND_URL ++ "/api/upload")
         (body_init v (Some (formData (locals s1))))) in
  match relayed (remote (backendUrl BACKEND_URL ++ "/api/upload")
                   (body_init v (Some (formData (locals s1))))) with
  | Some r =>
      handler_guarded BACKEND_URL remote v req s
      = cleanupTempFiles "success" (all_files files)
          (on_world (add_sent (mkHttpResponse 200 r)) s2)
  | None =>
      exists e,
        call s2 = (s2, Throw e)
        /\ handler_guarded BACKEND_URL remote v req s
           = cleanupTempFiles "success" (all_files files) (refused_in e s2)
  end.
Proof.
  intros Hpost Hp Hasm s2 call.
  pose proof (relay_call_run
                (global_fetch remote (backendUrl BACKEND_URL ++ "/api/upload")
                   (body_init v (Some (formData (locals s1)))))
                s2 _ eq_refl) as Hrun.
  fold call in Hrun.
  destruct (relayed _) as [r|].
  - unfold handler_guarded. rewrite (not_other_method req Hpost).
    apply (middleware_next_returns v req fields files Hp _ s s1 _ Hasm);
      [|reflexivity].
    apply try_catch_ret. exact Hrun.
  - destruct Hrun as [e Hrun]. exists e. split; [exact Hrun|].
    unfold handler_guarded. rewrite (not_other_method req Hpost).
    apply (middleware_next_returns v req fields files Hp _ s s1
             (refused_in e s2) Hasm); [|reflexivity].
    apply try_catch_throw with (e := e) (s' := s2). exact Hrun.
Qed.

(** The awaiting handler behind the stream copy, once the payload is
    assembled and every stream can be read. *)
Lemma awaiting_after_assembly req fields files (s s1 : State Locals) wire :
  method req = "POST" ->
  parse_result req = inr (fields, files) ->
  assemble Stream fields files s = (s1, Ret tt) ->
  realize_all (fs (world s1)) (formData (locals s1)) = inr wire ->
  let s2 := attached fields files s1 in
  let call :=
    relay_call
      (node_fetch remote (backendUrl BACKEND_URL ++ "/api/upload")
         (formData (locals s1))) in
  match relayed (remote (backendUrl BACKEND_URL ++ "/api/upload") (Multipart wire)) with
  | Some r =>
      handler_awaiting BACKEND_URL remote Stream req s
      = cleanupTempFiles "success" (all_files files)
          (on_world (add_sent (mkHttpResponse 200 r)) s2)
  | None =>
      exists e,
        call s2 = (s2, Throw e)
        /\ handler_awaiting BACKEND_URL remote Stream req s
           = (failed_in Stream e s2, Ret tt)
  end.
Proof.
  intros Hpost Hp Hasm Hwire s2 call.
  assert (Hwire2 : realize_all (fs (world s2)) (formData (locals s1)) = inr wire)
    by exact Hwire.
  pose proof (relay_call_run _ s2 _
                (node_fetch_settles (backendUrl BACKEND_URL ++ "/api/upload")
                   (formData (locals s1)) s2 wire Hwire2)) as Hrun.
  fold call in Hrun.
  destruct (relayed _) as [r|].
  - set (s3 := on_world (add_sent (mkHttpResponse 200 r)) s2) in *.
    destruct (cleanup_run "success" (all_files files) s3) as (s4 & Hclean & _).
    unfold handler_awaiting. rewrite (not_other_method req Hpost), Hclean.
    apply try_catch_ret.
    rewrite (middleware_next_returns Stream req fields files Hp _ s s1 s3 Hasm);
      [exact Hclean | exact Hrun | reflexivity].
  - destruct Hrun as [e Hrun]. exists e. split; [exact Hrun|].
    unfold handler_awaiting. rewrite (not_other_method req Hpost).
    apply try_catch_ret.
    apply (middleware_next_throws Stream req fields files Hp _ s s1 s2 e Hasm).
    exact Hrun.
Qed.


(** The awaiting handler behind the buffer copy: [getHeaders] is missing,
    [next] throws before any call is made. *)
Lemma awaiting_without_getHeaders req fields files (s s1 : State Locals) :
  method req = "POST" ->
  parse_result req = inr (fields, files) ->
  assemble Blob fields files s = (s1, Ret tt) ->
  handler_awaiting BACKEND_URL remote Blob req s
  = (failed_in Blob no_getHeaders (attached fields files s1), Ret tt).
Proof.
  intros Hpost Hp Hasm.
  unfold handler_awaiting. rewrite (not_other_method req Hpost).
  apply try_catch_ret.
  apply (middleware_next_throws Blob req fields files Hp _ s s1
           (attached fields files s1) no_getHeaders Hasm).
  reflexivity.
Qed.

(** C7. For a POST whose body parses and whose temp files are readable, in
    every pairing of handler and middleware copy that reaches the backend
    (the awaiting handler behind the stream copy, the guarded handler behind
    either copy), with [reply] the backend's answer to the body that pairing
    sends: a 2xx reply with a JSON body is passed on unchanged with status
    200; a failed outbound call or a reply outside 2xx yields one 500 answer
    with success=false and no [files]. *)
Theorem C7_relay_outcome (v : variant) (req : Request) (fields : Fields)
    (uploads : Files) (s : State Locals) :
  method req = "POST" ->
  parse_result req = inr (fields, uploads) ->
  all_parts_readable (fs (world s)) uploads ->
  exists wire,
    realize_all (fs (world s)) (payload_of ReadStream fields uploads) = inr wire
    /\ let relays (handler : Request -> M (State Locals) unit) (sent_body : Body) :=
         let reply := remote (backendUrl BACKEND_URL ++ "/api/upload") sent_body in
         exists s',
           handler req s = (s', Ret tt)
           /\ (forall code r,
                 reply = HttpReply code (Some r) -> (200 <= code <= 299)%N ->
                 sent (world s') = (sent (world s) ++ [mkHttpResponse 200 r])%list)
           /\ ((exists msg, reply = NetworkError msg)
               \/ (exists code json,
                     reply = HttpReply code json /\ ~ (200 <= code <= 299)%N) ->
               exists b,
                 sent (world s') = (sent (world s) ++ [mkHttpResponse 500 b])%list
                 /\ success b = false /\ files b = None) in
       (v = Stream ->
        relays (handler_awaiting BACKEND_URL remote v) (Multipart wire))
       /\ relays (handler_guarded BACKEND_URL remote v) (guarded_body v wire).
Proof.
  intros Hpost Hparsed Hall.
  destruct (assemble_readable v fields uploads s Hall)
    as (wire & payload & Hwire & Hasm & Hpay & Hbody).
  exists wire. split; [exact Hwire|]. intros relays.
  set (s1 := appended payload (reset s)) in *.
  set (s2 := attached fields uploads s1).
  assert (Hno200 : forall reply, relayed reply = None -> forall code r,
            reply = HttpReply code (Some r) -> (200 <= code <= 299)%N -> False).
  { intros reply Hrel code r Hreply Hcode.
    rewrite (relayed_2xx code r reply Hreply Hcode) in Hrel. discriminate. }
  split.
  - (* the awaiting handler behind the stream copy *)
    intros ->. unfold relays.
    pose proof (awaiting_after_assembly req fields uploads s s1 wire Hpost Hparsed
                  Hasm Hpay) as Ha.
    cbv zeta in Ha. fold s2 in Ha.
    destruct (relayed (remote (backendUrl BACKEND_URL ++ "/api/upload")
                         (Multipart wire))) as [r0|] eqn:Hrel.
    + destruct (cleanup_run "success" (all_files uploads)
                  (on_world (add_sent (mkHttpResponse 200 r0)) s2))
        as (s4 & Hclean & Hsent4 & _).
      exists s4. split; [now rewrite Ha|]. split.
      * intros code r Hreply Hcode.
        rewrite (relayed_2xx code r _ Hreply Hcode) in Hrel.
        injection Hrel as <-. rewrite Hsent4. reflexivity.
      * intros Hfail. rewrite (relayed_failure _ Hfail) in Hrel. discriminate.
    + destruct Ha as (e & _ & Ha).
      exists (failed_in Stream e s2). split; [exact Ha|]. split.
      * intros code r Hreply Hcode. destruct (Hno200 _ Hrel code r Hreply Hcode).
      * intros _. eexists. split; [reflexivity|]. split; reflexivity.
  - (* the guarded handler *)
    unfold relays.
    pose proof (guarded_after_assembly v req fields uploads s s1 Hpost Hparsed Hasm)
      as Hg.
    cbv zeta in Hg. fold s2 in Hg.
    change (formData (locals s1)) with payload in Hg. rewrite Hbody in Hg.
    destruct (relayed (remote (backendUrl BACKEND_URL ++ "/api/upload")
                         (guarded_body v wire))) as [r0|] eqn:Hrel.
    + destruct (cleanup_run "success" (all_files uploads)
                  (on_world (add_sent (mkHttpResponse 200 r0)) s2))
        as (s4 & Hclean & Hsent4 & _).
      exists s4. split; [now rewrite Hg|]. split.
      * intros code r Hreply Hcode.
        rewrite (relayed_2xx code r _ Hreply Hcode) in Hrel.
        injection Hrel as <-. rewrite Hsent4. reflexivity.
      * intros Hfail. rewrite (relayed_failure _ Hfail) in Hrel. discriminate.
    + destruct Hg as (e & _ & Hg).
      destruct (cleanup_run "success" (all_files uploads) (refused_in e s2))
        as (s4 & Hclean & Hsent4 & _).
      exists s4. split; [now rewrite Hg|]. split.
      * intros code r Hreply Hcode. destruct (Hno200 _ Hrel code r Hreply Hcode).
      * intros _. eexists. split; [rewrite Hsent4; reflexivity|].
        split; reflexivity.
Qed.

End RelayHandlers.

Section CleanupClaims.
Import Edge Payload Samples.

(** On the path where [next] returns, every temp file that can be removed
    is removed. *)
Lemma temp_files_removed_when_next_returns v req fields files next s s1 s3 :
  parse_result req = inr (fields, files) ->
  assemble v fields files s = (s1, Ret tt) ->
  next (attached fields files s1) = (s3, Ret tt) ->
  req_parsedFiles (locals s3) = Some (all_files files) ->
  exists s4,
    createFormDataMiddleware v req next s = (s4, Ret tt)
    /\ forall file p, In file (all_files files) -> filepath file = Some p ->
         p <> "" -> deletable (fs (world s3)) p -> fs (world s4) !! p = None.
Proof.
  intros Hparsed Hasm Hnext Hpf.
  destruct (cleanup_run "success" (all_files files) s3) as (s4 & H4 & _ & _ & Hdel).
  exists s4. split; [|exact Hdel].
  now rewrite (middleware_next_returns v req fields files Hparsed next s s1 s3).
Qed.

(** C2, at a request with two temp files whose relay is answered 400 by the
    backend, behind the handler that lets [next] throw: the middleware's
    [catch] answers 500 and returns, [cleanupTempFiles] is never called, and
    both temp files are still on disk.  With a 2xx answer, or behind the
    handler that guards its callback, the same files are removed. *)
Theorem C2_temp_files_left_when_relay_throws :
  let after handler := fs (world (fst (handler edge_request (edge_state tmp_disk)))) in
  let failing := handler_awaiting None rejecting_backend Stream in
  (after failing !! "/tmp/up1" = Some (mkInode zero_bytes true true)
   /\ after failing !! "/tmp/up2" = Some (mkInode png_bytes true true)
   /\ map status (sent (world (fst (failing edge_request (edge_state tmp_disk)))))
      = [500%N])
  /\ (after (handler_awaiting None accepting_backend Stream) !! "/tmp/up1" = None
      /\ after (handler_awaiting None accepting_backend Stream) !! "/tmp/up2" = None)
  /\ (after (handler_guarded None rejecting_backend Stream) !! "/tmp/up1" = None
      /\ after (handler_guarded None rejecting_backend Stream) !! "/tmp/up2" = None).
Proof. vm_compute. repeat split; reflexivity. Qed.

Lemma C7_relay_outcome_witness :
  exists s',
    handler_awaiting None accepting_backend Stream edge_request (edge_state tmp_disk)
      = (s', Ret tt)
    /\ sent (world s') =
         [mkHttpResponse 200
            (mkUploadResponse true "Successfully uploaded 2 valid file(s)"
               (Some []) None)].
Proof.
  destruct (C7_relay_outcome None accepting_backend Stream edge_request
              edge_fields edge_files (edge_state tmp_disk))
    as (wire & _ & Hawaiting & _).
  - reflexivity.
  - reflexivity.
  - repeat constructor; cbn; intros _; eexists; vm_compute; reflexivity.
  - destruct (Hawaiting eq_refl) as (s' & Hrun & H200 & _).
    exists s'. split; [exact Hrun|].
    apply (H200 200%N). + reflexivity. + split; vm_compute; discriminate.
Defined.

End CleanupClaims.

(** * Further properties of the backend *)

(** ** The signature test on its own *)

Section SignatureTest.
Import Backend.

Lemma take8_signature_app (rest : list byte) : take 8 (PNG_SIGNATURE ++ rest) = PNG_SIGNATURE.
Proof. reflexivity. Qed.

(** X1. The signature test looks at the first 8 bytes only: a buffer passes
    exactly when its first 8 bytes pass, and whatever follows the 8 magic
    bytes, the buffer passes. *)
Theorem X1_only_the_first_eight_bytes_matter (buffer rest : list byte) :
  isPngByBytes buffer = isPngByBytes (take 8 buffer)
  /\ isPngByBytes (PNG_SIGNATURE ++ rest) = true.
Proof.
  split.
  - destruct (isPngByBytes buffer) eqn:E.
    + symmetry. apply isPngByBytes_spec in E as [Hlen Hsig].
      apply isPngByBytes_spec. rewrite length_take, take_take.
      split; [lia|]. now rewrite Nat.min_id.
    + destruct (isPngByBytes (take 8 buffer)) eqn:E'; [|reflexivity].
      apply isPngByBytes_spec in E' as [Hlen Hsig].
      rewrite length_take in Hlen. rewrite take_take, Nat.min_id in Hsig.
      assert (isPngByBytes buffer = true)
        by (apply isPngByBytes_spec; split; [lia | exact Hsig]).
      congruence.
  - apply isPngByBytes_spec. split; [|apply take8_signature_app].
    rewrite length_app. simpl. lia.
Qed.

(** X2. Overwriting any one of the first 8 bytes with a value other than
    the magic byte of that position makes the test fail, whatever the
    buffer is. *)
Theorem X2_one_wrong_magic_byte_rejects (buffer : list byte) (i : nat) (b : byte) :
  (i < 8)%nat ->
  PNG_SIGNATURE !! i <> Some b ->
  isPngByBytes (<[i := b]> buffer) = false.
Proof.
  intros Hi Hb. destruct (isPngByBytes (<[i := b]> buffer)) eqn:E; [|reflexivity].
  exfalso. apply isPngByBytes_spec in E as [Hlen Hsig].
  rewrite length_insert in Hlen. apply Hb.
  rewrite <- Hsig, lookup_take_lt by exact Hi.
  apply list_lookup_insert_eq. lia.
Qed.

End SignatureTest.

Lemma X2_one_wrong_magic_byte_rejects_witness :
  (3 < 8)%nat
  /\ Backend.PNG_SIGNATURE !! 3%nat <> Some x00
  /\ Backend.isPngByBytes (<[3%nat := x00]> Samples.png_bytes) = false.
Proof.
  split; [lia|]. split; [discriminate|].
  apply (X2_one_wrong_magic_byte_rejects Samples.png_bytes 3 x00); [lia | discriminate].
Defined.

(** ** The validation loop on arbitrary input *)

Section LoopInGeneral.
Import Backend Verdict.

Lemma verdicts_per_file f file :
  let a := if passes f file then 1%nat else 0%nat in
  (1 <= a + length (reasons f file) <= 2)%nat.
Proof.
  unfold passes, reasons.
  destruct (NodeFs.read f (path file)) as [e | buffer]; [simpl; lia|].
  destruct (String.eqb (mimetype file) "image/png"); [|simpl; lia].
  destruct (isPngByBytes buffer); [simpl; lia|].
  destruct (NodeFs.unlink f (path file)); simpl; lia.
Qed.

Lemma loop_lists files : forall s,
  exists s' sub rs,
    validation_loop files s = (s', Ret tt)
    /\ validFiles (locals s') = (validFiles (locals s) ++ sub)%list
    /\ invalidFiles (locals s') = (invalidFiles (locals s) ++ rs)%list
    /\ sub `sublist_of` files
    /\ (length files <= length sub + length rs <= 2 * length files)%nat
    /\ sent (world s') = sent (world s)
    /\ uuid_source (world s') = uuid_source (world s)
    /\ uuid_drawn (world s') = uuid_drawn (world s).
Proof.
  induction files as [|file rest IH]; intros s.
  - exists s, [], []. rewrite !app_nil_r. repeat split; try reflexivity; simpl; lia.
  - destruct (validate_file_effect file s)
      as (s1 & H1 & Hv1 & Hi1 & _ & Hs1 & Hu1 & Hd1).
    destruct (IH s1) as (s2 & sub & rs & H2 & Hv2 & Hi2 & Hsub & Hlen & Hs2 & Hu2 & Hd2).
    pose proof (verdicts_per_file (fs (world s)) file) as Hone. simpl in Hone.
    exists s2, ((if passes (fs (world s)) file then [file] else []) ++ sub)%list,
      (reasons (fs (world s)) file ++ rs)%list.
    rewrite (validation_loop_cons _ _ _ _ H1). split; [exact H2|].
    rewrite Hv2, Hv1, Hi2, Hi1, <- !app_assoc.
    split; [reflexivity|]. split; [reflexivity|]. split; [|split].
    + destruct (passes (fs (world s)) file); simpl.
      * now apply sublist_skip.
      * now apply sublist_cons.
    + rewrite !length_app. simpl length.
      destruct (passes (fs (world s)) file); simpl length in *; lia.
    + repeat split; congruence.
Qed.

(** X3. Whatever the files and the disk are, the loop ends without an
    exception and records at least one and at most two verdicts per file;
    no more files are accepted than were received. *)
Theorem X3_verdicts_between_n_and_2n (received : list File) (s : State Locals) :
  exists s' accepted rejected,
    validation_loop received s = (s', Ret tt)
    /\ length (validFiles (locals s')) = (length (validFiles (locals s)) + accepted)%nat
    /\ length (invalidFiles (locals s')) = (length (invalidFiles (locals s)) + rejected)%nat
    /\ (accepted <= length received)%nat
    /\ (length received <= accepted + rejected <= 2 * length received)%nat.
Proof.
  destruct (loop_lists received s)
    as (s' & sub & rs & H & Hv & Hi & Hsub & Hlen & _).
  exists s', (length sub), (length rs). split; [exact H|].
  rewrite Hv, Hi, !length_app. repeat split; try lia.
  now apply sublist_length.
Qed.

(** X4. The accepted list only grows, by files of the request in the order
    they were received; the rejection list only grows. *)
Theorem X4_accepted_is_a_subsequence (received : list File) (s : State Locals) :
  exists s' sub rs,
    validation_loop received s = (s', Ret tt)
    /\ validFiles (locals s') = (validFiles (locals s) ++ sub)%list
    /\ sub `sublist_of` received
    /\ invalidFiles (locals s') = (invalidFiles (locals s) ++ rs)%list.
Proof.
  destruct (loop_lists received s)
    as (s' & sub & rs & H & Hv & Hi & Hsub & _).
  now exists s', sub, rs.
Qed.

(** One iteration and the disk. *)
Lemma validate_file_disk file s :
  exists s', validate_file file s = (s', Ret tt)
    /\ (passes (fs (world s)) file = true -> fs (world s') = fs (world s))
    /\ (passes (fs (world s)) file = false ->
        Payload.deletable (fs (world s)) (path file) ->
        fs (world s') !! path file = None)
    /\ (forall q, q <> path file -> fs (world s') !! q = fs (world s) !! q)
    /\ (forall q, fs (world s') !! q = None \/ fs (world s') !! q = fs (world s) !! q).
Proof.
  assert (Hdel : forall n, fs (world s) !! path file = Some n -> removable n = true ->
            NodeFs.unlink (fs (world s)) (path file) = inr (delete (path file) (fs (world s)))).
  { intros n Hl Hr. unfold NodeFs.unlink. now rewrite Hl, Hr. }
  assert (Hframe : forall q, delete (path file) (fs (world s)) !! q = None
                   \/ delete (path file) (fs (world s)) !! q = fs (world s) !! q).
  { intros q. destruct (decide (path file = q)) as [<- | Hne].
    - left. apply lookup_delete_eq.
    - right. now apply lookup_delete_ne. }
  unfold passes, Payload.deletable.
  destruct (NodeFs.read (fs (world s)) (path file)) as [e | buffer] eqn:Hr.
  - eexists. split; [apply (validate_read_fail _ _ _ Hr)|].
    unfold NodeFs.unlink.
    destruct (fs (world s) !! path file) as [n|] eqn:Hl;
      [destruct (removable n) eqn:Hrm|]; simpl.
    + split; [discriminate|]. split; [intros _ _; apply lookup_delete_eq|].
      split; [intros q Hq; now apply lookup_delete_ne | exact Hframe].
    + split; [discriminate|]. split; [intros _ Hd; rewrite Hl; congruence|].
      split; [reflexivity | now right].
    + split; [discriminate|]. split; [intros _ _; exact Hl|].
      split; [reflexivity | now right].
  - destruct (String.eqb_spec (mimetype file) "image/png") as [Hm | Hm].
    + destruct (isPngByBytes buffer) eqn:Hp.
      * eexists. split; [apply (validate_png_ok _ _ _ Hr Hm Hp)|]. simpl.
        split; [reflexivity|]. split; [discriminate|].
        split; [reflexivity | now right].
      * destruct (NodeFs.unlink (fs (world s)) (path file)) as [e | f'] eqn:Hu.
        -- eexists. split; [apply (validate_png_bad_stuck _ _ _ _ Hr Hm Hp Hu)|].
           simpl. split; [discriminate|]. split.
           ++ intros _ Hd. destruct (fs (world s) !! path file) as [n|] eqn:Hl;
                [|reflexivity].
              discriminate (Hdel n eq_refl Hd).
           ++ split; [reflexivity | now right].
        -- eexists. split; [apply (validate_png_bad _ _ _ _ Hr Hm Hp Hu)|].
           simpl. unfold NodeFs.unlink in Hu.
           destruct (fs (world s) !! path file) as [n|]; [|discriminate].
           destruct (removable n); [|discriminate]. injection Hu as <-.
           split; [discriminate|]. split; [intros _ _; apply lookup_delete_eq|].
           split; [intros q Hq; now apply lookup_delete_ne | exact Hframe].
    + eexists. split; [apply (validate_other_ok _ _ _ Hr Hm)|]. simpl.
      split; [reflexivity|]. split; [discriminate|].
      split; [reflexivity | now right].
Qed.

Lemma loop_only_deletes files : forall s,
  exists s', validation_loop files s = (s', Ret tt)
    /\ forall q, fs (world s') !! q = None \/ fs (world s') !! q = fs (world s) !! q.
Proof.
  induction files as [|file rest IH]; intros s.
  - exists s. split; [reflexivity | now right].
  - destruct (validate_file_disk file s) as (s1 & H1 & _ & _ & _ & Hmono1).
    destruct (IH s1) as (s2 & H2 & Hmono2).
    exists s2. rewrite (validation_loop_cons _ _ _ _ H1). split; [exact H2|].
    intros q. destruct (Hmono2 q) as [H | H]; [now left|].
    rewrite H. apply Hmono1.
Qed.

End LoopInGeneral.

Section LoopAndDisk.
Import Backend Verdict.

Lemma deletable_ext f f' p :
  f !! p = f' !! p -> Payload.deletable f p -> Payload.deletable f' p.
Proof. unfold Payload.deletable. now intros <-. Qed.

Lemma loop_disk files : forall s f0,
  NoDup (map path files) ->
  (forall file, In file files -> fs (world s) !! path file = f0 !! path file) ->
  exists s', validation_loop files s = (s', Ret tt)
    /\ (forall file, In file files -> passes f0 file = true ->
          fs (world s') !! path file = f0 !! path file)
    /\ (forall file, In file files -> passes f0 file = false ->
          Payload.deletable f0 (path file) -> fs (world s') !! path file = None)
    /\ (forall q, (forall file, In file files -> q <> path file) ->
          fs (world s') !! q = fs (world s) !! q).
Proof.
  induction files as [|file rest IH]; intros s f0 Hnd Hfs.
  - exists s. repeat split; try reflexivity; intros ? [].
  - destruct (validate_file_disk file s) as (s1 & H1 & Hpass & Hrej & Hother & _).
    simpl in Hnd. apply NoDup_cons in Hnd as [Hnotin Hnd].
    assert (Hdiff : forall g, In g rest -> path g <> path file).
    { intros g Hg Heq. apply Hnotin. rewrite <- Heq.
      apply list_elem_of_In. now apply in_map. }
    assert (Hhere : fs (world s) !! path file = f0 !! path file)
      by (apply Hfs; now left).
    destruct (IH s1 f0 Hnd) as (s2 & H2 & Hp2 & Hr2 & Ho2).
    { intros g Hg. rewrite Hother by now apply Hdiff. apply Hfs. now right. }
    exists s2. rewrite (validation_loop_cons _ _ _ _ H1). split; [exact H2|].
    assert (Hkeep : fs (world s2) !! path file = fs (world s1) !! path file).
    { apply Ho2. intros g Hg Heq. now apply (Hdiff g Hg). }
    split; [|split].
    + intros g [<- | Hg] Hpg; [|now apply Hp2].
      rewrite Hkeep, <- Hhere.
      rewrite Hpass; [reflexivity|]. now rewrite (passes_ext _ _ _ Hhere).
    + intros g [<- | Hg] Hpg Hd; [|now apply Hr2].
      rewrite Hkeep. apply Hrej.
      * now rewrite (passes_ext _ _ _ Hhere).
      * apply (deletable_ext f0); [now symmetry | exact Hd].
    + intros q Hq. rewrite Ho2.
      * apply Hother. apply Hq. now left.
      * intros g Hg. apply Hq. now right.
Qed.

(** X5. The loop never creates or alters a file, it only removes.  For
    files stored under pairwise distinct paths: every file that passes is
    still on disk as it was, every rejected file whose temp file can be
    removed is gone, and paths of no received file are untouched. *)
Theorem X5_disk_after_validation (received : list File) (s : State Locals) :
  NoDup (map path received) ->
  exists s',
    validation_loop received s = (s', Ret tt)
    /\ (forall q, fs (world s') !! q = None \/ fs (world s') !! q = fs (world s) !! q)
    /\ (forall file, In file received -> passes (fs (world s)) file = true ->
          fs (world s') !! path file = fs (world s) !! path file)
    /\ (forall file, In file received -> passes (fs (world s)) file = false ->
          Payload.deletable (fs (world s)) (path file) ->
          fs (world s') !! path file = None)
    /\ (forall q, (forall file, In file received -> q <> path file) ->
          fs (world s') !! q = fs (world s) !! q).
Proof.
  intros Hnd.
  destruct (loop_disk received s (fs (world s)) Hnd) as (s' & H & Hp & Hr & Ho);
    [reflexivity|].
  destruct (loop_only_deletes received s) as (s'' & H' & Hmono).
  rewrite H in H'. injection H' as <-.
  exists s'. repeat split; assumption.
Qed.

End LoopAndDisk.

Section LoopAndDiskWitness.
Import Backend Verdict Samples.

Lemma X5_disk_after_validation_witness :
  exists s',
    validation_loop [good_png; fake_png] (backend_state disk) = (s', Ret tt)
    /\ fs (world s') !! path good_png = Some (mkInode png_bytes true true)
    /\ fs (world s') !! path fake_png = None.
Proof.
  destruct (X5_disk_after_validation [good_png; fake_png] (backend_state disk))
    as (s' & H & _ & Hkeep & Hgone & _).
  - vm_compute. repeat constructor; (intros Hin; inversion Hin; subst;
      try discriminate; match goal with H : _ ∈ [] |- _ => inversion H
                        | H : _ ∈ [_] |- _ => inversion H; subst; try discriminate
                        end).
  - exists s'. split; [exact H|]. split.
    + rewrite (Hkeep good_png); [reflexivity | now left | reflexivity].
    + apply (Hgone fake_png); [right; now left | reflexivity | reflexivity].
Defined.

End LoopAndDiskWitness.

(** ** The upload route on arbitrary input *)

Section RouteInGeneral.
Import Backend Verdict.

Lemma map_m_describe_drawn proto hst valid : forall s,
  exists s',
    map_m (describe proto hst) valid s =
      (s', Ret (descriptors proto hst (uuid_source (world s))
                  (uuid_drawn (world s)) valid))
    /\ sent (world s') = sent (world s)
    /\ uuid_drawn (world s') = (uuid_drawn (world s) + length valid)%nat.
Proof.
  induction valid as [|file rest IH]; intros s.
  - exists s. repeat split; try reflexivity. simpl. lia.
  - destruct (IH (on_world draw_uuid s)) as (s' & H & Hs & Hd).
    exists s'. split; [|split; [exact Hs|]].
    + simpl. unfold bind at 1. unfold describe at 1, bind at 1, uuidv4, ret at 1.
      unfold bind at 1. rewrite H. reflexivity.
    + rewrite Hd. simpl. lia.
Qed.

Lemma upload_route_answer proto hst received (s : State Locals) :
  received <> [] ->
  exists s' r valid,
    upload_route proto hst (Some received) s = (s', Ret tt)
    /\ sent (world s') = (sent (world s) ++ [r])%list
    /\ valid `sublist_of` received
    /\ uuid_drawn (world s') = (uuid_drawn (world s) + length valid)%nat
    /\ ((valid = [] /\ status r = 400%N /\ success (body r) = false
         /\ files (body r) = None /\ is_Some (error (body r)))
        \/ (valid <> [] /\ status r = 200%N /\ success (body r) = true
            /\ error (body r) = None
            /\ files (body r) =
                 Some (descriptors proto hst (uuid_source (world s))
                         (uuid_drawn (world s)) valid))).
Proof.
  intros Hne.
  set (s0 := on_locals (fun _ => mkLocals [] []) s).
  destruct (loop_lists received s0)
    as (s1 & valid & rs & Hloop & Hv & Hi & Hsub & _ & Hs & Hu & Hd).
  simpl in Hv, Hi, Hs, Hu, Hd.
  assert (Hlen : (length received =? 0)%nat = false).
  { destruct received; [congruence | reflexivity]. }
  destruct valid as [|a acc].
  - exists (on_world (add_sent (mkHttpResponse 400
              (mkUploadResponse false
                 "No valid files uploaded. All files failed validation." None
                 (Some (Js.join ", " rs))))) s1).
    eexists. exists []. split; [|split; [|split; [|split]]].
    + unfold upload_route. apply try_catch_ret. rewrite Hlen.
      unfold bind at 1. unfold modify at 1. fold s0.
      unfold bind at 1. rewrite Hloop.
      unfold bind at 1, get at 1. rewrite Hv, Hi. reflexivity.
    + simpl. now rewrite Hs.
    + exact Hsub.
    + simpl. rewrite Hd. lia.
    + left. repeat split; try reflexivity. now eexists.
  - destruct (map_m_describe_drawn proto hst (a :: acc) s1) as (s2 & Hmap & Hs2 & Hd2).
    rewrite Hu, Hd in Hmap.
    exists (on_world (add_sent (mkHttpResponse 200
              (mkUploadResponse true (success_message (a :: acc) rs)
                 (Some (descriptors proto hst (uuid_source (world s))
                          (uuid_drawn (world s)) (a :: acc))) None))) s2).
    eexists. exists (a :: acc). split; [|split; [|split; [|split]]].
    + unfold upload_route. apply try_catch_ret. rewrite Hlen.
      unfold bind at 1. unfold modify at 1. fold s0.
      unfold bind at 1. rewrite Hloop.
      unfold bind at 1, get at 1. rewrite Hv, Hi.
      cbn [length Nat.eqb]. unfold bind at 1. rewrite Hmap. reflexivity.
    + simpl. now rewrite Hs2, Hs.
    + exact Hsub.
    + simpl. rewrite Hd2, Hd. reflexivity.
    + right. repeat split; try reflexivity. discriminate.
Qed.

(** X6. The route answers every request exactly once and never with 500:
    it returns normally with one response, either 400 with success=false
    and no [files], or 200 with success=true and a non-empty [files]; when
    [req.files] is undefined or empty the answer is 400 "No files uploaded"
    and nothing else happens. *)
Theorem X6_route_answers_once_with_200_or_400 (proto : string)
    (hst : option string) (req_files : option (list File)) (s : State Locals) :
  exists s' r,
    upload_route proto hst req_files s = (s', Ret tt)
    /\ sent (world s') = (sent (world s) ++ [r])%list
    /\ ((status r = 400%N /\ success (body r) = false /\ files (body r) = None)
        \/ (status r = 200%N /\ success (body r) = true
            /\ exists fileData, files (body r) = Some fileData /\ fileData <> []))
    /\ (req_files = None \/ req_files = Some [] ->
        s' = on_world (add_sent (mkHttpResponse 400
                (mkUploadResponse false "No files uploaded" None None))) s).
Proof.
  destruct req_files as [[|file rest]|].
  - eexists. eexists. split; [reflexivity|]. split; [reflexivity|].
    split; [left; repeat split; reflexivity | reflexivity].
  - destruct (upload_route_answer proto hst (file :: rest) s)
      as (s' & r & valid & H & Hsent & _ & _ & Hcase); [discriminate|].
    exists s', r. split; [exact H|]. split; [exact Hsent|]. split.
    + destruct Hcase as [(_ & Hst & Hsu & Hf & _) | (Hne & Hst & Hsu & _ & Hf)].
      * left. now repeat split.
      * right. split; [exact Hst|]. split; [exact Hsu|].
        eexists. split; [exact Hf|]. destruct valid; [congruence | discriminate].
    + intros [Habs | Habs]; discriminate.
  - eexists. eexists. split; [reflexivity|]. split; [reflexivity|].
    split; [left; repeat split; reflexivity | reflexivity].
Qed.

Lemma descriptors_ids proto hst ids valid : forall n,
  map sf_id (descriptors proto hst ids n valid) = map ids (seq n (length valid)).
Proof.
  induction valid as [|file rest IH]; intros n; [reflexivity|].
  simpl. now rewrite IH.
Qed.

Lemma descriptors_urls proto hst ids valid : forall n,
  Forall (fun d => sf_url d = proto ++ "://" ++ Js.interp hst ++ "/uploads/"
                              ++ sf_filename d)
    (descriptors proto hst ids n valid).
Proof.
  induction valid as [|file rest IH]; intros n; constructor; [reflexivity | apply IH].
Qed.

(** X8. When [uuidv4] never returns the same value twice, the ids in a
    response are pairwise distinct; each descriptor's URL is the request's
    protocol and host, "/uploads/" and the stored filename; and the route
    draws exactly one id per file it lists. *)
Theorem X8_response_ids_distinct (proto : string) (hst : option string)
    (received : list File) (s : State Locals) :
  (forall i j, uuid_source (world s) i = uuid_source (world s) j -> i = j) ->
  exists s' r,
    upload_route proto hst (Some received) s = (s', Ret tt)
    /\ sent (world s') = (sent (world s) ++ [r])%list
    /\ forall fileData, files (body r) = Some fileData ->
         NoDup (map sf_id fileData)
         /\ Forall (fun d => sf_url d = proto ++ "://" ++ Js.interp hst
                                        ++ "/uploads/" ++ sf_filename d) fileData
         /\ uuid_drawn (world s') = (uuid_drawn (world s) + length fileData)%nat.
Proof.
  intros Hinj. destruct received as [|file rest].
  - eexists. eexists. split; [reflexivity|]. split; [reflexivity|].
    intros fileData Habs. discriminate.
  - destruct (upload_route_answer proto hst (file :: rest) s)
      as (s' & r & valid & H & Hsent & _ & Hd & Hcase); [discriminate|].
    exists s', r. split; [exact H|]. split; [exact Hsent|].
    intros fileData Hf.
    destruct Hcase as [(_ & _ & _ & Hnone & _) | (_ & _ & _ & _ & Hsome)];
      [congruence|].
    rewrite Hsome in Hf. injection Hf as <-. split; [|split].
    + rewrite descriptors_ids. apply NoDup_fmap_2; [|apply NoDup_seq].
      intros i j. apply Hinj.
    + apply descriptors_urls.
    + rewrite Hd. f_equal. clear.
      generalize (uuid_drawn (world s)).
      induction valid as [|a l IH]; intros n; [reflexivity|].
      simpl. now rewrite <- IH.
Qed.

End RouteInGeneral.

Section RouteWitness.
Import Backend Verdict Samples.

Lemma numToString_of_nat_inj (i j : nat) : ids i = ids j -> i = j.
Proof.
  unfold ids. intros H. injection H as H.
  apply numToString_inj in H. lia.
Qed.

Lemma X8_response_ids_distinct_witness :
  exists s' r,
    upload_route "http" (Some "localhost:8080") (Some [good_png; fake_png])
      (backend_state disk) = (s', Ret tt)
    /\ sent (world s') = [r]
    /\ forall fileData, files (body r) = Some fileData -> NoDup (map sf_id fileData).
Proof.
  destruct (X8_response_ids_distinct "http" (Some "localhost:8080")
              [good_png; fake_png] (backend_state disk))
    as (s' & r & H & Hsent & Hprop).
  - intros i j. apply numToString_of_nat_inj.
  - exists s', r. split; [exact H|]. split; [exact Hsent|].
    intros fileData Hf. now destruct (Hprop fileData Hf).
Defined.

End RouteWitness.

(** ** The whole upload pipeline *)

Section PipelineInGeneral.
Import Backend Verdict.

Variable extname : string -> string.
Variable uploadsDir : string.




End PipelineInGeneral.

(** * Properties of the gallery routes *)

Section GalleryProperties.
Import Gallery.

Variable path_join : string -> string -> string.
Variable extname : string -> string.
Variable readdir : gmap string inode -> string -> exn + list string.
Variable birthtime : string -> N.
Variable uploadsDir : string.

Lemma delete_image_run {L} (filename : string) (s : State L) :
  let p := path_join uploadsDir filename in
  exists s' r,
    delete_image path_join uploadsDir filename s = (s', Ret tt)
    /\ sent (world s') = (sent (world s) ++ [r])%list
    /\ (forall q, q <> p -> fs (world s') !! q = fs (world s) !! q)
    /\ match fs (world s) !! p with
       | None =>
           r = mkHttpResponse 404 (mkUploadResponse false "File not found" None None)
           /\ fs (world s') = fs (world s)
       | Some n =>
           if removable n then
             r = mkHttpResponse 200
                   (mkUploadResponse true "File deleted successfully" None None)
             /\ fs (world s') = delete p (fs (world s))
           else
             status r = 500%N /\ success (body r) = false
             /\ message (body r) = "Error deleting file"
             /\ fs (world s') = fs (world s)
       end.
Proof.
  intros p. unfold delete_image, try_catch, bind at 1, existsSync. fold p.
  unfold bind, NodeFs.unlinkSync, NodeFs.unlink, res_status_json, console_error,
    modify.
  destruct (fs (world s) !! p) as [n|] eqn:Hl; cbn [negb].
  - rewrite Hl. destruct (removable n); cbn.
    + eexists. eexists. split; [reflexivity|]. split; [reflexivity|].
      split; [|split; reflexivity].
      intros q Hq. now apply lookup_delete_ne.
    + eexists. eexists. split; [reflexivity|]. split; [reflexivity|].
      split; [reflexivity|]. repeat split; reflexivity.
  - cbn. eexists. eexists. split; [reflexivity|]. split; [reflexivity|].
    split; [reflexivity|]. split; reflexivity.
Qed.

(** X11. [DELETE /api/images/:filename] answers exactly once and touches
    no path but the one it names: 404 "File not found" and an unchanged disk
    when the file is absent; 200 and the file gone when it can be removed;
    500 "Error deleting file" and an unchanged disk when the removal
    fails. *)
Theorem X11_delete_answers_and_touches_one_path {L} (filename : string)
    (s : State L) :
  let p := path_join uploadsDir filename in
  exists s' r,
    delete_image path_join uploadsDir filename s = (s', Ret tt)
    /\ sent (world s') = (sent (world s) ++ [r])%list
    /\ (forall q, q <> p -> fs (world s') !! q = fs (world s) !! q)
    /\ match fs (world s) !! p with
       | None =>
           r = mkHttpResponse 404 (mkUploadResponse false "File not found" None None)
           /\ fs (world s') = fs (world s)
       | Some n =>
           if removable n then
             r = mkHttpResponse 200
                   (mkUploadResponse true "File deleted successfully" None None)
             /\ fs (world s') = delete p (fs (world s))
           else
             status r = 500%N /\ success (body r) = false
             /\ message (body r) = "Error deleting file"
             /\ fs (world s') = fs (world s)
       end.
Proof. exact (delete_image_run filename s). Qed.

(** X12. Deleting a file that is there and can be removed, then asking
    again: the first request answers 200, the second 404, and the second
    changes nothing on disk. *)
Theorem X12_second_delete_is_not_found {L} (filename : string) (s : State L)
    (n : inode) :
  fs (world s) !! path_join uploadsDir filename = Some n ->
  removable n = true ->
  exists s1 s2,
    delete_image path_join uploadsDir filename s = (s1, Ret tt)
    /\ delete_image path_join uploadsDir filename s1 = (s2, Ret tt)
    /\ map status (sent (world s2)) = (map status (sent (world s)) ++ [200%N; 404%N])%list
    /\ fs (world s1) !! path_join uploadsDir filename = None
    /\ fs (world s2) = fs (world s1).
Proof.
  intros Hl Hr.
  destruct (delete_image_run filename s) as (s1 & r1 & H1 & Hs1 & _ & Hcase1).
  rewrite Hl, Hr in Hcase1. destruct Hcase1 as [-> Hfs1].
  assert (Hgone : fs (world s1) !! path_join uploadsDir filename = None)
    by (rewrite Hfs1; apply lookup_delete_eq).
  destruct (delete_image_run filename s1) as (s2 & r2 & H2 & Hs2 & _ & Hcase2).
  rewrite Hgone in Hcase2. destruct Hcase2 as [-> Hfs2].
  exists s1, s2. split; [exact H1|]. split; [exact H2|].
  split; [|split; [exact Hgone | exact Hfs2]].
  rewrite Hs2, Hs1, !map_app, <- app_assoc. reflexivity.
Qed.

Lemma image_info_run proto hst name (s : State (list GalleryResponse)) :
  image_info path_join birthtime uploadsDir proto hst name s =
    match info_of path_join birthtime uploadsDir proto hst (fs (world s)) name with
    | Some i => (s, Ret i)
    | None =>
        (s, Throw (Error ("ENOENT: no such file or directory, stat '"
                          ++ path_join uploadsDir name ++ "'")))
    end.
Proof.
  unfold image_info, bind, statSync, info_of.
  now destruct (fs (world s) !! path_join uploadsDir name).
Qed.

(** The listing loop: every name is on disk and gets its entry, or the
    first missing one throws; the state is not changed either way. *)
Lemma image_infos proto hst names : forall s : State (list GalleryResponse),
  (exists infos,
     map_m (image_info path_join birthtime uploadsDir proto hst) names s
       = (s, Ret infos)
     /\ Forall2 (fun name i =>
                   info_of path_join birthtime uploadsDir proto hst
                     (fs (world s)) name = Some i) names infos)
  \/ (exists e,
        map_m (image_info path_join birthtime uploadsDir proto hst) names s
          = (s, Throw e)
        /\ Exists (fun name => fs (world s) !! path_join uploadsDir name = None)
             names).
Proof.
  induction names as [|name rest IH]; intros s.
  - left. exists []. split; [reflexivity | constructor].
  - cbn [map_m]. pose proof (image_info_run proto hst name s) as Hone.
    destruct (info_of path_join birthtime uploadsDir proto hst (fs (world s)) name)
      as [i|] eqn:Hi.
    + rewrite (bind_ret_l _ _ _ _ _ Hone).
      destruct (IH s) as [(infos & H & Hall) | (e & H & Hex)].
      * left. exists (i :: infos). rewrite (bind_ret_l _ _ _ _ _ H).
        split; [reflexivity|]. now constructor.
      * right. exists e. rewrite (bind_throw_l _ _ _ _ _ H).
        split; [reflexivity|]. now apply Exists_cons_tl.
    + right. eexists. rewrite (bind_throw_l _ _ _ _ _ Hone).
      split; [reflexivity|]. apply Exists_cons_hd.
      unfold info_of in Hi.
      now destruct (fs (world s) !! path_join uploadsDir name).
Qed.

(** X13. [GET /api/images] with every shown file on disk: the answer is
    200 and lists, in the order of the directory listing, exactly the names
    whose extension (compared in lower case) is one of .jpg .jpeg .png .gif
    .bmp .webp, each with its size on disk; names with another extension are
    not looked at, and the disk is not changed. *)
Theorem X13_listing_shows_the_image_files (proto : string) (hst : option string)
    (s : State (list GalleryResponse)) (names : list string) :
  readdir (fs (world s)) uploadsDir = inr names ->
  Forall (fun name => is_Some (fs (world s) !! path_join uploadsDir name))
    (List.filter (has_image_extension extname) names) ->
  exists s' infos,
    list_images path_join extname readdir birthtime uploadsDir proto hst s
      = (s', Ret tt)
    /\ locals s' = (locals s ++ [mkGalleryResponse 200 (Images infos)])%list
    /\ world s' = world s
    /\ Forall2 (fun name i =>
                  info_of path_join birthtime uploadsDir proto hst
                    (fs (world s)) name = Some i)
         (List.filter (has_image_extension extname) names) infos
    /\ map im_filename infos = List.filter (has_image_extension extname) names.
Proof.
  intros Hdir Hall.
  destruct (image_infos proto hst (List.filter (has_image_extension extname) names) s)
    as [(infos & H & Hinfos) | (e & _ & Hex)].
  - exists (on_locals (fun l => (l ++ [mkGalleryResponse 200 (Images infos)])%list) s),
      infos.
    split; [|split; [reflexivity | split; [reflexivity | split; [exact Hinfos|]]]].
    + unfold list_images. apply try_catch_ret.
      unfold bind at 1, readdirSync. rewrite Hdir.
      unfold bind at 1. rewrite H. reflexivity.
    + clear - Hinfos. induction Hinfos as [|name i l l' Hi _ IH]; [reflexivity|].
      simpl. rewrite IH. f_equal. unfold info_of in Hi.
      destruct (fs (world s) !! path_join uploadsDir name); [|discriminate].
      now injection Hi as <-.
  - exfalso. apply Exists_exists in Hex as (name & Hin & Hnone).
    rewrite Forall_forall in Hall. destruct (Hall name Hin) as [n Hn]. congruence.
Qed.

(** X14. [GET /api/images] is all or nothing: when the directory cannot be
    listed, or one shown file has vanished from disk, the single answer is
    500 "Error fetching images" and no list is sent. *)
Theorem X14_listing_fails_as_a_whole (proto : string) (hst : option string)
    (s : State (list GalleryResponse)) :
  (exists e, readdir (fs (world s)) uploadsDir = inl e)
  \/ (exists names,
        readdir (fs (world s)) uploadsDir = inr names
        /\ Exists (fun name => fs (world s) !! path_join uploadsDir name = None)
             (List.filter (has_image_extension extname) names)) ->
  exists s' detail,
    list_images path_join extname readdir birthtime uploadsDir proto hst s
      = (s', Ret tt)
    /\ locals s' =
         (locals s ++ [mkGalleryResponse 500 (Failure "Error fetching images" detail)])%list
    /\ fs (world s') = fs (world s).
Proof.
  intros [(e & Hdir) | (names & Hdir & Hex)].
  - eexists. exists (exn_message e).
    split; [unfold list_images, try_catch, bind at 1, readdirSync;
            rewrite Hdir; reflexivity|].
    split; reflexivity.
  - destruct (image_infos proto hst (List.filter (has_image_extension extname) names) s)
      as [(infos & _ & Hinfos) | (e & H & _)].
    + exfalso. clear - Hex Hinfos.
      induction Hinfos as [|name i l l' Hi _ IH]; [inversion Hex|].
      apply Exists_cons in Hex as [Hex | Hex]; [|now apply IH].
      unfold info_of in Hi. rewrite Hex in Hi. discriminate.
    + eexists. exists (exn_message e).
      split; [unfold list_images, try_catch, bind at 1, readdirSync;
              rewrite Hdir; unfold bind at 1; rewrite H; reflexivity|].
      split; reflexivity.
Qed.

End GalleryProperties.

Section GalleryWitnesses.
Import Gallery Samples.

Lemma X12_second_delete_is_not_found_witness :
  exists s1 s2,
    delete_image sample_join "/srv/uploads" "u1-17.png" (backend_state disk)
      = (s1, Ret tt)
    /\ delete_image sample_join "/srv/uploads" "u1-17.png" s1 = (s2, Ret tt)
    /\ map status (sent (world s2)) = [200%N; 404%N].
Proof.
  destruct (X12_second_delete_is_not_found sample_join "/srv/uploads" "u1-17.png"
              (backend_state disk) (mkInode png_bytes true true))
    as (s1 & s2 & H1 & H2 & Hst & _).
  - vm_compute. reflexivity.
  - reflexivity.
  - now exists s1, s2.
Defined.

Lemma X13_listing_shows_the_image_files_witness :
  exists s' infos,
    list_images sample_join sample_extname sample_readdir (fun _ => 17%N)
      "/srv/uploads" "http" (Some "localhost:8080") (gallery_state gallery_disk)
      = (s', Ret tt)
    /\ locals s' = [mkGalleryResponse 200 (Images infos)]
    /\ map im_filename infos = ["u1-17.PNG"; "u2-17.png"].
Proof.
  destruct (X13_listing_shows_the_image_files sample_join sample_extname
              sample_readdir (fun _ => 17%N) "/srv/uploads" "http"
              (Some "localhost:8080") (gallery_state gallery_disk)
              ["u1-17.PNG"; "notes.txt"; "u2-17.png"])
    as (s' & infos & H & Hl & _ & _ & Hnames).
  - reflexivity.
  - vm_compute. repeat constructor; eexists; reflexivity.
  - exists s', infos. split; [exact H|]. split; [exact Hl | exact Hnames].
Defined.

Lemma X14_listing_fails_as_a_whole_witness :
  exists s' detail,
    list_images sample_join sample_extname sample_readdir (fun _ => 17%N)
      "/srv/uploads" "http" (Some "localhost:8080") (gallery_state disk)
      = (s', Ret tt)
    /\ locals s' = [mkGalleryResponse 500 (Failure "Error fetching images" detail)].
Proof.
  destruct (X14_listing_fails_as_a_whole sample_join sample_extname
              sample_readdir (fun _ => 17%N) "/srv/uploads" "http"
              (Some "localhost:8080") (gallery_state disk))
    as (s' & detail & H & Hl & _).
  - right. exists ["u1-17.PNG"; "notes.txt"; "u2-17.png"].
    split; [reflexivity|]. apply Exists_cons_hd. vm_compute. reflexivity.
  - now exists s', detail.
Defined.

End GalleryWitnesses.

(** * Further properties of the edge *)

(** ** Cleanup on its own *)

Section CleanupInGeneral.
Import Edge Payload PayloadShape.

Lemma cleanup_settled reason (tempFiles : list File) : forall s : State Locals,
  (forall file p, In file tempFiles -> filepath file = Some p -> p <> "" ->
     settled (fs (world s)) p) ->
  exists s', cleanupTempFiles reason tempFiles s = (s', Ret tt)
             /\ fs (world s') = fs (world s).
Proof.
  induction tempFiles as [|file rest IH]; intros s Hset.
  - now exists s.
  - assert (Hone : exists s1,
              (match filepath file with
               | Some p =>
                   if Js.truthy (filepath file) then
                     try_catch (NodeFs.unlinkSync p)
                       (fun cleanupError =>
                          console_warn ("⚠️ Failed to cleanup temp file on error: " ++ p))
                   else ret tt
               | None => ret tt
               end) s = (s1, Ret tt) /\ fs (world s1) = fs (world s)).
    { destruct (filepath file) as [p|] eqn:Hp; [|now exists s].
      destruct (Js.truthy (Some p)) eqn:Ht; [|now exists s].
      assert (Hne : p <> "").
      { intros ->. discriminate. }
      specialize (Hset file p (or_introl eq_refl) Hp Hne).
      unfold settled in Hset. unfold try_catch, NodeFs.unlinkSync, NodeFs.unlink.
      destruct (fs (world s) !! p) as [n|]; [rewrite Hset|]; eexists;
        split; reflexivity. }
    destruct Hone as (s1 & H1 & Hfs1).
    destruct (IH s1) as (s2 & H2 & Hfs2).
    { intros g p Hg Hp Hne. rewrite Hfs1. apply (Hset g p); [now right | | ]; assumption. }
    exists s2. split; [|congruence].
    unfold cleanupTempFiles in *. cbn [for_of].
    now rewrite (bind_ret_l _ _ _ _ _ H1).
Qed.

(** X15. [cleanupTempFiles] never throws and answers nothing; it only
    removes files; afterwards every temp path of its argument is gone or
    cannot be removed, and calling it again leaves the disk as it is. *)
Theorem X15_cleanup_is_quiet_and_settles (reason : string) (tempFiles : list File)
    (s : State Locals) :
  exists s1 s2,
    cleanupTempFiles reason tempFiles s = (s1, Ret tt)
    /\ cleanupTempFiles reason tempFiles s1 = (s2, Ret tt)
    /\ sent (world s1) = sent (world s)
    /\ (forall q, fs (world s1) !! q = None \/ fs (world s1) !! q = fs (world s) !! q)
    /\ (forall file p, In file tempFiles -> filepath file = Some p -> p <> "" ->
          settled (fs (world s1)) p)
    /\ fs (world s2) = fs (world s1).
Proof.
  destruct (cleanup_run reason tempFiles s) as (s1 & H1 & Hsent & Hmono & Hdel).
  assert (Hset : forall file p, In file tempFiles -> filepath file = Some p ->
            p <> "" -> settled (fs (world s1)) p).
  { intros file p Hin Hp Hne. unfold settled.
    destruct (fs (world s) !! p) as [n|] eqn:Hl.
    - destruct (removable n) eqn:Hr.
      + rewrite (Hdel file p Hin Hp Hne); [exact I|].
        unfold deletable. now rewrite Hl.
      + destruct (Hmono p) as [H | H]; rewrite H; [exact I|]. now rewrite Hl.
    - destruct (Hmono p) as [H | H]; rewrite H; [exact I|]. now rewrite Hl. }
  destruct (cleanup_settled reason tempFiles s1 Hset) as (s2 & H2 & Hfs2).
  exists s1, s2. repeat split; assumption.
Qed.

End CleanupInGeneral.

(** ** The middleware and the handlers on arbitrary input *)

Section EdgeInGeneral.
Import Edge Payload PayloadShape.

Lemma for_of_keeps_world {L A} (body : A -> M (State L) unit) (xs : list A) :
  (forall x s, world (fst (body x s)) = world s) ->
  forall s, world (fst (for_of xs body s)) = world s.
Proof.
  intros Hbody. induction xs as [|x rest IH]; intros s; [reflexivity|].
  cbn [for_of]. unfold bind. specialize (Hbody x s).
  destruct (body x s) as [s1 [u|e|]]; cbn [fst] in *; [|exact Hbody|exact Hbody].
  now rewrite IH.
Qed.

Lemma forEach_from_keeps_world {A} (body : A -> nat -> M (State Locals) unit)
    (xs : list A) :
  (forall x i s, world (fst (body x i s)) = world s) ->
  forall index s, world (fst (forEach_from index xs body s)) = world s.
Proof.
  intros Hbody. induction xs as [|x rest IH]; intros index s; [reflexivity|].
  cbn [forEach_from]. unfold bind. specialize (Hbody x index s).
  destruct (body x index s) as [s1 [u|e|]]; cbn [fst] in *; [|exact Hbody|exact Hbody].
  now rewrite IH.
Qed.

Lemma append_file_keeps_world v fieldName file index (s : State Locals) :
  world (fst (append_file v fieldName file index s)) = world s.
Proof.
  destruct v; cbn [append_file].
  - now rewrite append_file_stream_run.
  - unfold append_file_blob. destruct file as [f|]; [|reflexivity].
    destruct (filepath f) as [p|]; [|reflexivity].
    destruct (Js.truthy (Some p)); [|reflexivity].
    unfold bind, NodeFs.readFileSync.
    now destruct (NodeFs.read (fs (world s)) p).
Qed.

(** Assembling never touches the world, whether it succeeds or throws. *)
Lemma assemble_keeps_world v fields files (s : State Locals) :
  world (fst (assemble v fields files s)) = world s.
Proof.
  unfold assemble. unfold bind at 1, modify at 1.
  rewrite (bind_ret_l _ _ _ _ _ (append_fields_run fields _)).
  rewrite for_of_keeps_world; [reflexivity|].
  intros kv s0. unfold forEach. apply forEach_from_keeps_world.
  intros x i s1. apply append_file_keeps_world.
Qed.


Lemma forEach_from_settles {A} (body : A -> nat -> M (State Locals) unit)
    (xs : list A) :
  (forall x i s, snd (body x i s) <> Pending) ->
  forall index s, snd (forEach_from index xs body s) <> Pending.
Proof.
  intros Hbody. induction xs as [|x rest IH]; intros index s; [discriminate|].
  cbn [forEach_from]. unfold bind. specialize (Hbody x index s).
  destruct (body x index s) as [s1 [u|e|]]; cbn [snd] in *;
    [apply IH | discriminate | contradiction].
Qed.

Lemma append_file_settles v fieldName file index (s : State Locals) :
  snd (append_file v fieldName file index s) <> Pending.
Proof.
  destruct v; cbn [append_file].
  - now rewrite append_file_stream_run.
  - unfold append_file_blob. destruct file as [f|]; [|discriminate].
    destruct (filepath f) as [p|]; [|discriminate].
    destruct (Js.truthy (Some p)); [|discriminate].
    unfold bind, NodeFs.readFileSync.
    now destruct (NodeFs.read (fs (world s)) p).
Qed.


Section WithBackend.

Variable v : variant.
Variable req : Request.

(** The parser fails: the middleware answers 500; [next] is not called. *)
Lemma middleware_parse_fails next (s : State Locals) e :
  parse_result req = inl e ->
  createFormDataMiddleware v req next s = (failed_in v e s, Ret tt).
Proof.
  intros Hp. unfold createFormDataMiddleware, form_parse. rewrite Hp.
  reflexivity.
Qed.

(** Assembling fails: the same, from the state assembling had reached. *)
Lemma middleware_assemble_throws next (s s1 : State Locals) fields files e :
  parse_result req = inr (fields, files) ->
  assemble v fields files s = (s1, Throw e) ->
  createFormDataMiddleware v req next s = (failed_in v e s1, Ret tt).
Proof.
  intros Hp Hasm. unfold createFormDataMiddleware, form_parse. rewrite Hp.
  unfold try_catch. unfold bind at 1, ret at 1. cbn [fst snd].
  rewrite (bind_throw_l _ _ _ _ _ Hasm). reflexivity.
Qed.

End WithBackend.

End EdgeInGeneral.

Section EdgeAnswers.
Import Edge Payload PayloadShape.

Variable BACKEND_URL : option string.
Variable remote : string -> Body -> FetchResult.



(** X20. When formidable fails to parse the body, a POST is answered 500
    "Failed to process form data" with the parser's message as [error]; the
    backend is not contacted and the disk is not touched, with either
    handler and either copy of the middleware. *)
Theorem X20_parse_failure_stops_the_relay (v : variant) (req : Request)
    (s : State Locals) (e : exn) :
  method req = "POST" ->
  parse_result req = inl e ->
  handler_awaiting BACKEND_URL remote v req s = (failed_in v e s, Ret tt)
  /\ handler_guarded BACKEND_URL remote v req s = (failed_in v e s, Ret tt)
  /\ sent (world (failed_in v e s)) =
       (sent (world s)
        ++ [mkHttpResponse 500
              (mkUploadResponse false "Failed to process form data" None
                 (Some (exn_message e)))])%list
  /\ fs (world (failed_in v e s)) = fs (world s).
Proof.
  intros Hpost Hp.
  pose proof (fun next => middleware_parse_fails v req next s e Hp) as Hfail.
  split; [|split; [|split; reflexivity]].
  - unfold handler_awaiting. rewrite (not_other_method req Hpost).
    apply try_catch_ret. apply Hfail.
  - unfold handler_guarded. rewrite (not_other_method req Hpost). apply Hfail.
Qed.

End EdgeAnswers.

Section EdgeAnswersWitness.
Import Edge Payload PayloadShape Samples.

Lemma X20_parse_failure_stops_the_relay_witness :
  let broken := mkRequest "POST" (inl (Error "bad content-type header")) in
  handler_awaiting None accepting_backend Stream broken (edge_state tmp_disk)
  = (failed_in Stream (Error "bad content-type header") (edge_state tmp_disk), Ret tt).
Proof.
  intros broken.
  destruct (X20_parse_failure_stops_the_relay None accepting_backend Stream broken
              (edge_state tmp_disk) (Error "bad content-type header"))
    as (H & _); [reflexivity | reflexivity | exact H].
Defined.


End EdgeAnswersWitness.

Section EdgeCleanupPaths.
Import Edge Payload PayloadShape.

Variable BACKEND_URL : option string.
Variable remote : string -> Body -> FetchResult.

Lemma assembles v fields files (s : State Locals) :
  v = Stream \/ all_parts_readable (fs (world s)) files ->
  exists s1, assemble v fields files s = (s1, Ret tt) /\ world s1 = world s.
Proof.
  intros Hok. destruct v.
  - eexists. split; [apply assemble_stream_run | reflexivity].
  - destruct Hok as [Habs | Hall]; [discriminate|].
    eexists. split; [now apply assemble_blob_run | reflexivity].
Qed.

(** X17. The handler that guards its callback removes the temp files on
    both paths: for a POST that parses and assembles, whatever the backend
    answers or however the call fails, every temp file of the request that
    can be removed is gone when the handler returns. *)
Theorem X17_guarded_handler_always_cleans_up (v : variant) (req : Request)
    (fields : Fields) (uploads : Files) (s : State Locals) :
  method req = "POST" ->
  parse_result req = inr (fields, uploads) ->
  v = Stream \/ all_parts_readable (fs (world s)) uploads ->
  exists s',
    handler_guarded BACKEND_URL remote v req s = (s', Ret tt)
    /\ forall file p, In file (all_files uploads) -> filepath file = Some p ->
         p <> "" -> deletable (fs (world s)) p -> fs (world s') !! p = None.
Proof.
  intros Hpost Hp Hok.
  destruct (assembles v fields uploads s Hok) as (s1 & Hasm & Hworld).
  pose proof (guarded_after_assembly BACKEND_URL remote v req fields uploads s s1
                Hpost Hp Hasm) as Hg.
  cbv zeta in Hg.
  destruct (relayed _) as [r|].
  - rewrite Hg.
    destruct (cleanup_run "success" (all_files uploads)
                (on_world (add_sent (mkHttpResponse 200 r)) (attached fields uploads s1)))
      as (s4 & H4 & _ & _ & Hdel).
    exists s4. split; [exact H4|]. intros file p Hin Hfp Hne Hd.
    apply (Hdel file p Hin Hfp Hne). simpl. now rewrite Hworld.
  - destruct Hg as (e & _ & Hg). rewrite Hg.
    destruct (cleanup_run "success" (all_files uploads)
                (refused_in e (attached fields uploads s1)))
      as (s4 & H4 & _ & _ & Hdel).
    exists s4. split; [exact H4|]. intros file p Hin Hfp Hne Hd.
    apply (Hdel file p Hin Hfp Hne). simpl. now rewrite Hworld.
Qed.

(** X18. For a POST that parses and whose temp files are readable, the
    handler that awaits the middleware removes the temp files exactly when
    it answers 200: after a 200 every temp file that can be removed is gone;
    after any other answer the disk is as it was.  Behind the buffer copy it
    never answers 200: [req.body.getHeaders] is missing, and the answer is
    the middleware's 500 with that error. *)
Theorem X18_awaiting_handler_cleans_up_only_on_200 (v : variant) (req : Request)
    (fields : Fields) (uploads : Files) (s : State Locals) :
  method req = "POST" ->
  parse_result req = inr (fields, uploads) ->
  all_parts_readable (fs (world s)) uploads ->
  exists s' r,
    handler_awaiting BACKEND_URL remote v req s = (s', Ret tt)
    /\ sent (world s') = (sent (world s) ++ [r])%list
    /\ (status r = 200%N ->
        forall file p, In file (all_files uploads) -> filepath file = Some p ->
          p <> "" -> deletable (fs (world s)) p -> fs (world s') !! p = None)
    /\ (status r <> 200%N -> fs (world s') = fs (world s))
    /\ (v = Blob ->
        r = mkHttpResponse 500
              (mkUploadResponse false "Failed to process form data" None
                 (Some "req.body.getHeaders is not a function"))).
Proof.
  intros Hpost Hp Hall.
  destruct (assemble_readable v fields uploads s Hall)
    as (wire & payload & Hwire & Hasm & Hpay & _).
  set (s1 := appended payload (reset s)) in *.
  set (s2 := attached fields uploads s1).
  destruct v.
  - pose proof (awaiting_after_assembly BACKEND_URL remote req fields uploads s s1
                  wire Hpost Hp Hasm Hpay) as Ha.
    cbv zeta in Ha. fold s2 in Ha.
    destruct (relayed _) as [r|].
    + rewrite Ha.
      destruct (cleanup_run "success" (all_files uploads)
                  (on_world (add_sent (mkHttpResponse 200 r)) s2))
        as (s4 & H4 & Hs4 & _ & Hdel).
      exists s4, (mkHttpResponse 200 r). split; [exact H4|].
      split; [rewrite Hs4; reflexivity|]. split; [|split].
      * intros _ file p Hin Hfp Hne Hd. apply (Hdel file p Hin Hfp Hne). exact Hd.
      * intros Habs. now destruct Habs.
      * discriminate.
    + destruct Ha as (e & _ & Ha).
      exists (failed_in Stream e s2), (middleware_failure e).
      split; [exact Ha|]. split; [reflexivity|]. split; [|split].
      * intros Habs. discriminate.
      * intros _. reflexivity.
      * discriminate.
  - exists (failed_in Blob no_getHeaders s2), (middleware_failure no_getHeaders).
    split; [apply (awaiting_without_getHeaders BACKEND_URL remote req fields uploads
                     s s1 Hpost Hp Hasm)|].
    split; [reflexivity|]. split; [|split].
    + intros Habs. discriminate.
    + intros _. reflexivity.
    + intros _. reflexivity.
Qed.

(** X19. A reply with a status outside 2xx is reported in the [error] field
    as "Backend responded with status: <status>": by the awaiting handler
    (behind the stream copy, the only one with which it reaches the backend)
    under the message "Failed to process form data", by the guarded handler
    (behind either copy) under "Internal server error".  Behind the buffer
    copy the awaiting handler reports the missing [getHeaders] instead,
    whatever the backend would reply. *)
Theorem X19_backend_status_is_reported (v : variant) (req : Request)
    (fields : Fields) (uploads : Files) (s : State Locals) :
  method req = "POST" ->
  parse_result req = inr (fields, uploads) ->
  all_parts_readable (fs (world s)) uploads ->
  exists wire,
    realize_all (fs (world s)) (payload_of ReadStream fields uploads) = inr wire
    /\ (forall code json,
          ~ (200 <= code <= 299)%N ->
          let url := backendUrl BACKEND_URL ++ "/api/upload" in
          let detail := "Backend responded with status: " ++ Js.numToString code in
          (v = Stream ->
           remote url (Multipart wire) = HttpReply code json ->
           exists sa,
             handler_awaiting BACKEND_URL remote v req s = (sa, Ret tt)
             /\ sent (world sa) =
                  (sent (world s)
                   ++ [mkHttpResponse 500
                         (mkUploadResponse false "Failed to process form data" None
                            (Some detail))])%list)
          /\ (remote url (guarded_body v wire) = HttpReply code json ->
              exists sg,
                handler_guarded BACKEND_URL remote v req s = (sg, Ret tt)
                /\ sent (world sg) =
                     (sent (world s)
                      ++ [mkHttpResponse 500
                            (mkUploadResponse false "Internal server error" None
                               (Some detail))])%list))
    /\ (v = Blob ->
        exists sa,
          handler_awaiting BACKEND_URL remote v req s = (sa, Ret tt)
          /\ sent (world sa) =
               (sent (world s)
                ++ [mkHttpResponse 500
                      (mkUploadResponse false "Failed to process form data" None
                         (Some "req.body.getHeaders is not a function"))])%list).
Proof.
  intros Hpost Hp Hall.
  destruct (assemble_readable v fields uploads s Hall)
    as (wire & payload & Hwire & Hasm & Hpay & Hbody).
  exists wire. split; [exact Hwire|].
  set (s1 := appended payload (reset s)) in *.
  set (s2 := attached fields uploads s1).
  assert (Hok : forall code, ~ (200 <= code <= 299)%N -> response_ok code = false).
  { intros code Hcode. unfold response_ok.
    destruct (N.leb_spec 200 code), (N.leb_spec code 299); cbn [andb];
      try reflexivity. exfalso. apply Hcode. now split. }
  split.
  - intros code json Hcode url detail. split.
    + intros -> Hreply.
      pose proof (awaiting_after_assembly BACKEND_URL remote req fields uploads s s1
                    wire Hpost Hp Hasm Hpay) as Ha.
      cbv zeta in Ha. fold s2 url in Ha. rewrite Hreply in Ha.
      rewrite (relayed_failure (HttpReply code json)) in Ha
        by (right; now exists code, json).
      destruct Ha as (e & Hrun & Ha).
      rewrite (relay_call_eval _ s2 (HttpReply code json)) in Hrun
        by (rewrite <- Hreply; now apply node_fetch_settles).
      rewrite (Hok code Hcode) in Hrun. injection Hrun as <-.
      exists (failed_in Stream (Error detail) s2). split; [exact Ha | reflexivity].
    + intros Hreply.
      pose proof (guarded_after_assembly BACKEND_URL remote v req fields uploads s s1
                    Hpost Hp Hasm) as Hg.
      cbv zeta in Hg. fold s2 url in Hg.
      change (formData (locals s1)) with payload in Hg.
      rewrite Hbody, Hreply in Hg.
      rewrite (relayed_failure (HttpReply code json)) in Hg
        by (right; now exists code, json).
      destruct Hg as (e & Hrun & Hg).
      rewrite (relay_call_eval _ s2 (HttpReply code json)) in Hrun
        by (unfold global_fetch; now rewrite Hreply).
      rewrite (Hok code Hcode) in Hrun. injection Hrun as <-.
      destruct (cleanup_run "success" (all_files uploads)
                  (refused_in (Error detail) s2)) as (sg & Hclean & Hsg & _).
      exists sg. split; [now rewrite Hg|]. rewrite Hsg. reflexivity.
  - intros ->. exists (failed_in Blob no_getHeaders s2).
    split; [|reflexivity].
    apply (awaiting_without_getHeaders BACKEND_URL remote req fields uploads s s1
             Hpost Hp Hasm).
Qed.

End EdgeCleanupPaths.

Section EdgeCleanupWitnesses.
Import Edge Payload PayloadShape Samples.

Lemma X17_guarded_handler_always_cleans_up_witness :
  exists s',
    handler_guarded None rejecting_backend Stream edge_request (edge_state tmp_disk)
      = (s', Ret tt)
    /\ fs (world s') !! "/tmp/up1" = None
    /\ fs (world s') !! "/tmp/up2" = None.
Proof.
  destruct (X17_guarded_handler_always_cleans_up None rejecting_backend Stream
              edge_request edge_fields edge_files (edge_state tmp_disk))
    as (s' & H & Hgone); [reflexivity | reflexivity | now left |].
  exists s'. split; [exact H|]. split.
  - apply (Hgone anonymous); [right; now left | reflexivity | discriminate | reflexivity].
  - apply (Hgone named); [right; right; now left | reflexivity | discriminate
                          | reflexivity].
Defined.

Lemma X18_awaiting_handler_cleans_up_only_on_200_witness :
  exists s' r,
    handler_awaiting None rejecting_backend Stream edge_request (edge_state tmp_disk)
      = (s', Ret tt)
    /\ sent (world s') = [r]
    /\ (status r <> 200%N -> fs (world s') = tmp_disk).
Proof.
  destruct (X18_awaiting_handler_cleans_up_only_on_200 None rejecting_backend Stream
              edge_request edge_fields edge_files (edge_state tmp_disk))
    as (s' & r & H & Hsent & _ & Hkeep & _).
  - reflexivity.
  - reflexivity.
  - repeat constructor; cbn; intros _; eexists; vm_compute; reflexivity.
  - now exists s', r.
Defined.

Lemma X19_backend_status_is_reported_witness :
  exists sa,
    handler_awaiting None rejecting_backend Stream edge_request (edge_state tmp_disk)
      = (sa, Ret tt)
    /\ sent (world sa) =
         [mkHttpResponse 500
            (mkUploadResponse false "Failed to process form data" None
               (Some "Backend responded with status: 400"))].
Proof.
  destruct (X19_backend_status_is_reported None rejecting_backend Stream
              edge_request edge_fields edge_files (edge_state tmp_disk))
    as (wire & _ & Hreport & _).
  - reflexivity.
  - reflexivity.
  - repeat constructor; cbn; intros _; eexists; vm_compute; reflexivity.
  - destruct (Hreport 400%N
                (Some (mkUploadResponse false
                         "No valid files uploaded. All files failed validation." None
                         (Some "cat.png - Invalid PNG signature"))))
      as (Hawaiting & _).
    + intros [_ Hhi]. vm_compute in Hhi. now apply Hhi.
    + destruct (Hawaiting eq_refl eq_refl) as (sa & Ha & Hsa).
      exists sa. split; [exact Ha | exact Hsa].
Defined.

End EdgeCleanupWitnesses.

(** ** The assembled payload and the buffer variant's read *)

Section PayloadInGeneral.
Import Edge Payload PayloadShape.

Lemma file_entry_appended src fieldName index file :
  match file_entry src fieldName index file with
  | Some e => appended_part file = true /\ is_file_entry e = true
  | None => appended_part file = false
  end.
Proof.
  unfold file_entry, appended_part. destruct file as [f|]; [|reflexivity].
  destruct (filepath f) as [p|]; [|reflexivity].
  destruct (Js.truthy (Some p)); [split|]; reflexivity.
Qed.

Lemma file_entries_shape src fieldName l : forall index,
  length (file_entries_from src fieldName index l) = length (List.filter appended_part l)
  /\ forallb is_file_entry (file_entries_from src fieldName index l) = true.
Proof.
  induction l as [|file rest IH]; intros index; [split; reflexivity|].
  cbn [file_entries_from List.filter].
  pose proof (file_entry_appended src fieldName index file) as Hone.
  destruct (IH (S index)) as [Hlen Hall].
  destruct (file_entry src fieldName index file) as [e|].
  - destruct Hone as [-> He]. cbn [length forallb]. rewrite Hlen, He, Hall.
    split; reflexivity.
  - rewrite Hone. split; assumption.
Qed.

Lemma field_entries_are_text fields :
  forallb is_text_entry (flat_map field_entries fields) = true.
Proof.
  apply forallb_forall. intros e He.
  apply in_flat_map in He as (kv & _ & He).
  apply field_entries_text in He as (k & val & ->). reflexivity.
Qed.

(** X22. The stream middleware always assembles, without touching the
    world, and the form it builds is the field values first (in the order
    of the fields, an array value expanded in its order, an undefined value
    skipped) followed by file entries only, one for each file part that is
    not null and has a temp path. *)
Theorem X22_fields_first_then_one_entry_per_part (fields : Fields) (uploads : Files)
    (s : State Locals) :
  exists s' parts,
    assemble Stream fields uploads s = (s', Ret tt)
    /\ world s' = world s
    /\ formData (locals s') = (flat_map field_entries fields ++ parts)%list
    /\ forallb is_text_entry (flat_map field_entries fields) = true
    /\ forallb is_file_entry parts = true
    /\ length parts = length (appended_parts uploads).
Proof.
  exists (appended (payload_of ReadStream fields uploads) (reset s)),
    (flat_map (fun kv => file_entries_from ReadStream (fst kv) 0 (fileList (snd kv)))
       uploads).
  split; [apply assemble_stream_run|]. split; [reflexivity|].
  split; [reflexivity|]. split; [apply field_entries_are_text|].
  unfold appended_parts. induction uploads as [|kv rest [IHall IHlen]];
    [split; reflexivity|].
  cbn [flat_map]. destruct (file_entries_shape ReadStream (fst kv) (fileList (snd kv)) 0)
    as [Hlen Hall].
  rewrite forallb_app, Hall, IHall, !length_app, List.filter_app, length_app, Hlen, IHlen.
  split; reflexivity.
Qed.

Lemma append_file_blob_cases fieldName file index (s : State Locals) :
  (exists s1, append_file_blob fieldName file index s = (s1, Ret tt)
              /\ world s1 = world s
              /\ ~ unreadable_part (fs (world s)) file)
  \/ (exists e, append_file_blob fieldName file index s = (s, Throw e)).
Proof.
  unfold append_file_blob, unreadable_part.
  destruct file as [f|]; [|left; exists s; now repeat split].
  destruct (filepath f) as [p|]; [|left; exists s; now repeat split].
  destruct (Js.truthy (Some p)) eqn:Ht.
  2:{ left. exists s. repeat split; try reflexivity. intros [Habs _]. discriminate. }
  unfold bind, NodeFs.readFileSync.
  destruct (NodeFs.read (fs (world s)) p) as [e | b] eqn:Hr.
  - right. now exists e.
  - left. eexists. split; [reflexivity|]. split; [reflexivity|].
    intros [_ [e He]]. discriminate.
Qed.

Lemma forEach_blob_throws fieldName l : forall index (s : State Locals),
  Exists (unreadable_part (fs (world s))) l ->
  exists s1 e, forEach_from index l (append_file_blob fieldName) s = (s1, Throw e).
Proof.
  induction l as [|file rest IH]; intros index s Hex; [inversion Hex|].
  cbn [forEach_from].
  destruct (append_file_blob_cases fieldName file index s)
    as [(s1 & H1 & Hw & Hnot) | (e & H1)].
  - rewrite (bind_ret_l _ _ _ _ _ H1).
    apply Exists_cons in Hex as [Hhere | Hrest]; [contradiction|].
    apply IH. now rewrite Hw.
  - exists s, e. now rewrite (bind_throw_l _ _ _ _ _ H1).
Qed.

Lemma assemble_blob_throws fields files (s : State Locals) :
  some_part_unreadable (fs (world s)) files ->
  exists s1 e, assemble Blob fields files s = (s1, Throw e) /\ world s1 = world s.
Proof.
  intros Hex.
  assert (Hloop : forall s0 : State Locals, world s0 = world s ->
            exists s1 e,
              for_of files
                (fun kv => forEach (fileList (snd kv)) (append_file Blob (fst kv))) s0
              = (s1, Throw e)).
  { unfold some_part_unreadable in Hex.
    induction Hex as [kv rest Hhere | kv rest Hlater IH]; intros s0 Hw.
    - cbn [for_of]. unfold forEach at 1. cbn [append_file].
      destruct (forEach_blob_throws (fst kv) (fileList (snd kv)) 0 s0)
        as (s1 & e & H); [now rewrite Hw|].
      exists s1, e. now rewrite (bind_throw_l _ _ _ _ _ H).
    - cbn [for_of].
      pose proof (forEach_from_keeps_world (append_file Blob (fst kv))
                    (fileList (snd kv))
                    (fun x i s1 => append_file_keeps_world Blob (fst kv) x i s1)
                    0%nat s0) as Hkeep.
      pose proof (forEach_from_settles (append_file Blob (fst kv))
                    (fileList (snd kv))
                    (fun x i s1 => append_file_settles Blob (fst kv) x i s1)
                    0%nat s0) as Hsettles.
      unfold forEach at 1.
      destruct (forEach_from 0 (fileList (snd kv)) (append_file Blob (fst kv)) s0)
        as [s1 [[]|e|]] eqn:Hhead; cbn [fst] in Hkeep; cbn [snd] in Hsettles.
      + rewrite (bind_ret_l _ _ _ _ _ Hhead). apply IH. congruence.
      + exists s1, e. now rewrite (bind_throw_l _ _ _ _ _ Hhead).
      + contradiction. }
  assert (Hthrow : exists s1 e, assemble Blob fields files s = (s1, Throw e)).
  { unfold assemble. unfold bind at 1, modify at 1.
    rewrite (bind_ret_l _ _ _ _ _ (append_fields_run fields _)).
    apply Hloop. reflexivity. }
  destruct Hthrow as (s1 & e & Hasm). exists s1, e. split; [exact Hasm|].
  pose proof (assemble_keeps_world Blob fields files s) as Hworld.
  now rewrite Hasm in Hworld.
Qed.

(** X21. The buffer middleware reads every temp file while assembling; when
    one cannot be read, a POST is answered 500 "Failed to process form data"
    with the read error, whatever backend is configured: the relay is never
    called and no temp file is removed. *)
Theorem X21_buffer_variant_fails_before_relay (req : Request) (fields : Fields)
    (uploads : Files) (s : State Locals) :
  method req = "POST" ->
  parse_result req = inr (fields, uploads) ->
  some_part_unreadable (fs (world s)) uploads ->
  exists s1 e,
    world s1 = world s
    /\ forall BACKEND_URL remote,
         handler_awaiting BACKEND_URL remote Blob req s = (failed_in Blob e s1, Ret tt)
         /\ handler_guarded BACKEND_URL remote Blob req s
            = (failed_in Blob e s1, Ret tt).
Proof.
  intros Hpost Hp Hex.
  destruct (assemble_blob_throws fields uploads s Hex) as (s1 & e & Hasm & Hworld).
  exists s1, e. split; [exact Hworld|]. intros BACKEND_URL remote.
  pose proof (fun next => middleware_assemble_throws Blob req next s s1 fields uploads e
                            Hp Hasm) as Hfail.
  split.
  - unfold handler_awaiting. rewrite (not_other_method req Hpost).
    apply try_catch_ret. apply Hfail.
  - unfold handler_guarded. rewrite (not_other_method req Hpost). apply Hfail.
Qed.

End PayloadInGeneral.

Section PayloadWitness.
Import Edge Payload PayloadShape Samples.

Lemma X21_buffer_variant_fails_before_relay_witness :
  exists s1 e,
    world s1 = world (edge_state ∅)
    /\ handler_guarded None accepting_backend Blob edge_request (edge_state ∅)
       = (failed_in Blob e s1, Ret tt).
Proof.
  destruct (X21_buffer_variant_fails_before_relay edge_request edge_fields edge_files
              (edge_state ∅)) as (s1 & e & Hw & Hboth).
  - reflexivity.
  - reflexivity.
  - apply Exists_cons_hd. apply Exists_cons_tl, Exists_cons_hd.
    split; [reflexivity|]. eexists. vm_compute. reflexivity.
  - exists s1, e. split; [exact Hw|]. apply (Hboth None accepting_backend).
Defined.

End PayloadWitness.

Section UnparseableReply.
Import Edge Payload PayloadShape.

Variable BACKEND_URL : option string.
Variable remote : string -> Body -> FetchResult.

(** X9. A reply whose body is not JSON is never passed on, even with a
    2xx status: each handler answers one 500 with success=false when the
    reply to the body it sends has no JSON. *)
Theorem X9_reply_without_json_gives_500 (v : variant) (req : Request)
    (fields : Fields) (uploads : Files) (s : State Locals) :
  method req = "POST" ->
  parse_result req = inr (fields, uploads) ->
  all_parts_readable (fs (world s)) uploads ->
  exists wire,
    realize_all (fs (world s)) (payload_of ReadStream fields uploads) = inr wire
    /\ (forall code,
          remote (backendUrl BACKEND_URL ++ "/api/upload") (Multipart wire)
          = HttpReply code None ->
          exists sa ra,
            handler_awaiting BACKEND_URL remote v req s = (sa, Ret tt)
            /\ sent (world sa) = (sent (world s) ++ [ra])%list
            /\ status ra = 500%N /\ success (body ra) = false)
    /\ (forall code,
          remote (backendUrl BACKEND_URL ++ "/api/upload") (guarded_body v wire)
          = HttpReply code None ->
          exists sg rg,
            handler_guarded BACKEND_URL remote v req s = (sg, Ret tt)
            /\ sent (world sg) = (sent (world s) ++ [rg])%list
            /\ status rg = 500%N /\ success (body rg) = false).
Proof.
  intros Hpost Hp Hall.
  destruct (assemble_readable v fields uploads s Hall)
    as (wire & payload & Hwire & Hasm & Hpay & Hbody).
  exists wire. split; [exact Hwire|].
  set (s1 := appended payload (reset s)) in *.
  set (s2 := attached fields uploads s1).
  split.
  - intros code Hreply. destruct v.
    + pose proof (awaiting_after_assembly BACKEND_URL remote req fields uploads s s1
                    wire Hpost Hp Hasm Hpay) as Ha.
      cbv zeta in Ha. fold s2 in Ha. rewrite Hreply in Ha. cbn [relayed] in Ha.
      destruct Ha as (e & _ & Ha).
      exists (failed_in Stream e s2), (middleware_failure e).
      split; [exact Ha|]. repeat split; reflexivity.
    + exists (failed_in Blob no_getHeaders s2), (middleware_failure no_getHeaders).
      split; [|repeat split; reflexivity].
      apply (awaiting_without_getHeaders BACKEND_URL remote req fields uploads s s1
               Hpost Hp Hasm).
  - intros code Hreply.
    pose proof (guarded_after_assembly BACKEND_URL remote v req fields uploads s s1
                  Hpost Hp Hasm) as Hg.
    cbv zeta in Hg. fold s2 in Hg.
    change (formData (locals s1)) with payload in Hg.
    rewrite Hbody, Hreply in Hg. cbn [relayed] in Hg.
    destruct Hg as (e & _ & Hg).
    destruct (cleanup_run "success" (all_files uploads) (refused_in e s2))
      as (sg & Hclean & Hsg & _).
    exists sg, (handler_failure e).
    split; [now rewrite Hg|]. split; [now rewrite Hsg|].
    split; reflexivity.
Qed.

End UnparseableReply.

Section UnparseableReplyWitness.
Import Edge Payload PayloadShape Samples.

Lemma X9_reply_without_json_gives_500_witness :
  exists sa ra,
    handler_awaiting None (fun _ _ => HttpReply 200 None) Stream edge_request
      (edge_state tmp_disk) = (sa, Ret tt)
    /\ sent (world sa) = [ra] /\ status ra = 500%N.
Proof.
  destruct (X9_reply_without_json_gives_500 None (fun _ _ => HttpReply 200 None)
              Stream edge_request edge_fields edge_files (edge_state tmp_disk))
    as (wire & _ & Hawaiting & _).
  - reflexivity.
  - reflexivity.
  - repeat constructor; cbn; intros _; eexists; vm_compute; reflexivity.
  - destruct (Hawaiting 200%N eq_refl) as (sa & ra & Ha & Hsa & Hst & _).
    now exists sa, ra.
Defined.

End UnparseableReplyWitness.

(** * The upload pipeline end to end *)

Section HappyPath.
Import Backend Verdict Pipeline.

Variable extname : string -> string.
Variable uploadsDir : string.

Lemma validate_passing file (s : State Locals) :
  passes (fs (world s)) file = true ->
  validate_file file s = (accepted_in file s, Ret tt).
Proof.
  unfold passes. destruct (NodeFs.read (fs (world s)) (path file)) as [e|b] eqn:Hr;
    [discriminate|].
  destruct (String.eqb_spec (mimetype file) "image/png") as [Hm | Hm]; intros Hp.
  - now apply (validate_png_ok _ _ b).
  - now apply (validate_other_ok _ _ b).
Qed.

Lemma loop_all_pass files : forall s : State Locals,
  Forall (fun f => passes (fs (world s)) f = true) files ->
  validation_loop files s =
    (mkState (world s)
       (mkLocals (validFiles (locals s) ++ files) (invalidFiles (locals s))), Ret tt).
Proof.
  induction files as [|file rest IH]; intros s Hall.
  - rewrite app_nil_r. now destruct s as [w [vs ivs]].
  - apply Forall_cons in Hall as [Hfile Hrest].
    rewrite (validation_loop_cons _ _ _ _ (validate_passing file s Hfile)).
    rewrite IH by exact Hrest. simpl. now rewrite <- app_assoc.
Qed.

Lemma map_m_describe_world proto hst valid : forall s : State Locals,
  exists s',
    map_m (describe proto hst) valid s =
      (s', Ret (descriptors proto hst (uuid_source (world s))
                  (uuid_drawn (world s)) valid))
    /\ sent (world s') = sent (world s)
    /\ fs (world s') = fs (world s).
Proof.
  induction valid as [|file rest IH]; intros s.
  - exists s. repeat split; reflexivity.
  - destruct (IH (on_world draw_uuid s)) as (s' & H & Hs & Hf).
    exists s'. split; [|split; assumption].
    simpl. unfold bind at 1. unfold describe at 1, bind at 1, uuidv4, ret at 1.
    unfold bind at 1. rewrite H. reflexivity.
Qed.

(** The route when every received file passes. *)
Lemma route_all_pass proto hst received (s : State Locals) :
  received <> [] ->
  Forall (fun f => passes (fs (world s)) f = true) received ->
  exists s',
    upload_route proto hst (Some received) s = (s', Ret tt)
    /\ sent (world s') =
         (sent (world s)
          ++ [mkHttpResponse 200
                (mkUploadResponse true (success_message received [])
                   (Some (descriptors proto hst (uuid_source (world s))
                            (uuid_drawn (world s)) received)) None)])%list
    /\ fs (world s') = fs (world s).
Proof.
  intros Hne Hall.
  set (s0 := on_locals (fun _ => mkLocals [] []) s).
  pose proof (loop_all_pass received s0 Hall) as Hloop. cbn in Hloop.
  set (s1 := mkState (world s) (mkLocals received [])) in Hloop.
  destruct (map_m_describe_world proto hst received s1) as (s2 & Hmap & Hs2 & Hf2).
  assert (Hlen : (length received =? 0)%nat = false).
  { destruct received; [congruence | reflexivity]. }
  exists (on_world (add_sent (mkHttpResponse 200
            (mkUploadResponse true (success_message received [])
               (Some (descriptors proto hst (uuid_source (world s))
                        (uuid_drawn (world s)) received)) None))) s2).
  split; [|split].
  - unfold upload_route. apply try_catch_ret. rewrite Hlen.
    unfold bind at 1. unfold modify at 1. fold s0.
    unfold bind at 1. rewrite Hloop.
    unfold bind at 1, get at 1. cbn [locals validFiles invalidFiles s1].
    rewrite Hlen. unfold bind at 1. rewrite Hmap. reflexivity.
  - simpl. now rewrite Hs2.
  - simpl. exact Hf2.
Qed.

Lemma same_length_prefix (a b x y : string) :
  String.length a = String.length b -> a ++ x = b ++ y -> a = b.
Proof.
  revert b. induction a as [|c a IH]; intros [|d b] Hlen Heq; try discriminate.
  - reflexivity.
  - simpl in Heq, Hlen. injection Heq as -> Heq. f_equal. apply IH; [lia | exact Heq].
Qed.

(** The paths the storage gives under two different draws differ. *)
Lemma generated_paths_differ ids t lo hi (k1 k2 : nat) (o1 o2 : string) :
  like_uuids ids lo hi -> (lo <= k1 < hi)%nat -> (lo <= k2 < hi)%nat -> k1 <> k2 ->
  uploadsDir ++ "/" ++ uniqueName extname (ids k1) t o1
  <> uploadsDir ++ "/" ++ uniqueName extname (ids k2) t o2.
Proof.
  intros Hids H1 H2 Hne Heq. destruct (Hids k1 k2 H1 H2) as [Hinj Hlen].
  apply Hne, Hinj.
  apply String.app_inj in Heq. simpl in Heq. injection Heq as Heq.
  unfold uniqueName in Heq. apply (same_length_prefix _ _ _ _ Hlen Heq).
Qed.

Lemma multer_stores ps : forall filesLeft stored (s : State Locals),
  first_violation filesLeft ps = None ->
  like_uuids (uuid_source (world s)) (uuid_drawn (world s))
    (uuid_drawn (world s) + length ps) ->
  exists s' new,
    multer_receive extname uploadsDir filesLeft ps stored s
      = (s', Ret (inl (stored ++ new)%list))
    /\ sent (world s') = sent (world s)
    /\ uuid_source (world s') = uuid_source (world s)
    /\ clock (world s') = clock (world s)
    /\ Forall2 (holds (fs (world s'))) ps new
    /\ Forall (fun f => exists k,
                 (uuid_drawn (world s) <= k < uuid_drawn (world s) + length ps)%nat
                 /\ path f = uploadsDir ++ "/"
                      ++ uniqueName extname (uuid_source (world s) k)
                           (clock (world s)) (originalname f)) new
    /\ (forall q, Forall (fun f => q <> path f) new ->
          fs (world s') !! q = fs (world s) !! q).
Proof.
  induction ps as [|p rest IH]; intros filesLeft stored s Hv Hids.
  - exists s, []. rewrite app_nil_r. repeat split; try reflexivity; constructor.
  - cbn [first_violation] in Hv. unfold part_violation in Hv.
    cbn [multer_receive].
    destruct (negb (String.eqb (part_fieldname p) "images") || (filesLeft =? 0)%nat);
      [discriminate|].
    unfold fileFilter.
    destruct (Js.startsWith (part_mimetype p) "image/"); cbn [negb] in Hv;
      [|discriminate].
    destruct (limits_fileSize <? N.of_nat (length (part_bytes p)))%N; [discriminate|].
    set (name := uniqueName extname (uuid_source (world s) (uuid_drawn (world s)))
                   (clock (world s)) (part_originalname p)).
    set (file := mkFile (part_fieldname p) (part_originalname p) (part_mimetype p)
                   name (uploadsDir ++ "/" ++ name)
                   (N.of_nat (length (part_bytes p)))).
    set (s1 := on_world (fun w => set_fs (<[path file := mkInode (part_bytes p) true true]>
                                            (fs w)) w) (on_world draw_uuid s)).
    cbn [length] in Hids.
    assert (Hids1 : like_uuids (uuid_source (world s1)) (uuid_drawn (world s1))
                      (uuid_drawn (world s1) + length rest)).
    { intros i j Hi Hj. cbn in Hi, Hj. apply Hids; lia. }
    destruct (IH (filesLeft - 1)%nat (stored ++ [file])%list s1 Hv Hids1)
      as (s' & new & Hrec & Hs & Hu & Hc & Hholds & Hgen & Hframe).
    assert (Hfresh : Forall (fun f => path file <> path f) new).
    { apply Forall_forall. intros f Hf. rewrite Forall_forall in Hgen.
      destruct (Hgen f Hf) as (k & Hk & ->). cbn in Hk. cbn [path file].
      unfold name.
      apply (generated_paths_differ _ _ _ _ _ _ _ _ Hids); lia. }
    exists s', (file :: new). split; [|split; [exact Hs | split; [exact Hu | split;
      [exact Hc | split; [|split]]]]].
    + unfold try_catch, bind, storage_filename, bind, uuidv4, Date_now, ret,
        NodeFs.writeFile, modify.
      cbn [fst snd world locals on_world].
      change ((let (s2, o) := multer_receive extname uploadsDir (filesLeft - 1) rest
                                 (stored ++ [file])%list s1 in
               match o with
               | Ret a => (s2, Ret a)
               | Throw e => (s2, Ret (inr (stored, e)))
               | Pending => (s2, Pending)
               end) = (s', Ret (inl (stored ++ file :: new)%list))).
      rewrite Hrec. now rewrite <- app_assoc.
    + constructor; [|exact Hholds].
      repeat split; try reflexivity.
      rewrite (Hframe (path file) Hfresh). cbn. apply lookup_insert_eq.
    + constructor.
      * exists (uuid_drawn (world s)). split; [cbn [length]; lia | reflexivity].
      * apply Forall_forall. intros f Hf. rewrite Forall_forall in Hgen.
        destruct (Hgen f Hf) as (k & Hk & Hpath). exists k. cbn in Hk.
        split; [cbn [length]; lia | exact Hpath].
    + intros q Hq. apply Forall_cons in Hq as [Hq1 Hq2].
      rewrite (Hframe q Hq2). cbn. now apply lookup_insert_ne.
Qed.

Lemma holds_passes f p file :
  holds f p file -> genuine p = true -> passes f file = true.
Proof.
  intros (_ & Hm & _ & Hl) Hg. unfold passes, NodeFs.read. rewrite Hl. cbn.
  unfold genuine in Hg. now rewrite Hm.
Qed.

Lemma descriptors_report proto hst ids (f : gmap string inode) ps files : forall n,
  Forall2 (holds f) ps files ->
  Forall2 (reports f) ps (descriptors proto hst ids n files).
Proof.
  intros n Hall. revert n.
  induction Hall as [|p file ps files Hp _ IH]; intros n; cbn [descriptors];
    constructor; [|apply IH].
  destruct Hp as (H1 & H2 & H3 & H4). now repeat split.
Qed.

(** X7. Any number of parts within the caps whose content agrees with the
    declared type, when [uuidv4] behaves like a UUID generator for the names
    it is asked for (values of one length, none repeated): the request
    is answered 200, [files] reports every part in the order sent, with its
    name, type and size, and each part's bytes are on disk at the reported
    path, also when several parts carry the same client filename. *)
Theorem X7_genuine_images_are_all_stored (req : Request) (s : State Locals) :
  parts req <> [] ->
  first_violation 10 (parts req) = None ->
  Forall (fun p => genuine p = true) (parts req) ->
  like_uuids (uuid_source (world s)) (uuid_drawn (world s))
    (uuid_drawn (world s) + length (parts req)) ->
  exists s' msg fileData,
    handle_upload extname uploadsDir req s = (s', Ret tt)
    /\ sent (world s') =
         (sent (world s)
          ++ [mkHttpResponse 200 (mkUploadResponse true msg (Some fileData) None)])%list
    /\ Forall2 (reports (fs (world s'))) (parts req) fileData.
Proof.
  intros Hne Hv Hgen Hids.
  destruct (multer_stores (parts req) 10 [] s Hv Hids)
    as (s1 & new & Hrec & Hs1 & Hu1 & _ & Hholds & _ & _).
  cbn [app] in Hrec.
  assert (Hnew : new <> []).
  { intros ->. apply Forall2_length in Hholds. destruct (parts req); [congruence|].
    discriminate. }
  assert (Hpass : Forall (fun f => passes (fs (world s1)) f = true) new).
  { clear - Hholds Hgen. induction Hholds as [|p file ps files Hp _ IH]; [constructor|].
    apply Forall_cons in Hgen as [Hg Hrest].
    constructor; [now apply (holds_passes _ p) | now apply IH]. }
  destruct (route_all_pass (protocol req) (host req) new s1 Hnew Hpass)
    as (s2 & Hroute & Hs2 & Hf2).
  exists s2. eexists. eexists. split; [|split].
  - unfold handle_upload. apply try_catch_ret.
    unfold bind at 1, upload_array, bind at 1. rewrite Hrec.
    unfold ret at 1. exact Hroute.
  - rewrite Hs2, Hs1. reflexivity.
  - rewrite Hf2. now apply descriptors_report.
Qed.

End HappyPath.

Section HappyPathWitness.
Import Backend Verdict Pipeline Samples.

Lemma X7_genuine_images_are_all_stored_witness :
  exists s' msg fileData,
    handle_upload sample_extname "/srv/uploads"
      (mkRequest "http" (Some "localhost:8080") twin_parts) (backend_state ∅)
    = (s', Ret tt)
    /\ sent (world s') =
         [mkHttpResponse 200 (mkUploadResponse true msg (Some fileData) None)]
    /\ Forall2 (reports (fs (world s'))) twin_parts fileData.
Proof.
  apply (X7_genuine_images_are_all_stored sample_extname "/srv/uploads"
           (mkRequest "http" (Some "localhost:8080") twin_parts) (backend_state ∅)).
  - discriminate.
  - reflexivity.
  - repeat constructor.
  - intros i j Hi Hj. cbn in Hi, Hj.
    assert (Hi' : i = 0%nat \/ i = 1%nat) by lia.
    assert (Hj' : j = 0%nat \/ j = 1%nat) by lia.
    destruct Hi' as [-> | ->], Hj' as [-> | ->]; split;
      try reflexivity; intros H; try reflexivity; vm_compute in H; discriminate.
Defined.

End HappyPathWitness.
